(** * Job-notifier: a shallow embedding of [scraper.py]

    The script loads the list of already processed links, scrapes one search
    page, fetches and classifies every new link, notifies for each accepted
    one and finally either saves the extended list or sends one status
    notification.

    Python values are modelled as they are at run time: a [str] is a list of
    code points, the result of [json.load] is a [pyval], exceptions are values
    of [exn] threaded through a state-and-error monad whose state holds the
    state file and the trace of external calls.

    Standard output is UTF-8.  The call to [print] in [analyze_with_gemini]
    writes text received from outside (the title of a page, the reply of the
    classifier service) and raises when the text holds a code point that
    standard output cannot encode; it is modelled.  The other calls to
    [print] write fixed texts, numbers, links and messages of exceptions;
    they are left out. *)

From Stdlib Require Import List NArith ZArith Bool Arith Lia String Ascii.
Import ListNotations.
Local Open Scope N_scope.
Local Set Warnings "-register-all".

(** ** Python strings *)

(** A Python [str]: a sequence of Unicode code points. *)
Definition pystr := list N.

(** ASCII literal of the source, as code points. *)
Definition str (s : string) : pystr :=
  List.map N_of_ascii (list_ascii_of_string s).

Fixpoint str_eqb (a b : pystr) : bool :=
  match a, b with
  | [], [] => true
  | x :: a', y :: b' => (x =? y) && str_eqb a' b'
  | _, _ => false
  end.

(** [s.startswith(p)] *)
Fixpoint startswith (s p : pystr) {struct p} : bool :=
  match p, s with
  | [], _ => true
  | x :: p', y :: s' => (x =? y) && startswith s' p'
  | _ :: _, [] => false
  end.

(** [needle in hay] for two strings: substring test. *)
Fixpoint str_contains (needle hay : pystr) : bool :=
  startswith hay needle ||
  match hay with
  | [] => false
  | _ :: hay' => str_contains needle hay'
  end.

Definition ascii_upper (c : N) : N :=
  if (97 <=? c) && (c <=? 122) then c - 32 else c.

(** [s.upper()]: CPython maps every code point on its own through the full
    Unicode upper-case mapping (one code point may become several).  On ASCII
    that is [ascii_upper]; the table for the rest is [unicode_upper] of the
    library record below. *)
Definition upper_with (unicode_upper : N -> pystr) (s : pystr) : pystr :=
  flat_map (fun c => if c <? 128 then [ascii_upper c] else unicode_upper c) s.

(** [str.isspace] on one code point (the separators of [str.split()]). *)
Definition is_space (c : N) : bool :=
  ((9 <=? c) && (c <=? 13)) || ((28 <=? c) && (c <=? 32)) ||
  (c =? 133) || (c =? 160) || (c =? 5760) ||
  ((8192 <=? c) && (c <=? 8202)) || (c =? 8232) || (c =? 8233) ||
  (c =? 8239) || (c =? 8287) || (c =? 12288).

(** [s.split()]: maximal runs of non-space code points. *)
Fixpoint split_ws (s : pystr) (cur : pystr) : list pystr :=
  match s with
  | [] => match cur with [] => [] | _ => [cur] end
  | c :: s' =>
      if is_space c
      then match cur with [] => split_ws s' [] | _ => cur :: split_ws s' [] end
      else split_ws s' (cur ++ [c])
  end.

(** [sep.join(parts)] *)
Fixpoint join (sep : pystr) (parts : list pystr) : pystr :=
  match parts with
  | [] => []
  | [p] => p
  | p :: rest => p ++ sep ++ join sep rest
  end.

(** [s.strip()]: whitespace removed at both ends. *)
Fixpoint lstrip (s : pystr) : pystr :=
  match s with
  | c :: r => if is_space c then lstrip r else s
  | [] => []
  end.

Definition strip (s : pystr) : pystr := rev (lstrip (rev (lstrip s))).

(** ** Exceptions *)

(** Subclasses of [requests.exceptions.RequestException]. *)
Inductive requests_error :=
| ConnectionError | Timeout | HTTPError | TooManyRedirects | InvalidURL
| InvalidHeader | ChunkedEncodingError
| RequestsJSONDecodeError. (* requests.exceptions.JSONDecodeError, requests >= 2.27 *)

Inductive exn :=
| FileNotFoundError | PermissionError | IsADirectoryError
| UnicodeDecodeError | UnicodeEncodeError
| JSONDecodeError                      (* json.JSONDecodeError *)
| RequestException (k : requests_error)
| IndexError | KeyError | TypeError | AttributeError | ValueError
| RecursionError.

(** [isinstance(e, requests.exceptions.RequestException)] *)
Definition is_RequestException (e : exn) : bool :=
  match e with RequestException _ => true | _ => false end.

(** [isinstance(e, (FileNotFoundError, json.JSONDecodeError))];
    [requests.exceptions.JSONDecodeError] also derives from
    [json.JSONDecodeError]. *)
Definition is_FileNotFound_or_JSONDecode (e : exn) : bool :=
  match e with
  | FileNotFoundError | JSONDecodeError
  | RequestException RequestsJSONDecodeError => true
  | _ => false
  end.

Inductive result (A : Type) :=
| Ok (a : A)
| Raise (e : exn).
Arguments Ok {A} a.
Arguments Raise {A} e.

(** ** Python values produced by [json] *)

Inductive pyval :=
| PNone
| PBool (b : bool)
| PNum (literal : pystr)               (* an int or float, by its JSON text *)
| PStr (s : pystr)
| PList (items : list pyval)
| PDict (entries : list (pystr * pyval)).

(** [d[k] = v] on a dict kept in insertion order. *)
Fixpoint dict_set (d : list (pystr * pyval)) (k : pystr) (v : pyval)
  : list (pystr * pyval) :=
  match d with
  | [] => [(k, v)]
  | (k', v') :: d' =>
      if str_eqb k k' then (k, v) :: d' else (k', v') :: dict_set d' k v
  end.

Definition dict_of_pairs (kvs : list (pystr * pyval)) : list (pystr * pyval) :=
  fold_left (fun d kv => dict_set d (fst kv) (snd kv)) kvs [].

Fixpoint dict_lookup (d : list (pystr * pyval)) (k : pystr) : option pyval :=
  match d with
  | [] => None
  | (k', v) :: d' => if str_eqb k k' then Some v else dict_lookup d' k
  end.

(** ** [json.loads] *)

Definition is_json_ws (c : N) : bool :=
  (c =? 32) || (c =? 9) || (c =? 10) || (c =? 13).

Fixpoint skip_ws (s : pystr) : pystr :=
  match s with
  | c :: s' => if is_json_ws c then skip_ws s' else s
  | [] => []
  end.

Definition hexval (c : N) : option N :=
  if (48 <=? c) && (c <=? 57) then Some (c - 48)
  else if (97 <=? c) && (c <=? 102) then Some (c - 87)
  else if (65 <=? c) && (c <=? 70) then Some (c - 55)
  else None.

Definition hex4 (a b c d : N) : option N :=
  match hexval a, hexval b, hexval c, hexval d with
  | Some x, Some y, Some z, Some t => Some (((x * 16 + y) * 16 + z) * 16 + t)
  | _, _, _, _ => None
  end.

Definition is_high_surrogate (c : N) : bool := (55296 <=? c) && (c <=? 56319).
Definition is_low_surrogate (c : N) : bool := (56320 <=? c) && (c <=? 57343).

Definition join_surrogates (hi lo : N) : N :=
  65536 + N.lor (N.shiftl (hi - 55296) 10) (lo - 56320).

(** The one-letter escapes of the decoder's [BACKSLASH] table. *)
Definition backslash (c : N) : option N :=
  if c =? 34 then Some 34            (* quote *)
  else if c =? 92 then Some 92       (* backslash *)
  else if c =? 47 then Some 47       (* slash *)
  else if c =? 98 then Some 8        (* b: backspace *)
  else if c =? 102 then Some 12      (* f: form feed *)
  else if c =? 110 then Some 10      (* n: line feed *)
  else if c =? 114 then Some 13      (* r: carriage return *)
  else if c =? 116 then Some 9       (* t: tab *)
  else None.

(** [scanstring(s, end, strict=True)], entered after the opening quote:
    the decoded string and the text after the closing quote, or [None] where
    the decoder raises [JSONDecodeError]. *)
Fixpoint scanstring (s : pystr) : option (pystr * pystr) :=
  let cons c r :=
    match r with Some (x, rest) => Some (c :: x, rest) | None => None end in
  match s with
  | [] => None
  | c :: r =>
      if c =? 34 then Some ([], r)
      else if c =? 92 then
        match r with
        | [] => None
        | e :: r1 =>
            if e =? 117 then
              match r1 with
              | h1 :: h2 :: h3 :: h4 :: r2 =>
                  match hex4 h1 h2 h3 h4 with
                  | None => None
                  | Some uni =>
                      if is_high_surrogate uni then
                        match r2 with
                        | b :: u :: g1 :: g2 :: g3 :: g4 :: r3 =>
                            if (b =? 92) && (u =? 117) then
                              match hex4 g1 g2 g3 g4 with
                              | None => None
                              | Some uni2 =>
                                  if is_low_surrogate uni2
                                  then cons (join_surrogates uni uni2) (scanstring r3)
                                  else cons uni (scanstring r2)
                              end
                            else cons uni (scanstring r2)
                        | _ => cons uni (scanstring r2)
                        end
                      else cons uni (scanstring r2)
                  end
              | _ => None
              end
            else
              match backslash e with
              | Some x => cons x (scanstring r1)
              | None => None
              end
        end
      else if c <? 32 then None
      else cons c (scanstring r)
  end.

Definition is_digit (c : N) : bool := (48 <=? c) && (c <=? 57).

Fixpoint span_digits (s : pystr) : pystr * pystr :=
  match s with
  | c :: s' =>
      if is_digit c then let (ds, rest) := span_digits s' in (c :: ds, rest)
      else ([], s)
  | [] => ([], [])
  end.

(** The scanner's number pattern: an optional minus sign, then a zero or a
    non-zero digit with any digits after it, then optionally a dot with at
    least one digit, then optionally e or E, an optional sign and at least one
    digit.  Each part returns what it matched and what follows. *)
Definition scan_sign (s : pystr) : pystr * pystr :=
  match s with
  | c :: r => if c =? 45 then ([45], r) else ([], s)
  | [] => ([], s)
  end.

Definition scan_int (s : pystr) : option (pystr * pystr) :=
  match s with
  | c :: r =>
      if c =? 48 then Some ([48], r)
      else if is_digit c then
        let (ds, rest) := span_digits r in Some (c :: ds, rest)
      else None
  | [] => None
  end.

Definition scan_frac (s : pystr) : pystr * pystr :=
  match s with
  | c :: r =>
      if c =? 46 then
        match span_digits r with
        | ([], _) => ([], s)
        | (ds, rest) => (46 :: ds, rest)
        end
      else ([], s)
  | [] => ([], s)
  end.

Definition scan_exp (s : pystr) : pystr * pystr :=
  match s with
  | c :: r =>
      if (c =? 101) || (c =? 69) then
        let (sg, r') :=
          match r with
          | d :: r0 => if (d =? 43) || (d =? 45) then ([d], r0) else ([], r)
          | [] => ([], r)
          end in
        match span_digits r' with
        | ([], _) => ([], s)
        | (ds, rest) => (c :: sg ++ ds, rest)
        end
      else ([], s)
  | [] => ([], s)
  end.

Definition match_number (s : pystr) : option (pystr * pystr) :=
  let (sign, s1) := scan_sign s in
  match scan_int s1 with
  | None => None
  | Some (ip, s2) =>
      let (frac, s3) := scan_frac s2 in
      let (exp, s4) := scan_exp s3 in
      Some (sign ++ ip ++ frac ++ exp, s4)
  end.

Definition lit_null : pystr := Eval cbv in str "null".
Definition lit_true : pystr := Eval cbv in str "true".
Definition lit_false : pystr := Eval cbv in str "false".
Definition lit_NaN : pystr := Eval cbv in str "NaN".
Definition lit_Infinity : pystr := Eval cbv in str "Infinity".
Definition lit_minus_Infinity : pystr := Eval cbv in str "-Infinity".

(** Limits of the interpreter that the decoder meets. *)
Record limits := {
  (** [sys.get_int_max_str_digits()]: the most digits [int] converts from a
      string (4300 unless configured); 0 when there is no limit *)
  int_max_str_digits : N;
  (** the most arrays and objects that may be open around another one when
      the decoder enters it, before the recursion limit is reached *)
  nesting_limit : nat
}.

(** The literal is an integer (no fraction, no exponent) with more digits
    than [int] converts: [int(literal)] raises [ValueError]. *)
Definition exceeds_int_limit (max_digits : N) (literal : pystr) : bool :=
  (0 <? max_digits) &&
  forallb (fun c => is_digit c || (c =? 45)) literal &&
  (max_digits <? N.of_nat (List.length (filter is_digit literal))).

(** The scanner.  [scan_once] reads one value at the head of [s];
    [array_items] reads the items of an array up to its closing bracket and
    [object_items] the members of an object up to its closing brace.  A text
    that is not JSON raises [JSONDecodeError]; an integer literal beyond
    [max_digits] raises [ValueError]; entering an array or object when
    [depth], the number of them that may still be entered, is used up raises
    [RecursionError].  The recursion is on [fuel]; [json_loads] gives more
    than any text consumes. *)
Fixpoint scan_once (max_digits : N) (fuel depth : nat) (s : pystr) {struct fuel}
  : result (pyval * pystr) :=
  match fuel with
  | O => Raise JSONDecodeError
  | S fuel' =>
    match s with
    | [] => Raise JSONDecodeError
    | c :: r =>
      if c =? 34 then
        match scanstring r with
        | Some (x, rest) => Ok (PStr x, rest)
        | None => Raise JSONDecodeError
        end
      else if c =? 123 then
        match depth with
        | O => Raise RecursionError
        | S depth' =>
          match skip_ws r with
          | c' :: r' =>
              if c' =? 125 then Ok (PDict [], r')
              else
                match object_items max_digits fuel' depth' (c' :: r') with
                | Ok (kvs, rest) => Ok (PDict (dict_of_pairs kvs), rest)
                | Raise e => Raise e
                end
          | [] => Raise JSONDecodeError
          end
        end
      else if c =? 91 then
        match depth with
        | O => Raise RecursionError
        | S depth' =>
          match skip_ws r with
          | c' :: r' =>
              if c' =? 93 then Ok (PList [], r')
              else
                match array_items max_digits fuel' depth' (c' :: r') with
                | Ok (vs, rest) => Ok (PList vs, rest)
                | Raise e => Raise e
                end
          | [] => Raise JSONDecodeError
          end
        end
      else if startswith s lit_null then Ok (PNone, skipn 4 s)
      else if startswith s lit_true then Ok (PBool true, skipn 4 s)
      else if startswith s lit_false then Ok (PBool false, skipn 5 s)
      else
        match match_number s with
        | Some (lit, rest) =>
            if exceeds_int_limit max_digits lit then Raise ValueError
            else Ok (PNum lit, rest)
        | None =>
            if startswith s lit_NaN then Ok (PNum lit_NaN, skipn 3 s)
            else if startswith s lit_Infinity then Ok (PNum lit_Infinity, skipn 8 s)
            else if startswith s lit_minus_Infinity
            then Ok (PNum lit_minus_Infinity, skipn 9 s)
            else Raise JSONDecodeError
        end
    end
  end

with array_items (max_digits : N) (fuel depth : nat) (s : pystr) {struct fuel}
  : result (list pyval * pystr) :=
  match fuel with
  | O => Raise JSONDecodeError
  | S fuel' =>
    match scan_once max_digits fuel' depth s with
    | Raise e => Raise e
    | Ok (v, r) =>
      match skip_ws r with
      | c :: r' =>
          if c =? 93 then Ok ([v], r')
          else if c =? 44 then
            match array_items max_digits fuel' depth (skip_ws r') with
            | Ok (vs, rest) => Ok (v :: vs, rest)
            | Raise e => Raise e
            end
          else Raise JSONDecodeError
      | [] => Raise JSONDecodeError
      end
    end
  end

with object_items (max_digits : N) (fuel depth : nat) (s : pystr) {struct fuel}
  : result (list (pystr * pyval) * pystr) :=
  match fuel with
  | O => Raise JSONDecodeError
  | S fuel' =>
    match s with
    | [] => Raise JSONDecodeError
    | q :: r =>
      if q =? 34 then
        match scanstring r with
        | None => Raise JSONDecodeError
        | Some (key, r1) =>
          match skip_ws r1 with
          | [] => Raise JSONDecodeError
          | colon :: r2 =>
            if colon =? 58 then
              match scan_once max_digits fuel' depth (skip_ws r2) with
              | Raise e => Raise e
              | Ok (v, r3) =>
                match skip_ws r3 with
                | [] => Raise JSONDecodeError
                | c :: r4 =>
                    if c =? 125 then Ok ([(key, v)], r4)
                    else if c =? 44 then
                      match object_items max_digits fuel' depth (skip_ws r4) with
                      | Ok (kvs, rest) => Ok ((key, v) :: kvs, rest)
                      | Raise e => Raise e
                      end
                    else Raise JSONDecodeError
                end
              end
            else Raise JSONDecodeError
          end
        end
      else Raise JSONDecodeError
    end
  end.

Definition json_fuel (s : pystr) : nat := 2 * List.length s + 2.

(** [json.loads(s)] for a [str]: a leading byte-order mark is refused, then
    one value is read between optional whitespace and nothing may follow.
    The outermost array or object can always be entered. *)
Definition json_loads (lim : limits) (s : pystr) : result pyval :=
  match s with
  | 65279 :: _ => Raise JSONDecodeError
  | _ =>
      match scan_once (int_max_str_digits lim) (json_fuel s)
                      (S (nesting_limit lim)) (skip_ws s) with
      | Ok (v, rest) =>
          match skip_ws rest with
          | [] => Ok v
          | _ :: _ => Raise JSONDecodeError
          end
      | Raise e => Raise e
      end
  end.

(** ** [json.dump(..., indent=2)] *)

Definition hexdigit (d : N) : N := if d <? 10 then 48 + d else 87 + d.

(** A backslash, the letter u and four lower-case hex digits. *)
Definition u_escape (n : N) : pystr :=
  [92; 117; hexdigit (n / 4096 mod 16); hexdigit (n / 256 mod 16);
   hexdigit (n / 16 mod 16); hexdigit (n mod 16)].

(** One code point under [ensure_ascii=True]: backslash, quote and everything
    outside space..tilde are escaped, above the BMP as a surrogate pair. *)
Definition escape_char (c : N) : pystr :=
  if c =? 92 then [92; 92]
  else if c =? 34 then [92; 34]
  else if (32 <=? c) && (c <=? 126) then [c]
  else if c =? 8 then [92; 98]
  else if c =? 12 then [92; 102]
  else if c =? 10 then [92; 110]
  else if c =? 13 then [92; 114]
  else if c =? 9 then [92; 116]
  else if c <? 65536 then u_escape c
  else
    let n := c - 65536 in
    u_escape (N.lor 55296 (N.land (N.shiftr n 10) 1023)) ++
    u_escape (N.lor 56320 (N.land n 1023)).

Definition encode_basestring_ascii (s : pystr) : pystr :=
  34 :: flat_map escape_char s ++ [34].

Definition newline_indent (level : nat) : pystr :=
  10 :: repeat 32 (2 * level).

(** The encoder at nesting depth [level]; [number_repr] is the text Python
    writes for the number read from a JSON literal. *)
Fixpoint iterencode (number_repr : pystr -> pystr) (level : nat) (v : pyval)
  : pystr :=
  match v with
  | PNone => lit_null
  | PBool true => lit_true
  | PBool false => lit_false
  | PNum literal => number_repr literal
  | PStr s => encode_basestring_ascii s
  | PList [] => [91; 93]
  | PList items =>
      [91] ++ newline_indent (S level) ++
      join (44 :: newline_indent (S level))
           (List.map (iterencode number_repr (S level)) items) ++
      newline_indent level ++ [93]
  | PDict [] => [123; 125]
  | PDict entries =>
      [123] ++ newline_indent (S level) ++
      join (44 :: newline_indent (S level))
           (List.map (fun kv => encode_basestring_ascii (fst kv) ++ [58; 32] ++
                                iterencode number_repr (S level) (snd kv))
                     entries) ++
      newline_indent level ++ [125]
  end.

Definition json_dumps (number_repr : pystr -> pystr) (v : pyval) : pystr :=
  iterencode number_repr 0 v.

(** ** Operations of the script on Python values *)

Definition is_str (x : pystr) (v : pyval) : bool :=
  match v with PStr s => str_eqb x s | _ => false end.

(** [len(v)] *)
Definition py_len (v : pyval) : result nat :=
  match v with
  | PStr s => Ok (List.length s)
  | PList items => Ok (List.length items)
  | PDict entries => Ok (List.length entries)
  | _ => Raise TypeError
  end.

(** [x in v] for a string [x]: element of a list, key of a dict,
    substring of a string. *)
Definition py_in (x : pystr) (v : pyval) : result bool :=
  match v with
  | PStr s => Ok (str_contains x s)
  | PList items => Ok (existsb (is_str x) items)
  | PDict entries =>
      Ok (match dict_lookup entries x with Some _ => true | None => false end)
  | _ => Raise TypeError
  end.

(** [v + new] for a list of strings [new]. *)
Definition py_add (v : pyval) (new : list pystr) : result pyval :=
  match v with
  | PList items => Ok (PList (items ++ List.map PStr new))
  | _ => Raise TypeError
  end.

(** [v.get(key, default)] *)
Definition py_get (v : pyval) (key : pystr) (default : pyval) : result pyval :=
  match v with
  | PDict entries =>
      Ok (match dict_lookup entries key with Some x => x | None => default end)
  | _ => Raise AttributeError
  end.

(** [v[0]] *)
Definition py_item0 (v : pyval) : result pyval :=
  match v with
  | PList (x :: _) => Ok x
  | PList [] => Raise IndexError
  | PStr (c :: _) => Ok (PStr [c])
  | PStr [] => Raise IndexError
  | PDict _ => Raise KeyError
  | _ => Raise TypeError
  end.

(** A value used as a string ([.strip()], [.upper()]). *)
Definition py_as_str (v : pyval) : result pystr :=
  match v with
  | PStr s => Ok s
  | _ => Raise AttributeError
  end.

Definition is_surrogate (c : N) : bool := (55296 <=? c) && (c <=? 57343).

Definition utf8_char (c : N) : option (list N) :=
  if c <? 128 then Some [c]
  else if c <? 2048 then Some [192 + c / 64; 128 + c mod 64]
  else if is_surrogate c then None
  else if c <? 65536
  then Some [224 + c / 4096; 128 + c / 64 mod 64; 128 + c mod 64]
  else Some [240 + c / 262144; 128 + c / 4096 mod 64;
             128 + c / 64 mod 64; 128 + c mod 64].

(** [s.encode('utf-8')] *)
Fixpoint encode_utf8 (s : pystr) : result (list N) :=
  match s with
  | [] => Ok []
  | c :: s' =>
      match utf8_char c, encode_utf8 s' with
      | Some bs, Ok rest => Ok (bs ++ rest)
      | None, _ => Raise UnicodeEncodeError
      | _, Raise e => Raise e
      end
  end.

(** Formatting of a possibly-[None] value inside an f-string. *)
Definition fmt (o : option pystr) : pystr :=
  match o with Some s => s | None => str "None" end.

(** Python truth of an optional string: [None] and the empty string are false. *)
Definition truthy (o : option pystr) : option pystr :=
  match o with
  | Some (c :: s) => Some (c :: s)
  | _ => None
  end.

(** ** The libraries and the outside world *)

Inductive requests_release :=
| Requests_before_2_27      (* Response.json() raises json.JSONDecodeError *)
| Requests_since_2_27.      (* it raises requests.exceptions.JSONDecodeError *)

(** What the imported libraries contribute and the script does not define. *)
(** The error handler of [sys.stdout]: [strict], or [surrogateescape] as in
    the C and C.UTF-8 locales. *)
Inductive error_handler := Strict | SurrogateEscape.

Record library := {
  (** error handler of standard output *)
  stdout_errors : error_handler;
  (** limits met by [json.load] of the state file *)
  load_limits : limits;
  (** limits met by [Response.json()] *)
  reply_limits : limits;
  (** upper-case mapping of [str.upper] outside ASCII *)
  unicode_upper : N -> pystr;
  (** text of the number read from a JSON literal, as [json.dump] writes it *)
  number_repr : pystr -> pystr;
  (** installed release of [requests] *)
  requests_version : requests_release;
  (** [urlparse(link).hostname] *)
  urlparse_hostname : pystr -> result (option pystr);
  (** [parse_qs(urlparse(href).query).get('q', [None])[0]] *)
  query_q : pystr -> option pystr
}.

Definition upper (lib : library) : pystr -> pystr :=
  upper_with (unicode_upper lib).

(** Standard output has a form for the code point: every code point that is
    not a surrogate, and under [surrogateescape] the surrogates that stand
    for a byte. *)
Definition stdout_char (h : error_handler) (c : N) : bool :=
  negb (is_surrogate c) ||
  match h with
  | Strict => false
  | SurrogateEscape => (56448 <=? c) && (c <=? 56575)
  end.

Definition stdout_encodes (lib : library) (text : pystr) : bool :=
  forallb (stdout_char (stdout_errors lib)) text.

(** The exception of [Response.json()] on a body that is not JSON. *)
Definition response_json_error (lib : library) : exn :=
  match requests_version lib with
  | Requests_before_2_27 => JSONDecodeError
  | Requests_since_2_27 => RequestException RequestsJSONDecodeError
  end.

(** [job_details] (and [status_update], which has a title and a link only). *)
Record job := {
  title : option pystr;        (* [page_soup.title.string] may be [None] *)
  company : option pystr;
  details : pystr;
  link : pystr
}.

(** The interpolated fields of the classifier prompt; the wording around them
    is fixed. *)
Record prompt := {
  prompt_title : pystr;
  prompt_source : pystr;
  prompt_content : pystr
}.

(** What [BeautifulSoup] finds in a fetched page. *)
Record page := {
  (** [None]: no title element; [Some None]: a title without a single string *)
  page_title : option (option pystr);
  (** [page_soup.body.get_text()], [None] without a body element *)
  page_body_text : option pystr
}.

Record response := {
  status_code : N;
  text : pystr
}.

Inductive ntfy_body :=
| BodyStr (s : pystr)
| BodyBytes (b : list N).

Record ntfy_request := {
  ntfy_topic : pystr;
  ntfy_data : ntfy_body;
  header_Title : option pystr;
  header_Click : pystr;
  header_Tags : pystr
}.

(** The network and the file system.  Every answer may depend on the number
    of external calls made before it, so the same link can answer differently
    when asked twice. *)
Record world := {
  (** [open(PROCESSED_JOBS_FILE, 'w')]: whether the file can be created or
      truncated *)
  open_write : nat -> result unit;
  (** [requests.get(google_url)] and the [href]s of its anchors, in document order *)
  search_hrefs : pystr -> result (list pystr);
  (** [requests.get(link, timeout=20)] parsed by [BeautifulSoup] *)
  get_page : nat -> pystr -> result page;
  (** [requests.post(api_url, json=payload, timeout=30)] *)
  post_gemini : nat -> pystr -> prompt -> result response;
  (** [requests.post("https://ntfy.sh/<topic>", ...)] *)
  post_ntfy : nat -> ntfy_request -> result unit
}.

(** The process environment. *)
Record environ := {
  GEMINI_API_KEY : option pystr;
  NTFY_TOPIC : option pystr;
  GITHUB_REPOSITORY : option pystr
}.

(** [processed_jobs.json] as [open] finds it. *)
Inductive file_state :=
| FileAbsent                 (* no such file *)
| FileDenied                 (* [open] raises [PermissionError] *)
| FileIsDirectory            (* [open] raises [IsADirectoryError] *)
| FileUndecodable            (* bytes that are not text in the default encoding *)
| FileText (content : pystr).

Inductive event :=
| EvSleep
| EvSearch (url : pystr)
| EvFetch (url : pystr)                        (* page fetch of a candidate *)
| EvClassify (j : job)                         (* [analyze_with_gemini(j, _)] *)
| EvNotify (j : job) (is_no_job_notification : bool)
| EvNtfyPost (r : ntfy_request)
| EvSave (jobs_list : pyval).                  (* [save_processed_jobs(jobs_list)] *)

Record state := {
  trace : list event;
  file : file_state
}.

(** ** The monad of the script: state and exceptions *)

Definition M (A : Type) : Type := state -> result A * state.

Definition ret {A} (a : A) : M A := fun st => (Ok a, st).

Definition raise {A} (e : exn) : M A := fun st => (Raise e, st).

Definition bind {A B} (m : M A) (k : A -> M B) : M B :=
  fun st =>
    match m st with
    | (Ok a, st') => k a st'
    | (Raise e, st') => (Raise e, st')
    end.

Definition lift {A} (r : result A) : M A := fun st => (r, st).

(** [try: m except <classes>: handler] *)
Definition try_except {A} (m : M A) (catches : exn -> bool) (handler : exn -> M A)
  : M A :=
  fun st =>
    match m st with
    | (Ok a, st') => (Ok a, st')
    | (Raise e, st') => if catches e then handler e st' else (Raise e, st')
    end.

Definition emit (ev : event) : M unit :=
  fun st => (Ok tt, {| trace := trace st ++ [ev]; file := file st |}).

(** Number of external calls so far. *)
Definition now : M nat := fun st => (Ok (List.length (trace st)), st).

Declare Scope monad_scope.
Delimit Scope monad_scope with monad.
Notation "x <- m ;; k" := (bind m (fun x => k))
  (at level 61, m at next level, right associativity) : monad_scope.
Notation "m ;; k" := (bind m (fun _ => k))
  (at level 61, right associativity) : monad_scope.
Local Open Scope monad_scope.

(** ** The script *)

(** Text of the state file, as [f.read()] inside [json.load] gets it. *)
Definition read_file : M pystr :=
  fun st =>
    match file st with
    | FileAbsent => (Raise FileNotFoundError, st)
    | FileDenied => (Raise PermissionError, st)
    | FileIsDirectory => (Raise IsADirectoryError, st)
    | FileUndecodable => (Raise UnicodeDecodeError, st)
    | FileText content => (Ok content, st)
    end.

(** [with open(PROCESSED_JOBS_FILE, 'r') as f: return json.load(f)] *)
Definition json_load (lib : library) : M pyval :=
  s <- read_file ;;
  lift (json_loads (load_limits lib) s).

Definition get_processed_jobs (lib : library) : M pyval :=
  try_except (json_load lib) is_FileNotFound_or_JSONDecode (fun _ => ret (PList [])).

(** [with open(PROCESSED_JOBS_FILE, 'w') as f: json.dump(jobs_list, f, indent=2)]:
    a directory at the path cannot be opened; otherwise the file system
    decides, and an [open] that raises leaves the file as it was. *)
Definition write_file (w : world) (content : pystr) : M unit :=
  fun st =>
    match file st with
    | FileIsDirectory => (Raise IsADirectoryError, st)
    | _ =>
        match open_write w (List.length (trace st)) with
        | Ok _ => (Ok tt, {| trace := trace st; file := FileText content |})
        | Raise e => (Raise e, st)
        end
    end.

Definition save_processed_jobs (lib : library) (w : world) (jobs_list : pyval)
  : M unit :=
  emit (EvSave jobs_list) ;;
  write_file w (json_dumps (number_repr lib) jobs_list).

Definition YES : pystr := Eval cbv in str "YES".
Definition lit_candidates : pystr := Eval cbv in str "candidates".
Definition lit_content : pystr := Eval cbv in str "content".
Definition lit_parts : pystr := Eval cbv in str "parts".
Definition lit_text : pystr := Eval cbv in str "text".

Definition prompt_of (job_details : job) : prompt :=
  {| prompt_title := fmt (title job_details);
     prompt_source := fmt (company job_details);
     prompt_content := firstn 2000 (details job_details) |}.

(** [response.raise_for_status()] *)
Definition raise_for_status (r : response) : M unit :=
  if (400 <=? status_code r) && (status_code r <? 600)
  then raise (RequestException HTTPError)
  else ret tt.

(** [response.json()]: the decoder's [JSONDecodeError] is raised as the
    release of [requests] has it; other errors of the decoder pass. *)
Definition response_json (lib : library) (r : response) : M pyval :=
  match json_loads (reply_limits lib) (text r) with
  | Ok v => ret v
  | Raise JSONDecodeError => raise (response_json_error lib)
  | Raise e => raise e
  end.

(** [result.get('candidates', [{}])[0].get('content', {}).get('parts', [{}])[0].get('text', '')] *)
Definition text_of_result (res : pyval) : result pyval :=
  match py_get res lit_candidates (PList [PDict []]) with
  | Raise e => Raise e
  | Ok candidates =>
    match py_item0 candidates with
    | Raise e => Raise e
    | Ok candidate =>
      match py_get candidate lit_content (PDict []) with
      | Raise e => Raise e
      | Ok content =>
        match py_get content lit_parts (PList [PDict []]) with
        | Raise e => Raise e
        | Ok parts =>
          match py_item0 parts with
          | Raise e => Raise e
          | Ok part => py_get part lit_text (PStr [])
          end
        end
      end
    end
  end.

(** The [try] body of [analyze_with_gemini] up to [text_response]: the reply
    of the classifier service. *)
Definition classifier_reply (lib : library) (w : world)
    (job_details : job) (api_key : pystr) : M pystr :=
  t <- now ;;
  response <- lift (post_gemini w t api_key (prompt_of job_details)) ;;
  raise_for_status response ;;
  res <- response_json lib response ;;
  text_response <- lift (text_of_result res) ;;
  lift (py_as_str text_response).

Definition lit_ai_analysis : pystr := Eval cbv in str "AI Analysis for '".
Definition lit_quote_colon : pystr := Eval cbv in str "': ".

(** The line [f"AI Analysis for '{job_details.get('title')}': {text_response.strip()}"] *)
Definition analysis_line (job_details : job) (text_response : pystr) : pystr :=
  lit_ai_analysis ++ fmt (title job_details) ++ lit_quote_colon ++
  strip text_response.

Arguments analysis_line : simpl never.
Arguments stdout_encodes : simpl never.

(** [print(text)] *)
Definition print (lib : library) (text : pystr) : M unit :=
  if stdout_encodes lib text then ret tt else raise UnicodeEncodeError.

Definition analyze_with_gemini (lib : library) (w : world)
    (job_details : job) (api_key : pystr) : M bool :=
  emit (EvClassify job_details) ;;
  try_except
    (text_response <- classifier_reply lib w job_details api_key ;;
     print lib (analysis_line job_details text_response) ;;
     ret (str_contains YES (upper lib text_response)))
    is_RequestException
    (fun _ => ret false).

Definition lit_new_job : pystr := Eval cbv in str "New Fresher Job Found!".
Definition lit_no_new_jobs : pystr :=
  Eval cbv in str "No new relevant fresher jobs found in the last run.".
Definition lit_search_x : pystr := Eval cbv in str "search,x".
Definition lit_briefcase : pystr := Eval cbv in str "briefcase".

Definition send_ntfy_notification (w : world) (j : job) (ntfy_topic : pystr)
    (is_no_job_notification : bool) : M unit :=
  emit (EvNotify j is_no_job_notification) ;;
  request <-
    (if is_no_job_notification then
       ret {| ntfy_topic := ntfy_topic;
              ntfy_data := BodyStr lit_no_new_jobs;
              header_Title := title j;
              header_Click := link j;
              header_Tags := lit_search_x |}
     else
       match title j with
       | None => raise AttributeError
       | Some t =>
           body <- lift (encode_utf8 t) ;;
           ret {| ntfy_topic := ntfy_topic;
                  ntfy_data := BodyBytes body;
                  header_Title := Some lit_new_job;
                  header_Click := link j;
                  header_Tags := lit_briefcase |}
       end) ;;
  try_except
    (emit (EvNtfyPost request) ;;
     t <- now ;;
     lift (post_ntfy w t request))
    is_RequestException
    (fun _ => ret tt).

Definition quoted (s : string) : pystr := [34] ++ str s ++ [34].

Definition search_query : pystr :=
  Eval cbv in
    quoted "walk-in interview" ++ str " AND (" ++ quoted "fresher" ++
    str " OR " ++ quoted "2025 batch" ++ str ") AND " ++ quoted "developer" ++
    str " in Bangalore".

Definition google_url : pystr :=
  Eval cbv in str "https://www.google.com/search?q=" ++ search_query ++ str "&tbs=qdr:w".

Definition lit_url_q : pystr := Eval cbv in str "/url?q=".
Definition lit_google_com : pystr := Eval cbv in str "google.com".
Definition lit_no_title : pystr := Eval cbv in str "No Title Found".
Definition lit_job_search_complete : pystr := Eval cbv in str "Job Search Complete".
Definition lit_github : pystr := Eval cbv in str "https://github.com/".
Definition lit_actions : pystr := Eval cbv in str "/actions".

(** The loop over [soup.find_all('a', href=True)] that builds [links]. *)
Fixpoint collect_links (lib : library) (processed_jobs : pyval)
    (hrefs : list pystr) : result (list pystr) :=
  match hrefs with
  | [] => Ok []
  | href :: rest =>
      let continue (keep : option pystr) :=
        match collect_links lib processed_jobs rest, keep with
        | Ok links, Some url => Ok (url :: links)
        | r, _ => r
        end in
      if startswith href lit_url_q then
        match truthy (query_q lib href) with
        | Some url =>
            if negb (str_contains lit_google_com url) then
              match py_in url processed_jobs with
              | Ok false => continue (Some url)
              | Ok true => continue None
              | Raise e => Raise e
              end
            else continue None
        | None => continue None
        end
      else continue None
  end.

(** The first half of the [try] body for one link: the page is fetched and
    [job_details] is built. *)
Definition fetch_job_details (lib : library) (w : world) (link : pystr) : M job :=
  emit EvSleep ;;
  emit (EvFetch link) ;;
  t <- now ;;
  page_soup <- lift (get_page w t link) ;;
  let job_title :=
    match page_title page_soup with
    | Some s => s
    | None => Some lit_no_title
    end in
  hostname <- lift (urlparse_hostname lib link) ;;
  body_text <-
    match page_body_text page_soup with
    | Some txt => ret (join [32] (split_ws txt []))
    | None => raise AttributeError
    end ;;
  ret {| title := job_title; company := hostname;
         details := body_text; link := link |}.

(** The whole [try] body for one link; [true] when the link was appended to
    [new_jobs_found]. *)
Definition process_link (lib : library) (w : world) (api_key topic : pystr)
    (link : pystr) : M bool :=
  job_details <- fetch_job_details lib w link ;;
  verdict <- analyze_with_gemini lib w job_details api_key ;;
  if verdict then
    send_ntfy_notification w job_details topic false ;;
    ret true
  else ret false.

(** [try: ... except Exception as e: print(...)] around one link. *)
Definition try_link (lib : library) (w : world) (api_key topic : pystr)
    (link : pystr) : M bool :=
  try_except (process_link lib w api_key topic link)
             (fun _ => true) (fun _ => ret false).

(** [for link in links: ...], threading [new_jobs_found]. *)
Fixpoint for_each_link (lib : library) (w : world) (api_key topic : pystr)
    (links : list pystr) (new_jobs_found : list pystr) : M (list pystr) :=
  match links with
  | [] => ret new_jobs_found
  | link :: rest =>
      appended <- try_link lib w api_key topic link ;;
      for_each_link lib w api_key topic rest
        (if appended then new_jobs_found ++ [link] else new_jobs_found)
  end.

(** The final step of [main]. *)
Definition finalize (lib : library) (w : world) (topic repository_url : pystr)
    (processed_jobs : pyval) (new_jobs_found : list pystr) : M unit :=
  match new_jobs_found with
  | _ :: _ =>
      updated_processed_jobs <- lift (py_add processed_jobs new_jobs_found) ;;
      save_processed_jobs lib w updated_processed_jobs
  | [] =>
      let status_update :=
        {| title := Some lit_job_search_complete; company := None;
           details := []; link := repository_url ++ lit_actions |} in
      send_ntfy_notification w status_update topic true
  end.

(** [main] up to the end of the loop: the loaded list and [new_jobs_found]. *)
Definition search_and_process (lib : library) (w : world) (api_key topic : pystr)
  : M (pyval * list pystr) :=
  processed_jobs <- get_processed_jobs lib ;;
  _ <- lift (py_len processed_jobs) ;;
  emit (EvSearch google_url) ;;
  hrefs <- lift (search_hrefs w google_url) ;;
  links <- lift (collect_links lib processed_jobs hrefs) ;;
  new_jobs_found <- for_each_link lib w api_key topic links [] ;;
  ret (processed_jobs, new_jobs_found).

Definition main (lib : library) (w : world) (env : environ) : M unit :=
  let repository_url :=
    lit_github ++ match GITHUB_REPOSITORY env with Some r => r | None => [] end in
  match truthy (GEMINI_API_KEY env), truthy (NTFY_TOPIC env) with
  | Some api_key, Some topic =>
      r <- search_and_process lib w api_key topic ;;
      finalize lib w topic repository_url (fst r) (snd r)
  | _, _ => ret tt
  end.

(** A run starts with an empty trace. *)
Definition start (f : file_state) : state := {| trace := []; file := f |}.

(** ** Notions the properties are stated with *)

(** *** The host of a URL

    [urlsplit(url)] followed by the [hostname] property, for a URL the parser
    accepts: the scheme is cut at the first colon, the network location is
    what follows the two slashes up to the first slash, question mark or hash,
    user information ends at the last at-sign, the port starts at the first
    colon (or after a bracketed address), and the name is lower-cased. *)

Definition ascii_lower (c : N) : N :=
  if (65 <=? c) && (c <=? 90) then c + 32 else c.

Definition is_ascii_alpha (c : N) : bool :=
  ((65 <=? c) && (c <=? 90)) || ((97 <=? c) && (c <=? 122)).

Definition is_scheme_char (c : N) : bool :=
  is_ascii_alpha c || is_digit c || (c =? 43) || (c =? 45) || (c =? 46).

(** [s.partition(sep)]: the text before the first [sep] and, when [sep]
    occurs, the text after it. *)
Fixpoint partition_at (sep : N) (s : pystr) : pystr * option pystr :=
  match s with
  | [] => ([], None)
  | c :: r =>
      if c =? sep then ([], Some r)
      else let (before, after) := partition_at sep r in (c :: before, after)
  end.

(** Last component of [s.rpartition(sep)]. *)
Fixpoint after_last (sep : N) (s : pystr) : pystr :=
  match s with
  | [] => []
  | c :: r =>
      if existsb (N.eqb sep) r then after_last sep r
      else if c =? sep then r else s
  end.

Definition strip_scheme (url : pystr) : pystr :=
  match partition_at 58 url with
  | (c :: pre, Some rest) =>
      if is_ascii_alpha c && forallb is_scheme_char pre then rest else url
  | _ => url
  end.

Fixpoint take_netloc (s : pystr) : pystr :=
  match s with
  | [] => []
  | c :: r =>
      if (c =? 47) || (c =? 63) || (c =? 35) then [] else c :: take_netloc r
  end.

Definition netloc_of (url : pystr) : pystr :=
  match strip_scheme url with
  | 47 :: 47 :: r => take_netloc r
  | _ => []
  end.

Definition url_host (url : pystr) : option pystr :=
  let hostinfo := after_last 64 (netloc_of url) in
  let name :=
    match partition_at 91 hostinfo with
    | (_, Some bracketed) => fst (partition_at 93 bracketed)
    | (_, None) => fst (partition_at 58 hostinfo)
    end in
  match name with
  | [] => None
  | _ :: _ =>
      let (h, zone) := partition_at 37 name in
      Some (List.map ascii_lower h ++
            match zone with Some z => 37 :: z | None => [] end)
  end.

Definition endswith (s suffix : pystr) : bool :=
  startswith (rev s) (rev suffix).

Definition lit_dot_google_com : pystr := Eval cbv in str ".google.com".

(** The host is the search provider's: [google.com] or a subdomain of it. *)
Definition host_of_search_provider (url : pystr) : bool :=
  match url_host url with
  | Some h => str_eqb h lit_google_com || endswith h lit_dot_google_com
  | None => false
  end.

(** *** JSON text up to layout

    The text with the whitespace between tokens removed; whitespace inside a
    string literal is content and stays. *)
Fixpoint strip_layout (in_string : bool) (s : pystr) : pystr :=
  match s with
  | [] => []
  | c :: r =>
      if in_string then
        if c =? 92 then
          match r with
          | e :: r' => c :: e :: strip_layout true r'
          | [] => [c]
          end
        else c :: strip_layout (negb (c =? 34)) r
      else if is_json_ws c then strip_layout false r
      else c :: strip_layout (c =? 34) r
  end.

Definition same_up_to_layout (a b : pystr) : Prop :=
  strip_layout false a = strip_layout false b.

(** *** Code points and traces *)

(** A code point that is a Unicode scalar value, as every character of a
    decoded text is. *)
Definition is_scalar (c : N) : bool :=
  (c <? 1114112) && negb (is_surrogate c).

Definition scalar_str (s : pystr) : Prop := Forall (fun c => is_scalar c = true) s.

(** No high surrogate stands directly before a low surrogate.  The encoder
    writes such a pair of code points as two escapes, which the decoder
    reads as one code point above the basic plane. *)
Fixpoint no_split_pair (s : pystr) : Prop :=
  match s with
  | c :: r =>
      match r with
      | d :: _ => is_high_surrogate c && is_low_surrogate d = false
      | [] => True
      end /\ no_split_pair r
  | [] => True
  end.

(** A string that is read back as it was written: code points of Unicode
    without a split pair.  Every string the decoder returns for a decoded
    text is one, and so is every string of scalar values. *)
Definition rereadable (s : pystr) : Prop :=
  Forall (fun c => c < 1114112) s /\ no_split_pair s.

(** ASCII letter [c] is the capital [cap] or its small form. *)
Definition any_case (cap c : N) : Prop := c = cap \/ c = cap + 32.

Definition is_status_notification (ev : event) : bool :=
  match ev with EvNotify _ true => true | _ => false end.

Definition is_job_notification (ev : event) : bool :=
  match ev with EvNotify _ false => true | _ => false end.

Definition is_ntfy_post (ev : event) : bool :=
  match ev with EvNtfyPost _ => true | _ => false end.

Definition is_save (ev : event) : bool :=
  match ev with EvSave _ => true | _ => false end.

Definition count (p : event -> bool) (tr : list event) : nat :=
  List.length (filter p tr).

(** The state after more external calls. *)
Definition after (st : state) (evs : list event) : state :=
  {| trace := trace st ++ evs; file := file st |}.

(** The classifier call fails at the transport or HTTP level: [requests]
    raises one of its own exceptions, or the status is a 4xx or 5xx. *)
Definition transport_or_http_failure (o : result response) : Prop :=
  match o with
  | Raise (RequestException _) => True
  | Raise _ => False
  | Ok r => 400 <= status_code r < 600
  end.

Definition lit_NO : pystr := Eval cbv in str "NO".

(** [reply] holds the word YES, each letter in either case. *)
Definition contains_yes_any_case (reply : pystr) : Prop :=
  exists pre y e s post,
    reply = pre ++ [y; e; s] ++ post /\
    any_case 89 y /\ any_case 69 e /\ any_case 83 s.

(** The job record built for [link] from its page, the host name of the link
    and the text of the page body. *)
Definition job_record (link : pystr) (pg : page) (h : option pystr) (txt : pystr)
  : job :=
  {| title := match page_title pg with
              | Some s => s
              | None => Some lit_no_title
              end;
     company := h;
     details := join [32] (split_ws txt []);
     link := link |}.

(** The fetch of [link], begun after [n] external calls, gives [j]: the
    request returns a page with a body and the link has a host name. *)
Definition fetch_gives (lib : library) (w : world) (link : pystr) (n : nat)
    (j : job) : Prop :=
  exists pg h txt,
    get_page w (n + 2) link = Ok pg /\ urlparse_hostname lib link = Ok h /\
    page_body_text pg = Some txt /\ j = job_record link pg h txt.

(** The fetch of [link], begun after [n] external calls, gives no job
    record: the request raises, the parser refuses the link, or the page has
    no body. *)
Definition fetch_fails (lib : library) (w : world) (link : pystr) (n : nat)
  : Prop :=
  match get_page w (n + 2) link with
  | Raise _ => True
  | Ok pg =>
      match urlparse_hostname lib link with
      | Raise _ => True
      | Ok _ => page_body_text pg = None
      end
  end.

(** A failure of the fetch or of the classifier for [link], met in state
    [st]; [evs] are the calls made up to the failure. *)
Inductive link_failure (lib : library) (w : world) (api_key : pystr)
    (link : pystr) (st : state) : list event -> Prop :=
| fetch_failure :
    fetch_fails lib w link (List.length (trace st)) ->
    link_failure lib w api_key link st [EvSleep; EvFetch link]
| classify_failure j e st2 :
    fetch_gives lib w link (List.length (trace st)) j ->
    analyze_with_gemini lib w j api_key (after st [EvSleep; EvFetch link])
    = (Raise e, st2) ->
    link_failure lib w api_key link st [EvSleep; EvFetch link; EvClassify j].

(** The errors of the decoder. *)
Definition decoder_error (e : exn) : Prop :=
  e = JSONDecodeError \/ e = ValueError \/ e = RecursionError.

(** *** Reasoning about runs *)

(** [m] only appends events that satisfy [P], and leaves the file alone. *)
Definition emits {A} (P : event -> Prop) (m : M A) : Prop :=
  forall st, exists evs, snd (m st) = after st evs /\ Forall P evs.

(** The events of one loop iteration for [u]. *)
Definition link_event (u : pystr) (ev : event) : Prop :=
  match ev with
  | EvSleep => True
  | EvFetch u' => u' = u
  | EvClassify j => link j = u
  | EvNotify j b => b = false /\ link j = u
  | EvNtfyPost _ => True
  | _ => False
  end.

(** Events that do not fetch or classify a link of the loaded list. *)
Definition not_about (items : list pyval) (ev : event) : Prop :=
  match ev with
  | EvFetch u => ~ In (PStr u) items
  | EvClassify j => ~ In (PStr (link j)) items
  | _ => True
  end.

(** The decoder's step for one decoded code point. *)
Definition scan_cons (c : N) (r : option (pystr * pystr)) : option (pystr * pystr) :=
  match r with Some (x, rest) => Some (c :: x, rest) | None => None end.

(** The separator between the items of a saved list: a comma, a line feed
    and the indentation of depth one. *)
Definition item_separator : pystr := [44; 10; 32; 32].

(** *** Further notions *)

(** The value of an environment variable is missing or empty. *)
Definition unset (o : option pystr) : Prop := o = None \/ o = Some [].

(** The links fetched, in the order of the calls. *)
Definition fetched_urls (tr : list event) : list pystr :=
  flat_map (fun ev => match ev with EvFetch u => [u] | _ => [] end) tr.

Definition is_sleep (ev : event) : bool :=
  match ev with EvSleep => true | _ => false end.

(** Every page fetch in [tr] comes directly after a pause; [slept] tells
    whether the event before [tr] was a pause. *)
Fixpoint paused (slept : bool) (tr : list event) : bool :=
  match tr with
  | [] => true
  | EvFetch _ :: rest => slept && paused false rest
  | EvSleep :: rest => paused true rest
  | _ :: rest => paused false rest
  end.

Definition pause_before_each_fetch (tr : list event) : Prop :=
  paused false tr = true.

(** Whether the last event so far was a pause. *)
Definition slept_after (slept : bool) (tr : list event) : bool :=
  fold_left (fun _ ev => is_sleep ev) tr slept.

(** The events of one loop iteration that follow the fetch. *)
Definition follows_fetch (ev : event) : Prop :=
  match ev with
  | EvClassify _ | EvNotify _ false | EvNtfyPost _ => True
  | _ => False
  end.

(** [" ".join(text.split())] *)
Definition normalize_ws (txt : pystr) : pystr := join [32] (split_ws txt []).

(** [v] is a dict without the key [key]. *)
Definition dict_without (key : pystr) (v : pyval) : Prop :=
  exists d, v = PDict d /\ dict_lookup d key = None.

(** The reply JSON lacks the text on the path
    [candidates[0].content.parts[0].text] because a key is missing. *)
Definition text_key_missing (res : pyval) : Prop :=
  dict_without lit_candidates res \/
  (exists d c more,
      res = PDict d /\ dict_lookup d lit_candidates = Some (PList (c :: more)) /\
      (dict_without lit_content c \/
       exists dc content,
         c = PDict dc /\ dict_lookup dc lit_content = Some content /\
         (dict_without lit_parts content \/
          exists dp p more',
            content = PDict dp /\
            dict_lookup dp lit_parts = Some (PList (p :: more')) /\
            dict_without lit_text p))).

(** The click target of the status notification. *)
Definition actions_url (env : environ) : pystr :=
  lit_github ++ match GITHUB_REPOSITORY env with Some r => r | None => [] end
  ++ lit_actions.

(** The request of the notification for an accepted job. *)
Definition job_notification (topic : pystr) (j : job) (body : list N)
  : ntfy_request :=
  {| ntfy_topic := topic;
     ntfy_data := BodyBytes body;
     header_Title := Some lit_new_job;
     header_Click := link j;
     header_Tags := lit_briefcase |}.

(** The request of the status notification. *)
Definition status_notification (topic : pystr) (env : environ) : ntfy_request :=
  {| ntfy_topic := topic;
     ntfy_data := BodyStr lit_no_new_jobs;
     header_Title := Some lit_job_search_complete;
     header_Click := actions_url env;
     header_Tags := lit_search_x |}.

(** A word of [str.split()]: not empty and free of whitespace. *)
Definition is_word (w : pystr) : Prop :=
  w <> [] /\ Forall (fun c => is_space c = false) w.

(** A request to the notification service as the script builds them. *)
Definition script_request (topic : pystr) (env : environ) (r : ntfy_request)
  : Prop :=
  (exists j t body,
      title j = Some t /\ encode_utf8 t = Ok body /\
      r = job_notification topic j body) \/
  r = status_notification topic env.

Definition posts_only (topic : pystr) (env : environ) (ev : event) : Prop :=
  match ev with
  | EvNtfyPost r => script_request topic env r
  | _ => True
  end.

(** ** Sample libraries, worlds and files *)

Module Examples.

Fixpoint until_amp (s : pystr) : pystr :=
  match s with
  | [] => []
  | c :: r => if c =? 38 then [] else c :: until_amp r
  end.

(** The limits of an interpreter as installed: integers of up to 4300
    digits, a thousand frames of which some are in use. *)
Definition limits0 : limits :=
  {| int_max_str_digits := 4300; nesting_limit := 990 |}.

(** A library: standard output as on the runner, identity case mapping
    outside ASCII, numbers written as read, current [requests]. *)
Definition lib0 : library :=
  {| stdout_errors := SurrogateEscape;
     load_limits := limits0;
     reply_limits := limits0;
     unicode_upper := fun c => [c];
     number_repr := fun s => s;
     requests_version := Requests_since_2_27;
     urlparse_hostname := fun u => Ok (url_host u);
     query_q := fun href => Some (until_amp (skipn 7 href)) |}.

Definition lib_old : library :=
  {| stdout_errors := SurrogateEscape;
     load_limits := limits0;
     reply_limits := limits0;
     unicode_upper := fun c => [c];
     number_repr := fun s => s;
     requests_version := Requests_before_2_27;
     urlparse_hostname := fun u => Ok (url_host u);
     query_q := fun href => Some (until_amp (skipn 7 href)) |}.

Definition env0 : environ :=
  {| GEMINI_API_KEY := Some (str "key");
     NTFY_TOPIC := Some (str "topic");
     GITHUB_REPOSITORY := Some (str "owner/repo") |}.

Definition key0 : pystr := Eval cbv in str "key".
Definition topic0 : pystr := Eval cbv in str "topic".

Definition job1 : pystr := Eval cbv in str "https://a.com/job1".
Definition job2 : pystr := Eval cbv in str "https://b.com/job2".
Definition job3 : pystr := Eval cbv in str "https://c.com/job3".

Definition href_of (url : pystr) : pystr := lit_url_q ++ url ++ str "&sa=U".

Definition page0 : page :=
  {| page_title := Some (Some (str "Walk-in for freshers"));
     page_body_text := Some (str "  Software   developer, Bengaluru ") |}.

(** The classifier's answer with [reply] as its text. *)
Definition gemini_body (reply : pystr) : pystr :=
  str "{" ++ quoted "candidates" ++ str ": [{" ++ quoted "content" ++
  str ": {" ++ quoted "parts" ++ str ": [{" ++ quoted "text" ++ str ": " ++
  encode_basestring_ascii reply ++ str "}]}}]}".

Definition lit_yes_matches : pystr := Eval cbv in str "Yes, this matches".

(** The search finds [hrefs], every page is [page0], the classifier
    answers [body] with status [status]. *)
Definition world_of (hrefs : list pystr) (status : N) (body : pystr) : world :=
  {| open_write := fun _ => Ok tt;
     search_hrefs := fun _ => Ok hrefs;
     get_page := fun _ _ => Ok page0;
     post_gemini := fun _ _ _ => Ok {| status_code := status; text := body |};
     post_ntfy := fun _ _ => Ok tt |}.

Definition world_yes : world :=
  world_of [href_of job1; href_of job2] 200 (gemini_body lit_yes_matches).

Definition world_no : world :=
  world_of [href_of job1; href_of job2] 200 (gemini_body lit_NO).

(** The same new link twice in the search page. *)
Definition world_twice : world :=
  world_of [href_of job2; href_of job2] 200 (gemini_body lit_yes_matches).

(** The page of [job2] cannot be fetched; everything else as [world_yes]. *)
Definition world_job2_down : world :=
  {| open_write := fun _ => Ok tt;
     search_hrefs := fun _ => Ok [href_of job2; href_of job3];
     get_page := fun _ u =>
       if str_eqb u job2 then Raise (RequestException ConnectionError)
       else Ok page0;
     post_gemini := fun _ _ _ =>
       Ok {| status_code := 200; text := gemini_body lit_yes_matches |};
     post_ntfy := fun _ _ => Ok tt |}.

(** The classifier service cannot be reached. *)
Definition world_gemini_down : world :=
  {| open_write := fun _ => Ok tt;
     search_hrefs := fun _ => Ok [href_of job2];
     get_page := fun _ _ => Ok page0;
     post_gemini := fun _ _ _ => Raise (RequestException Timeout);
     post_ntfy := fun _ _ => Ok tt |}.

Definition world_not_json : world :=
  world_of [href_of job2] 200 (str "<html>Service unavailable</html>").

Definition world_no_candidates : world :=
  world_of [href_of job2] 200 (str "{" ++ quoted "candidates" ++ str ": []}").

(** [job_details] built from [page0] for [job2]. *)
Definition job2_details : job :=
  {| title := Some (str "Walk-in for freshers");
     company := Some (str "b.com");
     details := str "Software developer, Bengaluru";
     link := job2 |}.

(** [job_details] built from [page0] for [job3]. *)
Definition job3_details : job :=
  {| title := Some (str "Walk-in for freshers");
     company := Some (str "c.com");
     details := str "Software developer, Bengaluru";
     link := job3 |}.

Definition dumps0 (l : list pystr) : pystr :=
  json_dumps (number_repr lib0) (PList (List.map PStr l)).

(** The state file after a run that accepted [job1]. *)
Definition text1 : pystr := Eval cbv in dumps0 [job1].
Definition file1 : file_state := FileText text1.

(** The same list written with escaped slashes and on one line. *)
Definition text_escaped : pystr :=
  Eval cbv in [91; 34] ++ str "https:\/\/a.com\/job1" ++ [34; 93].

Definition upper_host_url : pystr := Eval cbv in str "https://WWW.GOOGLE.COM/jobs".

(** A list with one string, written as the escape of an unpaired surrogate. *)
Definition text_lone_surrogate : pystr :=
  Eval cbv in [91; 34] ++ str "\ud800" ++ [34; 93].

(** The state file may not be written; everything else as [world_yes]. *)
Definition world_read_only : world :=
  {| open_write := fun _ => Raise PermissionError;
     search_hrefs := fun _ => Ok [href_of job1; href_of job2];
     get_page := fun _ _ => Ok page0;
     post_gemini := fun _ _ _ =>
       Ok {| status_code := 200; text := gemini_body lit_yes_matches |};
     post_ntfy := fun _ _ => Ok tt |}.

(** No notification topic in the environment. *)
Definition env_no_topic : environ :=
  {| GEMINI_API_KEY := Some (str "key");
     NTFY_TOPIC := None;
     GITHUB_REPOSITORY := Some (str "owner/repo") |}.

(** The search request cannot be sent. *)
Definition world_search_down : world :=
  {| open_write := fun _ => Ok tt;
     search_hrefs := fun _ => Raise (RequestException ConnectionError);
     get_page := fun _ _ => Ok page0;
     post_gemini := fun _ _ _ =>
       Ok {| status_code := 200; text := gemini_body lit_yes_matches |};
     post_ntfy := fun _ _ => Ok tt |}.

(** The notification service cannot be reached. *)
Definition world_ntfy_down : world :=
  {| open_write := fun _ => Ok tt;
     search_hrefs := fun _ => Ok [href_of job2];
     get_page := fun _ _ => Ok page0;
     post_gemini := fun _ _ _ =>
       Ok {| status_code := 200; text := gemini_body lit_yes_matches |};
     post_ntfy := fun _ _ => Raise (RequestException ConnectionError) |}.

(** A page whose title element holds no single string. *)
Definition page_untitled : page :=
  {| page_title := Some None;
     page_body_text := Some (str "Software developer, Bengaluru") |}.

Definition world_untitled : world :=
  {| open_write := fun _ => Ok tt;
     search_hrefs := fun _ => Ok [href_of job2];
     get_page := fun _ _ => Ok page_untitled;
     post_gemini := fun _ _ _ =>
       Ok {| status_code := 200; text := gemini_body lit_yes_matches |};
     post_ntfy := fun _ _ => Ok tt |}.

Definition job2_untitled : job :=
  {| title := None;
     company := Some (str "b.com");
     details := str "Software developer, Bengaluru";
     link := job2 |}.

(** A state file that holds a JSON object. *)
Definition file_object : file_state := FileText (str "{}").

(** A state file that holds the JSON value null. *)
Definition file_null : file_state := FileText (str "null").

(** A reply of the classifier service without candidates. *)
Definition world_empty_object : world :=
  world_of [href_of job2] 200 (str "{}").

(** A job record whose title holds an unpaired surrogate, as a page gives it
    that writes the character reference of U+D800 in its title. *)
Definition job_surrogate_title : job :=
  {| title := Some (55296 :: str " jobs");
     company := Some (str "b.com");
     details := str "Software developer, Bengaluru";
     link := job2 |}.

(** A reply that starts with an unpaired surrogate: the code point U+D800,
    a space and the word YES. *)
Definition reply_surrogate_yes : pystr := Eval cbv in 55296 :: str " YES".

Definition world_surrogate_yes : world :=
  world_of [href_of job2] 200 (gemini_body reply_surrogate_yes).

End Examples.

(** * Properties *)

(** ** Strings *)

Example loads1 :
  json_loads Examples.limits0
    ([91; 34] ++ str "a" ++ [34; 44; 32; 34] ++ str "b\/c" ++ [34; 32; 93])
  = Ok (PList [PStr (str "a"); PStr (str "b/c")]).
Proof. vm_compute. reflexivity. Qed.

Lemma str_eqb_eq (a b : pystr) : str_eqb a b = true <-> a = b.
Proof.
  revert b; induction a as [|x a IH]; intros [|y b]; simpl; split;
    try congruence; try reflexivity.
  - rewrite andb_true_iff, N.eqb_eq, IH. intros [-> ->]; reflexivity.
  - intros H; injection H as -> ->. now rewrite N.eqb_refl, (proj2 (IH b)).
Qed.

Lemma str_eqb_refl (a : pystr) : str_eqb a a = true.
Proof. now apply str_eqb_eq. Qed.

Lemma str_eqb_neq (a b : pystr) : str_eqb a b = false <-> a <> b.
Proof.
  split.
  - intros H E. apply str_eqb_eq in E. congruence.
  - intros H. destruct (str_eqb a b) eqn:E; [|reflexivity].
    apply str_eqb_eq in E. contradiction.
Qed.

Lemma startswith_spec (s p : pystr) :
  startswith s p = true <-> exists r, s = p ++ r.
Proof.
  revert s; induction p as [|x p IH]; intros s; simpl.
  - split; [intros _; now exists s | reflexivity].
  - destruct s as [|y s].
    + split; [discriminate | intros [r H]; discriminate].
    + rewrite andb_true_iff, N.eqb_eq, IH. split.
      * intros [-> [r ->]]. now exists r.
      * intros [r H]. injection H as -> ->. split; [reflexivity | now exists r].
Qed.

Lemma str_contains_spec (needle hay : pystr) :
  str_contains needle hay = true <->
  exists pre post, hay = pre ++ needle ++ post.
Proof.
  induction hay as [|c hay IH].
  - simpl. rewrite orb_false_r, startswith_spec. split.
    + intros [r H]. exists [], r. exact H.
    + intros [pre [post H]]. destruct pre; simpl in H.
      * now exists post.
      * discriminate.
  - cbn [str_contains]. rewrite orb_true_iff, startswith_spec, IH. split.
    + intros [[r H] | [pre [post H]]].
      * exists [], r. exact H.
      * exists (c :: pre), post. now rewrite H.
    + intros [[|x pre] [post H]].
      * left. now exists post.
      * right. injection H as -> ->. now exists pre, post.
Qed.

Lemma upper_app (lib : library) (a b : pystr) :
  upper lib (a ++ b) = upper lib a ++ upper lib b.
Proof. unfold upper, upper_with. apply flat_map_app. Qed.

Lemma upper_any_case_YES (lib : library) (y e s : N) :
  any_case 89 y -> any_case 69 e -> any_case 83 s ->
  upper lib [y; e; s] = YES.
Proof.
  unfold any_case. intros [-> | ->] [-> | ->] [-> | ->]; reflexivity.
Qed.

(** ** The monad *)

Lemma after_nil (st : state) : after st [] = st.
Proof. destruct st; unfold after; simpl. now rewrite app_nil_r. Qed.

Lemma after_after (st : state) (a b : list event) :
  after (after st a) b = after st (a ++ b).
Proof. unfold after; simpl. now rewrite app_assoc. Qed.

Lemma emits_weaken {A} (P Q : event -> Prop) (m : M A) :
  (forall ev, P ev -> Q ev) -> emits P m -> emits Q m.
Proof.
  intros HPQ Hm st. destruct (Hm st) as [evs [E F]].
  exists evs. split; [exact E|]. eapply Forall_impl; eauto.
Qed.

Lemma emits_ret {A} P (a : A) : emits P (ret a).
Proof. intros st. exists []. simpl. now rewrite after_nil. Qed.

Lemma emits_raise {A} P e : emits P (@raise A e).
Proof. intros st. exists []. simpl. now rewrite after_nil. Qed.

Lemma emits_lift {A} P (r : result A) : emits P (lift r).
Proof. intros st. exists []. simpl. now rewrite after_nil. Qed.

Lemma emits_now P : emits P now.
Proof. intros st. exists []. simpl. now rewrite after_nil. Qed.

Lemma emits_emit (P : event -> Prop) ev : P ev -> emits P (emit ev).
Proof. intros H st. exists [ev]. simpl. split; [reflexivity | now constructor]. Qed.

Lemma emits_bind {A B} P (m : M A) (k : A -> M B) :
  emits P m -> (forall a, emits P (k a)) -> emits P (bind m k).
Proof.
  intros Hm Hk st. unfold bind.
  destruct (Hm st) as [evs [E F]]. destruct (m st) as [[a | e] st1]; simpl in E.
  - destruct (Hk a st1) as [evs' [E' F']]. exists (evs ++ evs'). split.
    + rewrite E', E. apply after_after.
    + now apply Forall_app.
  - exists evs. now split.
Qed.

Lemma emits_try_except {A} P (m : M A) catches handler :
  emits P m -> (forall e, emits P (handler e)) ->
  emits P (try_except m catches handler).
Proof.
  intros Hm Hh st. unfold try_except.
  destruct (Hm st) as [evs [E F]]. destruct (m st) as [[a | e] st1]; simpl in E.
  - exists evs. now split.
  - destruct (catches e).
    + destruct (Hh e st1) as [evs' [E' F']]. exists (evs ++ evs'). split.
      * rewrite E', E. apply after_after.
      * now apply Forall_app.
    + exists evs. now split.
Qed.

Lemma emits_read_file P : emits P read_file.
Proof.
  intros st. exists []. rewrite after_nil. split; [|constructor].
  unfold read_file. now destruct (file st).
Qed.

Create HintDb emits.
#[local] Hint Resolve emits_ret emits_raise emits_lift emits_now emits_read_file : emits.

Ltac emits_step :=
  first [ apply emits_bind; [| intros ?]
        | apply emits_try_except; [| intros ?]
        | apply emits_emit
        | solve [auto with emits] ].

(** ** What each function of the script does to the state *)

Ltac break_match :=
  match goal with
  | |- context [match ?x with _ => _ end] => destruct x eqn:?
  end.

Lemma emits_nothing {A} (m : M A) :
  emits (fun _ => False) m -> forall st, snd (m st) = st.
Proof.
  intros H st. destruct (H st) as [evs [E F]].
  destruct evs as [|ev evs]; [now rewrite after_nil in E|].
  inversion F; contradiction.
Qed.

Lemma emits_raise_for_status P r : emits P (raise_for_status r).
Proof. unfold raise_for_status. destruct (_ && _); auto with emits. Qed.

Lemma emits_response_json P lib r : emits P (response_json lib r).
Proof.
  unfold response_json.
  destruct (json_loads _ _) as [v|e]; [|destruct e]; auto with emits.
Qed.

Lemma emits_print P lib text : emits P (print lib text).
Proof. unfold print. destruct (stdout_encodes lib text); auto with emits. Qed.

#[local] Hint Resolve emits_raise_for_status emits_response_json emits_print : emits.

Lemma classifier_reply_silent lib w j k st :
  snd (classifier_reply lib w j k st) = st.
Proof.
  apply emits_nothing. unfold classifier_reply. repeat emits_step.
Qed.

Lemma fetch_job_details_state lib w u st :
  snd (fetch_job_details lib w u st) = after st [EvSleep; EvFetch u].
Proof.
  unfold fetch_job_details, bind, emit, now, lift, ret, raise, after; simpl.
  rewrite <- app_assoc; simpl.
  destruct (get_page w _ u) as [pg|]; [|reflexivity].
  destruct (urlparse_hostname lib u); [|reflexivity].
  destruct (page_body_text pg); reflexivity.
Qed.

(** [analyze_with_gemini] in terms of the classifier's reply. *)
Lemma analyze_with_gemini_run lib w j k st :
  analyze_with_gemini lib w j k st =
  (match fst (classifier_reply lib w j k (after st [EvClassify j])) with
   | Ok reply =>
       if stdout_encodes lib (analysis_line j reply)
       then Ok (str_contains YES (upper lib reply))
       else Raise UnicodeEncodeError
   | Raise e => if is_RequestException e then Ok false else Raise e
   end, after st [EvClassify j]).
Proof.
  unfold analyze_with_gemini, bind at 1, emit, try_except, bind at 1.
  change {| trace := trace st ++ [EvClassify j]; file := file st |}
    with (after st [EvClassify j]).
  pose proof (classifier_reply_silent lib w j k (after st [EvClassify j])) as S.
  destruct (classifier_reply lib w j k (after st [EvClassify j])) as [[reply | e] st1];
    simpl in S; subst st1; cbn [fst].
  - unfold bind, print.
    now destruct (stdout_encodes lib (analysis_line j reply)).
  - now destruct (is_RequestException e).
Qed.

Lemma emits_send_ntfy_notification w j topic b :
  emits (fun ev => ev = EvNotify j b \/ is_ntfy_post ev = true)
        (send_ntfy_notification w j topic b).
Proof.
  unfold send_ntfy_notification.
  repeat emits_step.
  destruct b; [auto with emits|].
  destruct (title j); [|auto with emits]. repeat emits_step.
Qed.

Lemma send_ntfy_notification_state w j topic b st :
  exists evs,
    snd (send_ntfy_notification w j topic b st) = after st (EvNotify j b :: evs) /\
    Forall (fun ev => is_ntfy_post ev = true) evs.
Proof.
  unfold send_ntfy_notification, bind at 1, emit.
  match goal with
  | |- context [bind ?m ?k] =>
      assert (emits (fun ev => is_ntfy_post ev = true) (bind m k)) as H
  end.
  { repeat emits_step.
    destruct b; [auto with emits|].
    destruct (title j); [|auto with emits]. repeat emits_step. }
  destruct (H (after st [EvNotify j b])) as [evs [E F]].
  exists evs. split; [|exact F].
  change {| trace := trace st ++ [EvNotify j b]; file := file st |}
    with (after st [EvNotify j b]).
  rewrite E, after_after. reflexivity.
Qed.

Lemma fetch_job_details_link lib w u st j st1 :
  fetch_job_details lib w u st = (Ok j, st1) -> link j = u.
Proof.
  unfold fetch_job_details, bind, emit, now, lift, ret, raise; simpl.
  destruct (get_page w _ u) as [pg|]; [|discriminate].
  destruct (urlparse_hostname lib u); [|discriminate].
  destruct (page_body_text pg); [|discriminate].
  intros H; injection H as <- _; reflexivity.
Qed.

Lemma emits_process_link lib w k topic u :
  emits (link_event u) (process_link lib w k topic u).
Proof.
  intros st. unfold process_link, bind at 1.
  pose proof (fetch_job_details_state lib w u st) as S.
  destruct (fetch_job_details lib w u st) as [[j | e] st1] eqn:F; simpl in S; subst st1.
  - apply fetch_job_details_link in F.
    unfold bind at 1. rewrite analyze_with_gemini_run.
    assert (Forall (link_event u) [EvSleep; EvFetch u; EvClassify j]) as F3
      by (repeat constructor; assumption).
    destruct (match fst (classifier_reply lib w j k _) with
              | Ok _ => _ | Raise _ => _ end) as [[|] | e].
    + destruct (emits_send_ntfy_notification w j topic false
                  (after (after st [EvSleep; EvFetch u]) [EvClassify j]))
        as [evs [E Fevs]].
      unfold bind. destruct (send_ntfy_notification _ _ _ _ _) as [[[]|e] st2];
        simpl in E; subst st2.
      all: exists ([EvSleep; EvFetch u; EvClassify j] ++ evs); cbn [snd];
        rewrite !after_after; split; [reflexivity|];
        apply Forall_app; split; [exact F3|];
        eapply Forall_impl; [|exact Fevs]; simpl;
        intros ev [-> | H]; simpl; [now split | now destruct ev].
    + exists [EvSleep; EvFetch u; EvClassify j]. simpl.
      rewrite after_after. now split.
    + exists [EvSleep; EvFetch u; EvClassify j]. simpl.
      rewrite after_after. now split.
  - exists [EvSleep; EvFetch u]. simpl. split; [reflexivity|].
    repeat constructor.
Qed.

Lemma try_link_ok lib w k topic u st :
  exists appended, fst (try_link lib w k topic u st) = Ok appended.
Proof.
  unfold try_link, try_except.
  destruct (process_link lib w k topic u st) as [[a | e] st1]; simpl; eauto.
Qed.

Lemma emits_try_link lib w k topic u :
  emits (link_event u) (try_link lib w k topic u).
Proof.
  unfold try_link. apply emits_try_except.
  - apply emits_process_link.
  - intros e. apply emits_ret.
Qed.

(** The loop never raises: every per-link exception is caught. *)
Lemma for_each_link_ok lib w k topic links :
  forall acc st, exists new,
    fst (for_each_link lib w k topic links acc st) = Ok new.
Proof.
  induction links as [|u rest IH]; intros acc st; simpl.
  - now exists acc.
  - unfold bind. destruct (try_link_ok lib w k topic u st) as [a Ha].
    destruct (try_link lib w k topic u st) as [r st1]; simpl in Ha; subst r.
    apply IH.
Qed.

Lemma emits_for_each_link lib w k topic links :
  forall acc,
    emits (fun ev => exists u, In u links /\ link_event u ev)
          (for_each_link lib w k topic links acc).
Proof.
  induction links as [|u rest IH]; intros acc; simpl.
  - apply emits_ret.
  - apply emits_bind.
    + eapply emits_weaken; [|apply emits_try_link].
      intros ev H. exists u. split; [now left | exact H].
    + intros a. eapply emits_weaken; [|apply IH].
      intros ev [u' [Hin H]]. exists u'. split; [now right | exact H].
Qed.

(** ** The classifier *)

(** C5.  For every job record, when the classifier call fails at the
    transport or HTTP level ([requests.post] raises a [RequestException], or
    [raise_for_status] finds a 4xx or 5xx status), [analyze_with_gemini]
    returns [False] and raises nothing. *)
Theorem classify_fails_closed lib w (j : job) k st :
  transport_or_http_failure
    (post_gemini w (List.length (trace (after st [EvClassify j]))) k (prompt_of j)) ->
  analyze_with_gemini lib w j k st = (Ok false, after st [EvClassify j]).
Proof.
  intros H. rewrite analyze_with_gemini_run. f_equal.
  unfold classifier_reply, bind, now, lift.
  destruct (post_gemini w _ k (prompt_of j)) as [r | e]; simpl in H |- *.
  - unfold raise_for_status.
    destruct H as [H1 H2]. apply N.leb_le in H1. apply N.ltb_lt in H2.
    rewrite H1, H2. reflexivity.
  - destruct e; try contradiction. reflexivity.
Qed.

Lemma classify_fails_closed_witness :
  analyze_with_gemini Examples.lib0 Examples.world_gemini_down
    {| title := None; company := None; details := []; link := Examples.job2 |}
    Examples.key0 (start FileAbsent)
  = (Ok false,
     after (start FileAbsent)
       [EvClassify {| title := None; company := None; details := [];
                      link := Examples.job2 |}]).
Proof. apply classify_fails_closed. exact I. Defined.

Lemma process_link_run lib w k topic u st j st1 :
  fetch_job_details lib w u st = (Ok j, st1) ->
  process_link lib w k topic u st =
  match fst (analyze_with_gemini lib w j k (after st [EvSleep; EvFetch u])) with
  | Ok true =>
      (send_ntfy_notification w j topic false ;; ret true)
        (after st [EvSleep; EvFetch u; EvClassify j])
  | Ok false => (Ok false, after st [EvSleep; EvFetch u; EvClassify j])
  | Raise e => (Raise e, after st [EvSleep; EvFetch u; EvClassify j])
  end.
Proof.
  intros F. pose proof (fetch_job_details_state lib w u st) as S.
  rewrite F in S; simpl in S; subst st1.
  unfold process_link, bind at 1. rewrite F. unfold bind at 1.
  rewrite analyze_with_gemini_run, after_after. cbn [fst app].
  now destruct (match fst (classifier_reply lib w j k _) with
                | Ok _ => _ | Raise _ => _ end) as [[|] | e].
Qed.

Lemma try_link_run lib w k topic u st :
  try_link lib w k topic u st =
  match process_link lib w k topic u st with
  | (Ok a, st1) => (Ok a, st1)
  | (Raise _, st1) => (Ok false, st1)
  end.
Proof.
  unfold try_link, try_except.
  now destruct (process_link lib w k topic u st) as [[a | e] st1].
Qed.

Lemma str_contains_middle (n pre post : pystr) :
  str_contains n (pre ++ n ++ post) = true.
Proof. apply str_contains_spec. now exists pre, post. Qed.



(** C1, as stated, fails: the reply is an unpaired surrogate followed by the
    word YES.  Its upper-cased text contains YES, yet [analyze_with_gemini]
    gives no verdict: printing the reply raises [UnicodeEncodeError], and the
    loop body ends without a call of the job notification. *)
Lemma surrogate_reply_with_YES_is_not_notified :
  let st := after (start FileAbsent) [EvSleep; EvFetch Examples.job2] in
  let j := Examples.job2_details in
  classifier_reply Examples.lib0 Examples.world_surrogate_yes j Examples.key0
    (after st [EvClassify j])
  = (Ok Examples.reply_surrogate_yes, after st [EvClassify j]) /\
  upper Examples.lib0 Examples.reply_surrogate_yes = [55296; 32] ++ YES ++ [] /\
  analyze_with_gemini Examples.lib0 Examples.world_surrogate_yes j Examples.key0 st
  = (Raise UnicodeEncodeError, after st [EvClassify j]) /\
  process_link Examples.lib0 Examples.world_surrogate_yes Examples.key0
    Examples.topic0 Examples.job2 (start FileAbsent)
  = (Raise UnicodeEncodeError, after st [EvClassify j]) /\
  ~ In (EvNotify j false) (trace (after st [EvClassify j])).
Proof.
  intros st j.
  split; [vm_compute; reflexivity|].
  split; [vm_compute; reflexivity|].
  split; [vm_compute; reflexivity|].
  split; [vm_compute; reflexivity|].
  simpl. intros [H | [H | [H | []]]]; discriminate H.
Qed.

(** ** The state file *)

Ltac decoder_cases :=
  repeat match goal with
  | |- (if ?b then _ else _) = _ -> _ => destruct b
  | |- match ?x with _ => _ end = _ -> _ => destruct x eqn:?
  end.

(** The decoder raises nothing but its three errors. *)
Lemma scan_raises d fuel :
  forall depth s e,
    (scan_once d fuel depth s = Raise e -> decoder_error e) /\
    (array_items d fuel depth s = Raise e -> decoder_error e) /\
    (object_items d fuel depth s = Raise e -> decoder_error e).
Proof.
  unfold decoder_error.
  induction fuel as [|fuel IH]; intros depth s e.
  - repeat split; intros H; injection H as <-; auto.
  - assert (forall depth s e, scan_once d fuel depth s = Raise e -> decoder_error e) as IH1
      by (intros depth' s' e'; apply (IH depth' s' e')).
    assert (forall depth s e, array_items d fuel depth s = Raise e -> decoder_error e) as IH2
      by (intros depth' s' e'; apply (IH depth' s' e')).
    assert (forall depth s e, object_items d fuel depth s = Raise e -> decoder_error e) as IH3
      by (intros depth' s' e'; apply (IH depth' s' e')).
    unfold decoder_error in *.
    repeat split; cbn [scan_once array_items object_items]; decoder_cases;
      intros H; try discriminate H; injection H as <-; eauto.
Qed.

Lemma json_loads_scan lim c s :
  json_loads lim (c :: s) =
  match scan_once (int_max_str_digits lim) (json_fuel (c :: s))
                  (S (nesting_limit lim)) (skip_ws (c :: s)) with
  | Ok (v, rest) =>
      match skip_ws rest with
      | [] => Ok v
      | _ :: _ => Raise JSONDecodeError
      end
  | Raise e => Raise e
  end.
Proof.
  unfold json_loads.
  destruct c as [|p]; [reflexivity|].
  repeat (destruct p as [p|p|]; try reflexivity).
Qed.

Lemma json_loads_raises lim s e :
  json_loads lim s = Raise e -> decoder_error e.
Proof.
  assert (match scan_once (int_max_str_digits lim) (json_fuel s)
                  (S (nesting_limit lim)) (skip_ws s) with
          | Ok (v, rest) =>
              match skip_ws rest with
              | [] => Ok v
              | _ :: _ => Raise JSONDecodeError
              end
          | Raise e => Raise e
          end = Raise e -> decoder_error e) as H.
  { destruct (scan_once _ _ _ _) as [[v rest]|e'] eqn:E.
    - destruct (skip_ws rest); intros H; [discriminate|].
      injection H as <-. left. reflexivity.
    - intros H. injection H as <-. exact (proj1 (scan_raises _ _ _ _ _) E). }
  destruct s as [|c s']; [exact H|]. now rewrite json_loads_scan.
Qed.

Lemma span_digits_all (ds : pystr) :
  forallb is_digit ds = true -> span_digits ds = (ds, []).
Proof.
  induction ds as [|c ds IH]; [reflexivity|]. cbn [forallb span_digits].
  intros H. apply andb_true_iff in H. destruct H as [Hc Hds].
  now rewrite Hc, (IH Hds).
Qed.

Lemma filter_all {A} (p : A -> bool) (l : list A) :
  forallb p l = true -> filter p l = l.
Proof.
  induction l as [|x l IH]; [reflexivity|]. cbn [forallb filter].
  intros H. apply andb_true_iff in H. destruct H as [Hx Hl].
  now rewrite Hx, (IH Hl).
Qed.

(** An integer written with more digits than the limit: [int] refuses it. *)
Lemma json_loads_long_integer lim (c : N) (ds : pystr) :
  is_digit c = true -> c <> 48 -> forallb is_digit ds = true ->
  0 < int_max_str_digits lim < N.of_nat (S (List.length ds)) ->
  json_loads lim (c :: ds) = Raise ValueError.
Proof.
  intros Hc Hz Hds [Hpos Hlong].
  assert (48 <= c <= 57) as Hr.
  { unfold is_digit in Hc. apply andb_true_iff in Hc.
    destruct Hc as [A B]. apply N.leb_le in A. apply N.leb_le in B. lia. }
  assert (forall n, n < 48 \/ 57 < n -> (c =? n) = false) as Hne
    by (intros n Hn; apply N.eqb_neq; lia).
  rewrite json_loads_scan.
  unfold json_fuel. cbn [List.length Nat.mul Nat.add].
  cbn [skip_ws]. unfold is_json_ws.
  rewrite !Hne by lia. cbn [orb].
  cbn [scan_once]. rewrite !Hne by lia.
  assert (forall n, n < 48 \/ 57 < n -> (n =? c) = false) as Hne'
    by (intros n Hn; apply N.eqb_neq; lia).
  unfold lit_null, lit_true, lit_false. cbn [startswith].
  rewrite !Hne' by lia. cbn [andb].
  unfold match_number, scan_sign. rewrite Hne by lia.
  unfold scan_int. rewrite (proj2 (N.eqb_neq c 48) Hz), Hc.
  rewrite (span_digits_all ds Hds). cbn [scan_frac scan_exp app].
  rewrite !app_nil_r.
  unfold exceeds_int_limit.
  replace (0 <? int_max_str_digits lim) with true by (symmetry; now apply N.ltb_lt).
  assert (forallb is_digit (c :: ds) = true) as Hall
    by (cbn [forallb]; now rewrite Hc, Hds).
  replace (forallb (fun x => is_digit x || (x =? 45)) (c :: ds)) with true.
  2:{ symmetry. rewrite forallb_forall. intros x Hx.
      rewrite forallb_forall in Hall. now rewrite (Hall x Hx). }
  rewrite (filter_all _ _ Hall). cbn [List.length andb].
  now replace (int_max_str_digits lim <? N.of_nat (S (List.length ds))) with true
    by (symmetry; now apply N.ltb_lt).
Qed.

(** Arrays nested deeper than the limit allows: the decoder runs into the
    recursion limit. *)
Lemma scan_once_too_deep d (rest : pystr) :
  forall depth fuel,
    (2 * depth < fuel)%nat ->
    scan_once d fuel depth (repeat 91 (S depth) ++ rest) = Raise RecursionError.
Proof.
  induction depth as [|depth IH]; intros fuel Hf.
  - destruct fuel as [|fuel]; [inversion Hf|]. reflexivity.
  - destruct fuel as [|[|fuel]]; [lia | lia |].
    change (repeat 91 (S (S depth)) ++ rest)
      with (91 :: 91 :: repeat 91 depth ++ rest).
    cbn [scan_once N.eqb Pos.eqb skip_ws is_json_ws orb array_items].
    change (91 :: repeat 91 depth ++ rest) with (repeat 91 (S depth) ++ rest).
    rewrite IH by lia. reflexivity.
Qed.

Lemma json_loads_too_deep lim (rest : pystr) :
  json_loads lim (repeat 91 (nesting_limit lim + 2) ++ rest) = Raise RecursionError.
Proof.
  replace (nesting_limit lim + 2)%nat with (S (S (nesting_limit lim))) by lia.
  change (repeat 91 (S (S (nesting_limit lim))) ++ rest)
    with (91 :: repeat 91 (S (nesting_limit lim)) ++ rest).
  rewrite json_loads_scan.
  cbn [skip_ws is_json_ws N.eqb Pos.eqb orb].
  change (91 :: repeat 91 (S (nesting_limit lim)) ++ rest)
    with (repeat 91 (S (S (nesting_limit lim))) ++ rest).
  rewrite scan_once_too_deep; [reflexivity|].
  unfold json_fuel. rewrite length_app, repeat_length. lia.
Qed.

Lemma get_processed_jobs_run lib (st : state) :
  get_processed_jobs lib st =
  (match file st with
   | FileAbsent => Ok (PList [])
   | FileDenied => Raise PermissionError
   | FileIsDirectory => Raise IsADirectoryError
   | FileUndecodable => Raise UnicodeDecodeError
   | FileText s =>
       match json_loads (load_limits lib) s with
       | Ok v => Ok v
       | Raise JSONDecodeError => Ok (PList [])
       | Raise e => Raise e
       end
   end, st).
Proof.
  unfold get_processed_jobs, try_except, json_load, bind, read_file, lift.
  destruct (file st); try reflexivity.
  destruct (json_loads (load_limits lib) content) as [v|e] eqn:E; [reflexivity|].
  destruct (json_loads_raises _ _ _ E) as [-> | [-> | ->]]; reflexivity.
Qed.




(** ** Replies of the classifier service that cannot be read *)

(** C10, as the code has it.  After a response with a status outside
    400..599: an empty [candidates] list makes [analyze_with_gemini] raise
    [IndexError], which only the handler around the link catches, and the link
    is skipped.  A body that is not JSON raises out of [analyze_with_gemini]
    when [Response.json()] raises [json.JSONDecodeError] (requests before
    2.27); with requests 2.27 or later the error is a [RequestException] and
    the verdict is [False]. *)
Theorem unreadable_reply lib w k topic (j : job) st r :
  post_gemini w (List.length (trace (after st [EvClassify j]))) k (prompt_of j) = Ok r ->
  (400 <=? status_code r) && (status_code r <? 600) = false ->
  (forall res,
      json_loads (reply_limits lib) (text r) = Ok res ->
      py_get res lit_candidates (PList [PDict []]) = Ok (PList []) ->
      analyze_with_gemini lib w j k st = (Raise IndexError, after st [EvClassify j]) /\
      (forall st0,
          fetch_job_details lib w (link j) st0 = (Ok j, st) ->
          try_link lib w k topic (link j) st0 = (Ok false, after st [EvClassify j]))) /\
  (json_loads (reply_limits lib) (text r) = Raise JSONDecodeError ->
   requests_version lib = Requests_before_2_27 ->
   analyze_with_gemini lib w j k st = (Raise JSONDecodeError, after st [EvClassify j]) /\
   (forall st0,
       fetch_job_details lib w (link j) st0 = (Ok j, st) ->
       try_link lib w k topic (link j) st0 = (Ok false, after st [EvClassify j]))) /\
  (json_loads (reply_limits lib) (text r) = Raise JSONDecodeError ->
   requests_version lib = Requests_since_2_27 ->
   analyze_with_gemini lib w j k st = (Ok false, after st [EvClassify j])).
Proof.
  intros P S.
  assert (forall x, fst (classifier_reply lib w j k (after st [EvClassify j])) = Raise x ->
                    is_RequestException x = false ->
                    forall st0,
                      fetch_job_details lib w (link j) st0 = (Ok j, st) ->
                      try_link lib w k topic (link j) st0
                      = (Ok false, after st [EvClassify j])) as Hcatch.
  { intros x Hx Hnr st0 F.
    pose proof (fetch_job_details_state lib w (link j) st0) as E.
    rewrite F in E; simpl in E; subst st.
    rewrite try_link_run, (process_link_run _ _ _ _ _ _ _ _ F).
    rewrite analyze_with_gemini_run, Hx, Hnr. cbn [fst].
    now rewrite after_after. }
  assert (forall x, json_loads (reply_limits lib) (text r) = x ->
                    fst (classifier_reply lib w j k (after st [EvClassify j]))
                    = match x with
                      | Ok res =>
                          match text_of_result res with
                          | Ok t => py_as_str t
                          | Raise e => Raise e
                          end
                      | Raise JSONDecodeError => Raise (response_json_error lib)
                      | Raise e => Raise e
                      end) as Hreply.
  { intros x Hx. unfold classifier_reply, bind, now, lift. rewrite P.
    unfold raise_for_status. rewrite S. unfold ret, response_json. rewrite Hx.
    destruct x as [res|e]; [|now destruct e].
    unfold ret. now destruct (text_of_result res). }
  split; [|split].
  - intros res L C.
    assert (fst (classifier_reply lib w j k (after st [EvClassify j])) = Raise IndexError)
      as R by (rewrite (Hreply _ L); unfold text_of_result; now rewrite C).
    split.
    + now rewrite analyze_with_gemini_run, R.
    + now apply (Hcatch IndexError).
  - intros L V.
    assert (fst (classifier_reply lib w j k (after st [EvClassify j]))
            = Raise JSONDecodeError)
      as R by (rewrite (Hreply _ L); unfold response_json_error; now rewrite V).
    split.
    + now rewrite analyze_with_gemini_run, R.
    + now apply (Hcatch JSONDecodeError).
  - intros L V. rewrite analyze_with_gemini_run, (Hreply _ L).
    unfold response_json_error. now rewrite V.
Qed.

Lemma unreadable_reply_witness :
  let st := after (start FileAbsent) [EvSleep; EvFetch Examples.job2] in
  let j := Examples.job2_details in
  (analyze_with_gemini Examples.lib0 Examples.world_no_candidates j Examples.key0 st
   = (Raise IndexError, after st [EvClassify j]) /\
   try_link Examples.lib0 Examples.world_no_candidates Examples.key0 Examples.topic0
     Examples.job2 (start FileAbsent)
   = (Ok false, after st [EvClassify j])) /\
  analyze_with_gemini Examples.lib_old Examples.world_not_json j Examples.key0 st
  = (Raise JSONDecodeError, after st [EvClassify j]) /\
  analyze_with_gemini Examples.lib0 Examples.world_not_json j Examples.key0 st
  = (Ok false, after st [EvClassify j]).
Proof.
  intros st j.
  pose (r1 := {| status_code := 200;
                 text := str "{" ++ quoted "candidates" ++ str ": []}" |}).
  pose (r2 := {| status_code := 200;
                 text := str "<html>Service unavailable</html>" |}).
  split; [|split].
  - destruct (proj1 (unreadable_reply Examples.lib0 Examples.world_no_candidates
                       Examples.key0 Examples.topic0 j st r1 eq_refl eq_refl)
                (PDict [(lit_candidates, PList [])])) as [A T].
    + vm_compute. reflexivity.
    + reflexivity.
    + split; [exact A|]. apply T. vm_compute. reflexivity.
  - apply (proj1 (proj2 (unreadable_reply Examples.lib_old Examples.world_not_json
                           Examples.key0 Examples.topic0 j st r2 eq_refl eq_refl))).
    + vm_compute. reflexivity.
    + reflexivity.
  - apply (proj2 (proj2 (unreadable_reply Examples.lib0 Examples.world_not_json
                           Examples.key0 Examples.topic0 j st r2 eq_refl eq_refl))).
    + vm_compute. reflexivity.
    + reflexivity.
Defined.

(** C10, as stated, fails: with requests 2.27 or later, a 200 response whose
    body is not JSON makes [analyze_with_gemini] return [False]; nothing is
    raised out of the function. *)
Lemma not_json_reply_is_caught :
  let st := after (start FileAbsent) [EvSleep; EvFetch Examples.job2] in
  let j := Examples.job2_details in
  post_gemini Examples.world_not_json (List.length (trace (after st [EvClassify j])))
    Examples.key0 (prompt_of j)
  = Ok {| status_code := 200; text := str "<html>Service unavailable</html>" |} /\
  json_loads (reply_limits Examples.lib0) (str "<html>Service unavailable</html>")
  = Raise JSONDecodeError /\
  analyze_with_gemini Examples.lib0 Examples.world_not_json j Examples.key0 st
  = (Ok false, after st [EvClassify j]) /\
  ~ (exists e st',
        analyze_with_gemini Examples.lib0 Examples.world_not_json j Examples.key0 st
        = (Raise e, st')).
Proof.
  intros st j.
  assert (analyze_with_gemini Examples.lib0 Examples.world_not_json j Examples.key0 st
          = (Ok false, after st [EvClassify j])) as A by (vm_compute; reflexivity).
  split; [reflexivity|].
  split; [vm_compute; reflexivity|].
  split; [exact A|].
  intros [e [st' H]]. rewrite A in H. discriminate H.
Qed.

(** ** The candidate links *)

Lemma existsb_is_str (u : pystr) (items : list pyval) :
  existsb (is_str u) items = true <-> In (PStr u) items.
Proof.
  rewrite existsb_exists. split.
  - intros [v [Hin Hv]]. destruct v; simpl in Hv; try discriminate.
    apply str_eqb_eq in Hv. now subst.
  - intros Hin. exists (PStr u). split; [exact Hin|]. simpl. apply str_eqb_refl.
Qed.

Lemma truthy_Some (o : option pystr) (u : pystr) :
  truthy o = Some u -> o = Some u /\ u <> [].
Proof.
  destruct o as [[|c s]|]; simpl; try discriminate.
  intros H; injection H as <-. split; [reflexivity | discriminate].
Qed.

(** The links kept for a loaded list: each comes from an anchor of the form
    [/url?q=...], is not empty, does not contain [google.com] and is not in
    the list. *)
Lemma collect_links_list lib items hrefs :
  exists links,
    collect_links lib (PList items) hrefs = Ok links /\
    forall u, In u links ->
      u <> [] /\ str_contains lit_google_com u = false /\ ~ In (PStr u) items /\
      exists href, In href hrefs /\ startswith href lit_url_q = true /\
                   query_q lib href = Some u.
Proof.
  induction hrefs as [|href rest [links [E IH]]].
  - exists []. split; [reflexivity | intros u []].
  - cbn [collect_links]. rewrite E.
    assert (forall u, In u links ->
              u <> [] /\ str_contains lit_google_com u = false /\
              ~ In (PStr u) items /\
              exists h, In h (href :: rest) /\ startswith h lit_url_q = true /\
                        query_q lib h = Some u) as IH'.
    { intros u Hu. destruct (IH u Hu) as (A & B & C & h & Hh & D).
      repeat split; auto. exists h. split; [now right | exact D]. }
    destruct (startswith href lit_url_q) eqn:Hs; [|now exists links].
    destruct (truthy (query_q lib href)) as [url|] eqn:Ht; [|now exists links].
    apply truthy_Some in Ht. destruct Ht as [Hq Hne].
    destruct (str_contains lit_google_com url) eqn:Hg; cbn [negb];
      [now exists links|].
    cbn [py_in]. destruct (existsb (is_str url) items) eqn:Hin;
      [now exists links|].
    exists (url :: links). split; [reflexivity|].
    intros u [<- | Hu]; [|now apply IH'].
    repeat split; auto.
    + intros Hc. apply existsb_is_str in Hc. congruence.
    + exists href. split; [now left | now split].
Qed.

(** Links that are in the list are dropped, whatever else the list holds. *)
Lemma collect_links_skips lib items hrefs links :
  collect_links lib (PList items) hrefs = Ok links ->
  forall more,
    (forall u, In u links -> In (PStr u) more) ->
    collect_links lib (PList (items ++ more)) hrefs = Ok [].
Proof.
  revert links. induction hrefs as [|href rest IH]; intros links E more Hm.
  - reflexivity.
  - cbn [collect_links] in E |- *.
    destruct (collect_links_list lib items rest) as [links' [E' _]].
    rewrite E' in E.
    assert (forall keep,
               match Ok links', keep with
               | Ok l, Some url => Ok (url :: l)
               | r, _ => r
               end = Ok links ->
               forall u, In u links' -> In u links) as Hsub.
    { intros [url|] H u Hu; injection H as <-; [now right | exact Hu]. }
    assert (forall keep,
               match Ok links', keep with
               | Ok l, Some url => Ok (url :: l)
               | r, _ => r
               end = Ok links ->
               collect_links lib (PList (items ++ more)) rest = Ok []) as Hrest.
    { intros keep H. apply (IH links' E'). intros u Hu.
      apply Hm. now apply (Hsub keep). }
    destruct (startswith href lit_url_q); [|now rewrite (Hrest None E)].
    destruct (truthy (query_q lib href)) as [url|]; [|now rewrite (Hrest None E)].
    destruct (str_contains lit_google_com url); cbn [negb] in E |- *;
      [now rewrite (Hrest None E)|].
    cbn [py_in] in E |- *. rewrite existsb_app.
    destruct (existsb (is_str url) items) eqn:Hin; cbn [orb].
    + now rewrite (Hrest None E).
    + rewrite (Hrest (Some url) E).
      assert (In (PStr url) more) as Hu
        by (apply Hm; injection E as <-; now left).
      apply existsb_is_str in Hu. now rewrite Hu.
Qed.

(** C3, as the code has it.  For every search page and every loaded list, the
    links kept contain no URL in which the text [google.com] occurs (a
    case-sensitive test on the whole URL, not on its host) and no URL that is
    in the loaded list; and once the links kept have been added to the list,
    the same search page yields no link at all. *)
Theorem candidates_exclude_provider_text_and_processed lib items hrefs :
  exists links,
    collect_links lib (PList items) hrefs = Ok links /\
    (forall u, In u links ->
       str_contains lit_google_com u = false /\ ~ In (PStr u) items) /\
    collect_links lib (PList (items ++ List.map PStr links)) hrefs = Ok [].
Proof.
  destruct (collect_links_list lib items hrefs) as [links [E H]].
  exists links. split; [exact E|]. split.
  - intros u Hu. destruct (H u Hu) as (_ & A & B & _). now split.
  - apply (collect_links_skips lib items hrefs links E).
    intros u Hu. now apply in_map.
Qed.

(** C3, as stated, fails: a link whose host is [www.google.com], written in
    capitals, is kept. *)
Lemma provider_host_in_capitals_is_kept :
  collect_links Examples.lib0 (PList [])
    [lit_url_q ++ Examples.upper_host_url]
  = Ok [Examples.upper_host_url] /\
  url_host Examples.upper_host_url = Some (str "www.google.com") /\
  host_of_search_provider Examples.upper_host_url = true.
Proof. vm_compute. repeat split. Qed.

Lemma candidates_exclude_provider_text_and_processed_witness :
  exists links,
    collect_links Examples.lib0 (PList [PStr Examples.job1])
      [Examples.href_of Examples.job1; Examples.href_of Examples.job2] = Ok links /\
    In Examples.job2 links /\
    str_contains lit_google_com Examples.job2 = false /\
    ~ In (PStr Examples.job2) [PStr Examples.job1].
Proof.
  destruct (candidates_exclude_provider_text_and_processed
              Examples.lib0 [PStr Examples.job1]
              [Examples.href_of Examples.job1; Examples.href_of Examples.job2])
    as [links [E [H _]]].
  exists links. split; [exact E|].
  assert (In Examples.job2 links) as Hin
    by (vm_compute in E; injection E as <-; now left).
  split; [exact Hin|]. apply H. exact Hin.
Defined.

(** ** The run as a whole *)

Lemma get_processed_jobs_state lib st : snd (get_processed_jobs lib st) = st.
Proof. now rewrite get_processed_jobs_run. Qed.

(** [main] up to the end of the loop, when a list was loaded. *)
Lemma search_and_process_run lib w k topic st items :
  fst (get_processed_jobs lib st) = Ok (PList items) ->
  search_and_process lib w k topic st =
  match search_hrefs w google_url with
  | Raise e => (Raise e, after st [EvSearch google_url])
  | Ok hrefs =>
      match collect_links lib (PList items) hrefs with
      | Raise e => (Raise e, after st [EvSearch google_url])
      | Ok links =>
          match for_each_link lib w k topic links []
                  (after st [EvSearch google_url]) with
          | (Ok new, st1) => (Ok (PList items, new), st1)
          | (Raise e, st1) => (Raise e, st1)
          end
      end
  end.
Proof.
  intros L. unfold search_and_process, bind at 1.
  pose proof (get_processed_jobs_state lib st) as S.
  destruct (get_processed_jobs lib st) as [r st0]; simpl in L, S; subst r st0.
  unfold bind at 1, lift at 1. cbn [py_len].
  unfold bind at 1, emit.
  change {| trace := trace st ++ [EvSearch google_url]; file := file st |}
    with (after st [EvSearch google_url]).
  unfold bind at 1, lift at 1.
  destruct (search_hrefs w google_url) as [hrefs|e]; [|reflexivity].
  unfold bind at 1, lift at 1.
  destruct (collect_links lib (PList items) hrefs) as [links|e]; [|reflexivity].
  unfold bind at 1.
  destruct (for_each_link lib w k topic links [] _) as [[new|e] st1]; reflexivity.
Qed.

Lemma save_processed_jobs_run lib w v st :
  save_processed_jobs lib w v st =
  match file st with
  | FileIsDirectory => (Raise IsADirectoryError, after st [EvSave v])
  | _ =>
      match open_write w (List.length (trace st) + 1) with
      | Ok _ => (Ok tt, {| trace := trace st ++ [EvSave v];
                           file := FileText (json_dumps (number_repr lib) v) |})
      | Raise e => (Raise e, after st [EvSave v])
      end
  end.
Proof.
  unfold save_processed_jobs, bind, emit, write_file, after; cbn [trace file].
  rewrite length_app. cbn [List.length].
  destruct (file st); try reflexivity;
    now destruct (open_write w (List.length (trace st) + 1)).
Qed.

(** The saver appends its call and changes nothing else of the trace. *)
Lemma save_processed_jobs_trace lib w v st :
  trace (snd (save_processed_jobs lib w v st)) = trace st ++ [EvSave v].
Proof.
  rewrite save_processed_jobs_run.
  destruct (file st); try reflexivity;
    now destruct (open_write w (List.length (trace st) + 1)).
Qed.

Lemma emits_get_processed_jobs P lib : emits P (get_processed_jobs lib).
Proof.
  unfold get_processed_jobs, json_load. repeat emits_step.
Qed.

Lemma emits_search_and_process lib w k topic :
  emits (fun ev => is_save ev = false /\ is_status_notification ev = false)
        (search_and_process lib w k topic).
Proof.
  unfold search_and_process.
  apply emits_bind; [apply emits_get_processed_jobs | intros processed].
  apply emits_bind; [apply emits_lift | intros _].
  apply emits_bind; [apply emits_emit; now split | intros _].
  apply emits_bind; [apply emits_lift | intros hrefs].
  apply emits_bind; [apply emits_lift | intros links].
  apply emits_bind; [| intros new; apply emits_ret].
  eapply emits_weaken; [|apply emits_for_each_link].
  intros ev [u [_ H]]. destruct ev; simpl in H |- *; try contradiction; auto.
  destruct H as [-> _]. auto.
Qed.

Lemma search_and_process_loaded lib w k topic st processed new st1 :
  search_and_process lib w k topic st = (Ok (processed, new), st1) ->
  fst (get_processed_jobs lib st) = Ok processed.
Proof.
  unfold search_and_process, bind at 1.
  destruct (get_processed_jobs lib st) as [[p|e] st0]; [|discriminate].
  unfold bind, lift, emit, ret.
  destruct (py_len p); [|discriminate].
  destruct (search_hrefs w google_url) as [hrefs|]; [|discriminate].
  destruct (collect_links lib p hrefs) as [links|]; [|discriminate].
  destruct (for_each_link lib w k topic links [] _) as [[n|e] st2]; [|discriminate].
  intros H. now injection H as -> _ _.
Qed.

Lemma link_event_not_about items u ev :
  ~ In (PStr u) items -> link_event u ev -> not_about items ev.
Proof.
  intros Hu. destruct ev; simpl; auto.
  - intros ->. exact Hu.
  - intros ->. exact Hu.
Qed.

Lemma finalize_trace lib w topic url processed new st :
  exists evs,
    trace (snd (finalize lib w topic url processed new st)) = trace st ++ evs /\
    Forall (fun ev => match ev with
                      | EvSave _ | EvNotify _ true | EvNtfyPost _ => True
                      | _ => False
                      end) evs.
Proof.
  unfold finalize. destruct new as [|u new].
  - destruct (send_ntfy_notification_state w
                {| title := Some lit_job_search_complete; company := None;
                   details := []; link := url ++ lit_actions |} topic true st)
      as [evs [E F]].
    exists (EvNotify {| title := Some lit_job_search_complete; company := None;
                        details := []; link := url ++ lit_actions |} true :: evs).
    rewrite E. split; [reflexivity|]. constructor; [exact I|].
    eapply Forall_impl; [|exact F]. intros ev. now destruct ev.
  - unfold bind, lift. destruct (py_add processed (u :: new)) as [v|e].
    + rewrite save_processed_jobs_trace. exists [EvSave v].
      split; [reflexivity | now repeat constructor].
    + exists []. simpl. now rewrite app_nil_r.
Qed.

Lemma main_trace_not_about lib w env f0 items :
  fst (get_processed_jobs lib (start f0)) = Ok (PList items) ->
  Forall (not_about items) (trace (snd (main lib w env (start f0)))).
Proof.
  intros L. unfold main.
  destruct (truthy (GEMINI_API_KEY env)) as [k|]; [|constructor].
  destruct (truthy (NTFY_TOPIC env)) as [topic|]; [|constructor].
  unfold bind. rewrite (search_and_process_run _ _ _ _ _ _ L).
  assert (Forall (not_about items) (trace (after (start f0) [EvSearch google_url])))
    as F0 by (repeat constructor).
  destruct (search_hrefs w google_url) as [hrefs|e]; [|exact F0].
  destruct (collect_links_list lib items hrefs) as [links [E H]]. rewrite E.
  destruct (emits_for_each_link lib w k topic links []
              (after (start f0) [EvSearch google_url])) as [evs [S F]].
  assert (Forall (not_about items) (trace (after (start f0) ([EvSearch google_url] ++ evs))))
    as F1.
  { simpl. constructor; [exact I|]. eapply Forall_impl; [|exact F].
    intros ev [u [Hu Hev]]. apply (link_event_not_about items u); [|exact Hev].
    now destruct (H u Hu) as (_ & _ & A & _). }
  destruct (for_each_link lib w k topic links [] _) as [[new|e] st1];
    simpl in S; subst st1; rewrite after_after.
  - cbn [fst snd].
    destruct (finalize_trace lib w topic
                (lit_github ++ match GITHUB_REPOSITORY env with
                               | Some r => r | None => [] end)
                (PList items) new
                (after (start f0) ([EvSearch google_url] ++ evs)))
      as [evs' [E' F']].
    rewrite E'. apply Forall_app. split; [exact F1|].
    eapply Forall_impl; [|exact F']. intros ev. now destruct ev.
  - exact F1.
Qed.

(** C4.  In every run, a link that is in the list loaded at the start of the
    run is the subject of no page fetch and of no call of the classifier. *)
Theorem processed_links_not_refetched lib w env f0 items u :
  fst (get_processed_jobs lib (start f0)) = Ok (PList items) ->
  In (PStr u) items ->
  ~ In (EvFetch u) (trace (snd (main lib w env (start f0)))) /\
  forall j, In (EvClassify j) (trace (snd (main lib w env (start f0)))) ->
            link j <> u.
Proof.
  intros L Hu.
  pose proof (main_trace_not_about lib w env f0 items L) as F.
  rewrite Forall_forall in F. split.
  - intros Hin. apply (F _ Hin). exact Hu.
  - intros j Hin E. apply (F _ Hin). simpl. now rewrite E.
Qed.

Lemma processed_links_not_refetched_witness :
  ~ In (EvFetch Examples.job1)
       (trace (snd (main Examples.lib0 Examples.world_yes Examples.env0
                      (start Examples.file1)))) /\
  forall j,
    In (EvClassify j)
       (trace (snd (main Examples.lib0 Examples.world_yes Examples.env0
                      (start Examples.file1)))) ->
    link j <> Examples.job1.
Proof.
  apply (processed_links_not_refetched Examples.lib0 Examples.world_yes
           Examples.env0 Examples.file1 [PStr Examples.job1] Examples.job1).
  - vm_compute. reflexivity.
  - simpl. left. reflexivity.
Defined.

(** ** The loop over the candidate links *)

Lemma for_each_link_app lib w k topic pre rest :
  forall acc st,
    for_each_link lib w k topic (pre ++ rest) acc st =
    match for_each_link lib w k topic pre acc st with
    | (Ok acc1, st1) => for_each_link lib w k topic rest acc1 st1
    | (Raise e, st1) => (Raise e, st1)
    end.
Proof.
  induction pre as [|u pre IH]; intros acc st; simpl.
  - reflexivity.
  - unfold bind. destruct (try_link lib w k topic u st) as [[a|e] st1].
    + apply IH.
    + reflexivity.
Qed.

Lemma for_each_link_total lib w k topic links acc st :
  exists new st', for_each_link lib w k topic links acc st = (Ok new, st').
Proof.
  destruct (for_each_link_ok lib w k topic links acc st) as [new H].
  destruct (for_each_link lib w k topic links acc st) as [r st'].
  simpl in H; subst r. now exists new, st'.
Qed.

Lemma after_inj st a b : after st a = after st b -> a = b.
Proof.
  unfold after. intros H. injection H as H. now apply app_inv_head in H.
Qed.

(** The fetch in terms of the answers of the world. *)
Lemma fetch_job_details_run lib w u st :
  fetch_job_details lib w u st =
  (match get_page w (List.length (trace st) + 2) u with
   | Raise e => Raise e
   | Ok pg =>
       match urlparse_hostname lib u with
       | Raise e => Raise e
       | Ok h =>
           match page_body_text pg with
           | Some txt => Ok (job_record u pg h txt)
           | None => Raise AttributeError
           end
       end
   end, after st [EvSleep; EvFetch u]).
Proof.
  unfold fetch_job_details, bind, emit, now, lift, ret, raise, after; cbn [trace file].
  rewrite <- app_assoc, length_app. cbn [app List.length].
  destruct (get_page w _ u) as [pg|]; [|reflexivity].
  destruct (urlparse_hostname lib u); [|reflexivity].
  destruct (page_body_text pg); reflexivity.
Qed.

Lemma fetch_gives_run lib w u st j :
  fetch_gives lib w u (List.length (trace st)) j ->
  fetch_job_details lib w u st = (Ok j, after st [EvSleep; EvFetch u]).
Proof.
  intros (pg & h & txt & G & H & B & ->).
  now rewrite fetch_job_details_run, G, H, B.
Qed.

Lemma fetch_fails_run lib w u st :
  fetch_fails lib w u (List.length (trace st)) ->
  exists e, fetch_job_details lib w u st = (Raise e, after st [EvSleep; EvFetch u]).
Proof.
  unfold fetch_fails. rewrite fetch_job_details_run.
  destruct (get_page w _ u) as [pg|e]; [|eauto].
  destruct (urlparse_hostname lib u) as [h|e]; [|eauto].
  intros ->. eauto.
Qed.

(** A failed attempt: the handler around the link returns, the link is not
    appended, and the only calls made are those before the failure. *)
Lemma try_link_failure lib w k topic u st evs :
  link_failure lib w k u st evs ->
  try_link lib w k topic u st = (Ok false, after st evs).
Proof.
  intros [F | j e st2 F R].
  - destruct (fetch_fails_run _ _ _ _ F) as [e E].
    rewrite try_link_run. unfold process_link, bind. now rewrite E.
  - apply fetch_gives_run in F.
    rewrite try_link_run, (process_link_run _ _ _ _ _ _ _ _ F), R.
    reflexivity.
Qed.

Lemma trace_grows_for_each_link lib w k topic links acc st :
  exists evs,
    snd (for_each_link lib w k topic links acc st) = after st evs.
Proof.
  destruct (emits_for_each_link lib w k topic links acc st) as [evs [E _]].
  now exists evs.
Qed.

(** The calls of the loop body after a fetch that gave a job record start
    with the call of the classifier. *)
Lemma process_link_events lib w k topic u st j st1 :
  fetch_job_details lib w u st = (Ok j, st1) ->
  exists evs,
    snd (process_link lib w k topic u st) =
    after st ([EvSleep; EvFetch u] ++ EvClassify j :: evs).
Proof.
  intros F. rewrite (process_link_run _ _ _ _ _ _ _ _ F).
  destruct (fst (analyze_with_gemini lib w j k _)) as [[|]|e].
  - destruct (send_ntfy_notification_state w j topic false
                (after st [EvSleep; EvFetch u; EvClassify j])) as [evs [E _]].
    exists (EvNotify j false :: evs). unfold bind.
    destruct (send_ntfy_notification w j topic false _) as [[[]|x] st3];
      simpl in E |- *; rewrite E, after_after; reflexivity.
  - now exists [].
  - now exists [].
Qed.

(** An attempt on [u] fetches [u], and calls the classifier on the job record
    when the world answers the fetch with one. *)
Lemma try_link_fetches lib w k topic u st :
  exists b evs,
    try_link lib w k topic u st = (Ok b, after st ([EvSleep; EvFetch u] ++ evs)) /\
    forall j, fetch_gives lib w u (List.length (trace st)) j ->
              exists evs', evs = EvClassify j :: evs'.
Proof.
  destruct (try_link_ok lib w k topic u st) as [b Hb].
  assert (exists evs,
             snd (try_link lib w k topic u st) = after st ([EvSleep; EvFetch u] ++ evs) /\
             forall j, fetch_gives lib w u (List.length (trace st)) j ->
                       exists evs', evs = EvClassify j :: evs') as (evs & S & C).
  { rewrite try_link_run.
    destruct (fetch_job_details lib w u st) as [[j|e] st1] eqn:F.
    - destruct (process_link_events lib w k topic u st j st1 F) as [evs E].
      exists (EvClassify j :: evs). split.
      + destruct (process_link lib w k topic u st) as [[a|x] st2]; exact E.
      + intros j' G. apply fetch_gives_run in G. rewrite F in G.
        injection G as <- _. now exists evs.
    - pose proof (fetch_job_details_state lib w u st) as S.
      rewrite F in S. cbn [snd] in S. subst st1.
      exists []. split.
      + unfold process_link, bind. rewrite F. reflexivity.
      + intros j G. apply fetch_gives_run in G. rewrite F in G. discriminate G. }
  exists b, evs. split; [|exact C].
  destruct (try_link lib w k topic u st) as [r st1].
  cbn [fst snd] in Hb, S. now subst.
Qed.

(** C7.  For every candidate list [pre ++ A :: mid ++ B :: post]: the loop
    reaches [A]; if the fetch or the classifier fails for [A], the handler
    around the link takes the failure, [A] is not added to [new_jobs_found]
    and no notification is sent for it; the loop goes on through [mid] and
    then fetches [B]; when the world answers that fetch with a page from
    which a job record is built, the next call is the classifier on that
    record; and the loop ends without raising. *)
Theorem link_failure_is_isolated lib w k topic pre A mid B post acc st :
  exists accA stA,
    for_each_link lib w k topic pre acc st = (Ok accA, stA) /\
    forall evsA,
      link_failure lib w k A stA evsA ->
      try_link lib w k topic A stA = (Ok false, after stA evsA) /\
      Forall (fun ev => is_job_notification ev = false /\ is_ntfy_post ev = false)
             evsA /\
      exists accB evsM b evsB new evsP,
        for_each_link lib w k topic mid accA (after stA evsA)
        = (Ok accB, after stA (evsA ++ evsM)) /\
        try_link lib w k topic B (after stA (evsA ++ evsM))
        = (Ok b, after stA (evsA ++ evsM ++ [EvSleep; EvFetch B] ++ evsB)) /\
        for_each_link lib w k topic (pre ++ A :: mid ++ B :: post) acc st
        = (Ok new,
           after stA (evsA ++ evsM ++ [EvSleep; EvFetch B] ++ evsB ++ evsP)) /\
        forall j,
          fetch_gives lib w B (List.length (trace stA ++ evsA ++ evsM)) j ->
          exists evsB', evsB = EvClassify j :: evsB'.
Proof.
  destruct (for_each_link_total lib w k topic pre acc st) as [accA [stA EA]].
  exists accA, stA. split; [exact EA|]. intros evsA HA.
  pose proof (try_link_failure lib w k topic A stA evsA HA) as TA.
  split; [exact TA|]. split.
  { destruct HA; repeat constructor. }
  destruct (for_each_link_total lib w k topic mid accA (after stA evsA))
    as [accB [stB EB]].
  destruct (trace_grows_for_each_link lib w k topic mid accA (after stA evsA))
    as [evsM SM].
  rewrite EB in SM. cbn [snd] in SM. rewrite after_after in SM. subst stB.
  destruct (try_link_fetches lib w k topic B (after stA (evsA ++ evsM)))
    as (b & evsB & TB & CB).
  rewrite after_after, <- app_assoc in TB.
  set (accB' := if b then accB ++ [B] else accB).
  destruct (for_each_link_total lib w k topic post accB'
              (after stA (evsA ++ evsM ++ [EvSleep; EvFetch B] ++ evsB)))
    as [new [st' EP]].
  destruct (trace_grows_for_each_link lib w k topic post accB'
              (after stA (evsA ++ evsM ++ [EvSleep; EvFetch B] ++ evsB)))
    as [evsP SP].
  rewrite EP in SP. cbn [snd] in SP. rewrite after_after in SP. subst st'.
  exists accB, evsM, b, evsB, new, evsP.
  split; [exact EB|]. split; [exact TB|]. split.
  - rewrite for_each_link_app, EA. cbn [for_each_link]. unfold bind at 1.
    rewrite TA, for_each_link_app, EB. cbn [for_each_link]. unfold bind at 1.
    rewrite TB. fold accB'. rewrite EP. now rewrite <- !app_assoc.
  - intros j G. apply CB. exact G.
Qed.

Lemma link_failure_is_isolated_witness :
  (try_link Examples.lib0 Examples.world_job2_down Examples.key0 Examples.topic0
     Examples.job2 (start FileAbsent)
   = (Ok false, after (start FileAbsent) [EvSleep; EvFetch Examples.job2]) /\
   exists new evs,
     for_each_link Examples.lib0 Examples.world_job2_down Examples.key0
       Examples.topic0 [Examples.job2; Examples.job3] [] (start FileAbsent)
     = (Ok new,
        after (start FileAbsent)
          ([EvSleep; EvFetch Examples.job2] ++
           [EvSleep; EvFetch Examples.job3] ++
           EvClassify Examples.job3_details :: evs))) /\
  (try_link Examples.lib0 Examples.world_no_candidates Examples.key0 Examples.topic0
     Examples.job2 (start FileAbsent)
   = (Ok false,
      after (start FileAbsent)
        [EvSleep; EvFetch Examples.job2; EvClassify Examples.job2_details]) /\
   exists new evs,
     for_each_link Examples.lib0 Examples.world_no_candidates Examples.key0
       Examples.topic0 [Examples.job2; Examples.job3] [] (start FileAbsent)
     = (Ok new,
        after (start FileAbsent)
          ([EvSleep; EvFetch Examples.job2; EvClassify Examples.job2_details] ++
           [EvSleep; EvFetch Examples.job3] ++
           EvClassify Examples.job3_details :: evs))).
Proof.
  split.
  - destruct (link_failure_is_isolated Examples.lib0 Examples.world_job2_down
                Examples.key0 Examples.topic0 [] Examples.job2 [] Examples.job3 []
                [] (start FileAbsent)) as [accA [stA [EA H]]].
    simpl in EA. unfold ret in EA. injection EA as <- <-.
    destruct (H [EvSleep; EvFetch Examples.job2])
      as (T & _ & accB & evsM & b & evsB & new & evsP & EM & _ & E & C).
    + apply fetch_failure. exact I.
    + split; [exact T|].
      cbn [for_each_link] in EM. unfold ret in EM. injection EM as _ EM.
      subst evsM.
      destruct (C Examples.job3_details) as [evsB' ->].
      { exists Examples.page0, (Some (str "c.com")),
          (str "  Software   developer, Bengaluru ").
        repeat split. }
      exists new, (evsB' ++ evsP). exact E.
  - destruct (link_failure_is_isolated Examples.lib0 Examples.world_no_candidates
                Examples.key0 Examples.topic0 [] Examples.job2 [] Examples.job3 []
                [] (start FileAbsent)) as [accA [stA [EA H]]].
    simpl in EA. unfold ret in EA. injection EA as <- <-.
    destruct (H [EvSleep; EvFetch Examples.job2; EvClassify Examples.job2_details])
      as (T & _ & accB & evsM & b & evsB & new & evsP & EM & _ & E & C).
    + apply (classify_failure _ _ _ _ _ Examples.job2_details IndexError
               (after (start FileAbsent)
                  [EvSleep; EvFetch Examples.job2; EvClassify Examples.job2_details])).
      * exists Examples.page0, (Some (str "b.com")),
          (str "  Software   developer, Bengaluru ").
        repeat split.
      * vm_compute. reflexivity.
    + split; [exact T|].
      cbn [for_each_link] in EM. unfold ret in EM. injection EM as _ EM.
      subst evsM.
      destruct (C Examples.job3_details) as [evsB' ->].
      { exists Examples.page0, (Some (str "c.com")),
          (str "  Software   developer, Bengaluru ").
        repeat split. }
      exists new, (evsB' ++ evsP). exact E.
Defined.

(** ** What is saved *)

(** The loop returns [new_jobs_found] extended by some of the links, each at
    most as often as it occurs among them. *)
Lemma for_each_link_new lib w k topic links :
  forall acc st new st',
    for_each_link lib w k topic links acc st = (Ok new, st') ->
    exists sub,
      new = acc ++ sub /\ (forall u, In u sub -> In u links) /\
      (NoDup links -> NoDup sub).
Proof.
  induction links as [|u rest IH]; intros acc st new st' E; simpl in E.
  - unfold ret in E. injection E as <- _. exists [].
    rewrite app_nil_r. repeat split; [intros ? [] | constructor].
  - unfold bind in E. destruct (try_link lib w k topic u st) as [[a|e] st1];
      [|discriminate].
    destruct (IH _ _ _ _ E) as (sub & -> & Hin & Hnd).
    destruct a.
    + exists (u :: sub). rewrite <- app_assoc. split; [reflexivity|]. split.
      * intros x [<- | Hx]; [now left | right; now apply Hin].
      * intros ND. inversion ND; subst. constructor; auto.
    + exists sub. split; [reflexivity|]. split.
      * intros x Hx. right. now apply Hin.
      * intros ND. inversion ND; subst. auto.
Qed.

Lemma main_run lib w env f0 k topic :
  truthy (GEMINI_API_KEY env) = Some k ->
  truthy (NTFY_TOPIC env) = Some topic ->
  main lib w env (start f0) =
  match search_and_process lib w k topic (start f0) with
  | (Ok r, st1) =>
      finalize lib w topic
        (lit_github ++ match GITHUB_REPOSITORY env with Some r => r | None => [] end)
        (fst r) (snd r) st1
  | (Raise e, st1) => (Raise e, st1)
  end.
Proof. intros K T. unfold main. rewrite K, T. reflexivity. Qed.

Lemma main_without_credentials lib w env st :
  truthy (GEMINI_API_KEY env) = None \/ truthy (NTFY_TOPIC env) = None ->
  main lib w env st = (Ok tt, st).
Proof.
  intros [H | H]; unfold main; rewrite H; [reflexivity|].
  now destruct (truthy (GEMINI_API_KEY env)).
Qed.

Lemma NoDup_app_map_PStr (items : list pyval) (new : list pystr) :
  NoDup items -> NoDup new -> (forall u, In u new -> ~ In (PStr u) items) ->
  NoDup (items ++ List.map PStr new).
Proof.
  intros Hi Hn Hd. induction items as [|v items IH]; simpl.
  - clear Hd. induction Hn as [|u new Hu Hn IH]; simpl; constructor; auto.
    rewrite in_map_iff. intros [x [E Hx]]. injection E as ->. contradiction.
  - inversion Hi; subst. constructor.
    + rewrite in_app_iff, in_map_iff. intros [H | [x [<- Hx]]]; [contradiction|].
      apply (Hd x Hx). now left.
    + apply IH; [assumption|]. intros u Hu H. apply (Hd u Hu). now right.
Qed.

(** C8, as the code has it.  In every run that calls [save_processed_jobs],
    a list was loaded and the saved list is this list followed by
    [new_jobs_found], the links accepted in this run, each of which is a
    candidate of the run and was not in the loaded list; so when the loaded
    list has no duplicate and the candidate links of the run are pairwise
    distinct, the saved list holds each URL at most once.  Nothing removes a
    link that the search page names twice. *)
Theorem saved_list_has_no_duplicate lib w env f0 v :
  In (EvSave v) (trace (snd (main lib w env (start f0)))) ->
  exists k topic items hrefs links new st1,
    truthy (GEMINI_API_KEY env) = Some k /\
    truthy (NTFY_TOPIC env) = Some topic /\
    fst (get_processed_jobs lib (start f0)) = Ok (PList items) /\
    search_hrefs w google_url = Ok hrefs /\
    collect_links lib (PList items) hrefs = Ok links /\
    search_and_process lib w k topic (start f0) = (Ok (PList items, new), st1) /\
    new <> [] /\
    v = PList (items ++ List.map PStr new) /\
    (forall u, In u new -> In u links /\ ~ In (PStr u) items) /\
    (NoDup items -> NoDup links -> NoDup (items ++ List.map PStr new)).
Proof.
  intros Hin.
  destruct (truthy (GEMINI_API_KEY env)) as [k|] eqn:K;
    [|rewrite main_without_credentials in Hin by auto; destruct Hin].
  destruct (truthy (NTFY_TOPIC env)) as [topic|] eqn:T;
    [|rewrite main_without_credentials in Hin by auto; destruct Hin].
  rewrite (main_run _ _ _ _ _ _ K T) in Hin.
  destruct (emits_search_and_process lib w k topic (start f0)) as [evs [S F]].
  assert (forall st1, st1 = after (start f0) evs -> ~ In (EvSave v) (trace st1)) as Hno.
  { intros st1 -> H. cbn [after start trace app] in H.
    rewrite Forall_forall in F. destruct (F _ H) as [H' _]. discriminate H'. }
  destruct (search_and_process lib w k topic (start f0))
    as [[[processed new]|e] st1] eqn:E; cbn [snd] in S;
    [|exfalso; exact (Hno st1 S Hin)].
  cbn [fst snd] in Hin.
  pose proof (search_and_process_loaded _ _ _ _ _ _ _ _ E) as L.
  destruct new as [|u new].
  { exfalso. unfold finalize in Hin.
    match type of Hin with
    | In _ (trace (snd (send_ntfy_notification ?w ?j ?t ?b ?s))) =>
        destruct (send_ntfy_notification_state w j t b s) as [evs' [E' F']];
        rewrite E' in Hin
    end.
    unfold after in Hin. cbn [trace] in Hin. rewrite in_app_iff in Hin.
    destruct Hin as [Hin | Hin]; [exact (Hno st1 S Hin)|].
    destruct Hin as [Hin | Hin]; [discriminate|].
    rewrite Forall_forall in F'. specialize (F' _ Hin). discriminate. }
  unfold finalize, bind, lift in Hin.
  destruct processed as [| | | |items|]; cbn [py_add] in Hin;
    try (exfalso; exact (Hno st1 S Hin)).
  rewrite save_processed_jobs_trace, in_app_iff in Hin.
  destruct Hin as [Hin | [Hin | []]]; [exfalso; exact (Hno st1 S Hin)|].
  injection Hin as <-.
  rewrite (search_and_process_run _ _ _ _ _ _ L) in E.
  destruct (search_hrefs w google_url) as [hrefs|] eqn:Hs; [|discriminate E].
  destruct (collect_links_list lib items hrefs) as [links [Hc Hl]].
  rewrite Hc in E.
  destruct (for_each_link lib w k topic links [] _) as [[new'|] st2] eqn:EL;
    [|discriminate E].
  injection E as -> ->.
  destruct (for_each_link_new _ _ _ _ _ _ _ _ _ EL) as (sub & Esub & Hsub & Hnd).
  cbn [app] in Esub. subst sub.
  assert (forall x, In x (u :: new) -> In x links /\ ~ In (PStr x) items) as Hfresh.
  { intros x Hx. split; [now apply Hsub|].
    now destruct (Hl x (Hsub x Hx)) as (_ & _ & A & _). }
  exists k, topic, items, hrefs, links, (u :: new), st1.
  repeat match goal with |- _ /\ _ => split end;
    try reflexivity; try assumption; try discriminate.
  - rewrite (search_and_process_run _ _ _ _ _ _ L), Hs, Hc, EL. reflexivity.
  - intros NDi NDl. apply NoDup_app_map_PStr; auto.
    intros x Hx. now apply Hfresh.
Qed.

Lemma saved_list_has_no_duplicate_witness :
  (exists new,
      PList [PStr Examples.job1; PStr Examples.job2]
      = PList ([PStr Examples.job1] ++ List.map PStr new) /\
      (forall u, In u new -> ~ In (PStr u) [PStr Examples.job1]) /\
      NoDup ([PStr Examples.job1] ++ List.map PStr new)) /\
  (exists new,
      PList [PStr Examples.job2; PStr Examples.job2]
      = PList ([] ++ List.map PStr new) /\
      (forall u, In u new -> In u [Examples.job2; Examples.job2])).
Proof.
  split.
  - destruct (saved_list_has_no_duplicate Examples.lib0 Examples.world_yes
                Examples.env0 Examples.file1
                (PList [PStr Examples.job1; PStr Examples.job2]))
      as (k & topic & items & hrefs & links & new & st1 &
          _ & _ & L & Hs & Hc & _ & _ & Ev & Hf & Hn).
    + vm_compute. repeat (first [left; reflexivity | right]).
    + assert (items = [PStr Examples.job1]) as ->
        by (vm_compute in L; now injection L as <-).
      injection Hs as <-.
      assert (links = [Examples.job2]) as ->
        by (vm_compute in Hc; now injection Hc as <-).
      exists new. split; [exact Ev|]. split.
      * intros u Hu. now apply Hf.
      * apply Hn; repeat constructor; intros [].
  - destruct (saved_list_has_no_duplicate Examples.lib0 Examples.world_twice
                Examples.env0 FileAbsent
                (PList [PStr Examples.job2; PStr Examples.job2]))
      as (k & topic & items & hrefs & links & new & st1 &
          _ & _ & L & Hs & Hc & _ & _ & Ev & Hf & _).
    + vm_compute. repeat (first [left; reflexivity | right]).
    + assert (items = []) as -> by (vm_compute in L; now injection L as <-).
      injection Hs as <-.
      assert (links = [Examples.job2; Examples.job2]) as ->
        by (vm_compute in Hc; now injection Hc as <-).
      exists new. split; [exact Ev|]. intros u Hu. now apply Hf.
Defined.

(** C8, as stated, fails: the search page names the new link [job2] twice,
    both attempts are accepted, and the saved list holds [job2] twice. *)
Lemma link_named_twice_is_saved_twice :
  fst (get_processed_jobs Examples.lib0 (start FileAbsent)) = Ok (PList []) /\
  In (EvSave (PList [PStr Examples.job2; PStr Examples.job2]))
     (trace (snd (main Examples.lib0 Examples.world_twice Examples.env0
                    (start FileAbsent)))) /\
  file (snd (main Examples.lib0 Examples.world_twice Examples.env0 (start FileAbsent)))
  = FileText (Examples.dumps0 [Examples.job2; Examples.job2]) /\
  ~ NoDup [PStr Examples.job2; PStr Examples.job2].
Proof.
  split; [reflexivity|].
  split; [vm_compute; repeat (first [left; reflexivity | right])|].
  split; [vm_compute; reflexivity|].
  intros H. inversion H as [|x l Hx _]; subst. apply Hx. now left.
Qed.

(** ** [json.loads] after [json.dump]: lists of strings *)

Ltac Zify.zify_post_hook ::= Z.to_euclidean_division_equations.

Lemma hexval_hexdigit (d : N) : d < 16 -> hexval (hexdigit d) = Some d.
Proof.
  intros H. unfold hexval, hexdigit. destruct (d <? 10) eqn:E.
  - apply N.ltb_lt in E.
    replace (48 <=? 48 + d) with true by (symmetry; apply N.leb_le; lia).
    replace (48 + d <=? 57) with true by (symmetry; apply N.leb_le; lia).
    cbn [andb]. f_equal. lia.
  - apply N.ltb_ge in E.
    replace (48 <=? 87 + d) with true by (symmetry; apply N.leb_le; lia).
    replace (87 + d <=? 57) with false by (symmetry; apply N.leb_gt; lia).
    replace (97 <=? 87 + d) with true by (symmetry; apply N.leb_le; lia).
    replace (87 + d <=? 102) with true by (symmetry; apply N.leb_le; lia).
    cbn [andb]. f_equal. lia.
Qed.

Lemma hex4_digits (n : N) :
  n < 65536 ->
  hex4 (hexdigit (n / 4096 mod 16)) (hexdigit (n / 256 mod 16))
       (hexdigit (n / 16 mod 16)) (hexdigit (n mod 16)) = Some n.
Proof.
  intros H. unfold hex4.
  rewrite !hexval_hexdigit by (apply N.mod_lt; discriminate).
  f_equal. lia.
Qed.

Lemma scanstring_plain c r :
  (c =? 34) = false -> (c =? 92) = false -> (c <? 32) = false ->
  scanstring (c :: r) = scan_cons c (scanstring r).
Proof. intros A B C. cbn [scanstring]. now rewrite A, B, C. Qed.

Lemma scanstring_backslash e x r :
  (e =? 117) = false -> backslash e = Some x ->
  scanstring (92 :: e :: r) = scan_cons x (scanstring r).
Proof. intros A B. cbn [scanstring]. cbn [N.eqb Pos.eqb]. now rewrite A, B. Qed.

Lemma scanstring_u h1 h2 h3 h4 uni r :
  hex4 h1 h2 h3 h4 = Some uni -> is_high_surrogate uni = false ->
  scanstring (92 :: 117 :: h1 :: h2 :: h3 :: h4 :: r) = scan_cons uni (scanstring r).
Proof. intros A B. cbn [scanstring]. cbn [N.eqb Pos.eqb]. now rewrite A, B. Qed.

Lemma scanstring_pair h1 h2 h3 h4 g1 g2 g3 g4 hi lo r :
  hex4 h1 h2 h3 h4 = Some hi -> is_high_surrogate hi = true ->
  hex4 g1 g2 g3 g4 = Some lo -> is_low_surrogate lo = true ->
  scanstring (92 :: 117 :: h1 :: h2 :: h3 :: h4 ::
              92 :: 117 :: g1 :: g2 :: g3 :: g4 :: r)
  = scan_cons (join_surrogates hi lo) (scanstring r).
Proof.
  intros A B C D. cbn [scanstring]. cbn [N.eqb Pos.eqb andb].
  now rewrite A, B, C, D.
Qed.

Lemma lor_low_bits (a b : N) : b < 1024 -> N.lor (a * 1024) b = a * 1024 + b.
Proof.
  intros Hb.
  assert (N.land (a * 1024) b = 0) as Hl.
  { apply N.bits_inj. intros i. rewrite N.land_spec, N.bits_0.
    destruct (N.lt_ge_cases i 10) as [Hi | Hi].
    - change 1024 with (2 ^ 10). now rewrite N.mul_pow2_bits_low.
    - replace (N.testbit b i) with false; [apply andb_false_r|].
      symmetry. destruct (N.eq_dec b 0) as [-> | Hb0]; [apply N.bits_0|].
      apply N.bits_above_log2.
      apply N.lt_le_trans with 10; [|exact Hi].
      apply N.log2_lt_pow2; [lia | exact Hb]. }
  rewrite <- N.lxor_lor by exact Hl.
  symmetry. now apply N.add_nocarry_lxor.
Qed.

Lemma surrogate_pair_of (c : N) :
  65536 <= c -> c < 1114112 ->
  let n := c - 65536 in
  let hi := N.lor 55296 (N.land (N.shiftr n 10) 1023) in
  let lo := N.lor 56320 (N.land n 1023) in
  hi < 65536 /\ lo < 65536 /\
  is_high_surrogate hi = true /\ is_low_surrogate lo = true /\
  join_surrogates hi lo = c.
Proof.
  intros H1 H2 n hi lo.
  assert (n < 1048576) as Hn by (unfold n; lia).
  assert (N.land (N.shiftr n 10) 1023 = n / 1024) as E1.
  { change 1023 with (N.ones 10). rewrite N.land_ones, N.shiftr_div_pow2.
    change (2 ^ 10) with 1024. apply N.mod_small. lia. }
  assert (N.land n 1023 = n mod 1024) as E2.
  { change 1023 with (N.ones 10). now rewrite N.land_ones. }
  assert (hi = 55296 + n / 1024) as Hhi.
  { unfold hi. rewrite E1. change 55296 with (54 * 1024).
    apply lor_low_bits. lia. }
  assert (lo = 56320 + n mod 1024) as Hlo.
  { unfold lo. rewrite E2. change 56320 with (55 * 1024).
    apply lor_low_bits. lia. }
  assert (n / 1024 < 1024) as Hq by lia.
  assert (n mod 1024 < 1024) as Hr by lia.
  repeat split.
  - lia.
  - lia.
  - unfold is_high_surrogate. apply andb_true_iff.
    split; apply N.leb_le; lia.
  - unfold is_low_surrogate. apply andb_true_iff.
    split; apply N.leb_le; lia.
  - unfold join_surrogates. rewrite Hhi, Hlo.
    replace (55296 + n / 1024 - 55296) with (n / 1024) by lia.
    replace (56320 + n mod 1024 - 56320) with (n mod 1024) by lia.
    rewrite N.shiftl_mul_pow2. change (2 ^ 10) with 1024.
    rewrite lor_low_bits by exact Hr. unfold n in *. lia.
Qed.

(** The decoder reads back what the encoder wrote for one code point. *)
Lemma scanstring_escape_char (c : N) (r : pystr) :
  is_scalar c = true ->
  scanstring (escape_char c ++ r) = scan_cons c (scanstring r).
Proof.
  unfold is_scalar, is_surrogate. intros Hc.
  apply andb_true_iff in Hc. destruct Hc as [Hlt Hns].
  apply N.ltb_lt in Hlt. apply negb_true_iff in Hns.
  unfold escape_char.
  destruct (c =? 92) eqn:E92; [apply N.eqb_eq in E92; subst; reflexivity|].
  destruct (c =? 34) eqn:E34; [apply N.eqb_eq in E34; subst; reflexivity|].
  destruct ((32 <=? c) && (c <=? 126)) eqn:Ep.
  - apply andb_true_iff in Ep. destruct Ep as [Ep _]. apply N.leb_le in Ep.
    apply scanstring_plain; auto. apply N.ltb_ge. exact Ep.
  - destruct (c =? 8) eqn:E8; [apply N.eqb_eq in E8; subst; reflexivity|].
    destruct (c =? 12) eqn:E12; [apply N.eqb_eq in E12; subst; reflexivity|].
    destruct (c =? 10) eqn:E10; [apply N.eqb_eq in E10; subst; reflexivity|].
    destruct (c =? 13) eqn:E13; [apply N.eqb_eq in E13; subst; reflexivity|].
    destruct (c =? 9) eqn:E9; [apply N.eqb_eq in E9; subst; reflexivity|].
    destruct (c <? 65536) eqn:Eb.
    + apply N.ltb_lt in Eb. unfold u_escape. cbn [app].
      apply scanstring_u; [now apply hex4_digits|].
      unfold is_high_surrogate.
      apply andb_false_iff in Hns. apply andb_false_iff.
      destruct Hns as [H | H]; [now left|].
      right. apply N.leb_gt in H. apply N.leb_gt. lia.
    + apply N.ltb_ge in Eb.
      destruct (surrogate_pair_of c Eb Hlt) as (Hh & Hl & Hhs & Hls & Hj).
      cbv zeta in Hh, Hl, Hhs, Hls, Hj |- *.
      set (hi := N.lor 55296 (N.land (N.shiftr (c - 65536) 10) 1023)) in *.
      set (lo := N.lor 56320 (N.land (c - 65536) 1023)) in *.
      transitivity (scan_cons (join_surrogates hi lo) (scanstring r));
        [|now rewrite Hj].
      unfold u_escape. cbn [app].
      apply scanstring_pair; auto using hex4_digits.
Qed.

Lemma surrogate_bounds (c : N) :
  is_surrogate c = true <-> 55296 <= c <= 57343.
Proof.
  unfold is_surrogate. rewrite andb_true_iff, !N.leb_le. reflexivity.
Qed.

Lemma high_surrogate_bounds (c : N) :
  is_high_surrogate c = true <-> 55296 <= c <= 56319.
Proof.
  unfold is_high_surrogate. rewrite andb_true_iff, !N.leb_le. reflexivity.
Qed.

Lemma low_surrogate_bounds (c : N) :
  is_low_surrogate c = true <-> 56320 <= c <= 57343.
Proof.
  unfold is_low_surrogate. rewrite andb_true_iff, !N.leb_le. reflexivity.
Qed.

Lemma not_low_surrogate (c : N) :
  is_low_surrogate c = false <-> c < 56320 \/ 57343 < c.
Proof.
  unfold is_low_surrogate. rewrite andb_false_iff, !N.leb_gt. reflexivity.
Qed.

(** A surrogate is written as one escape. *)
Lemma escape_char_surrogate (c : N) :
  is_surrogate c = true -> escape_char c = u_escape c.
Proof.
  intros H. apply surrogate_bounds in H. unfold escape_char.
  replace (c =? 92) with false by (symmetry; apply N.eqb_neq; lia).
  replace (c =? 34) with false by (symmetry; apply N.eqb_neq; lia).
  replace (c <=? 126) with false by (symmetry; apply N.leb_gt; lia).
  rewrite andb_false_r.
  replace (c =? 8) with false by (symmetry; apply N.eqb_neq; lia).
  replace (c =? 12) with false by (symmetry; apply N.eqb_neq; lia).
  replace (c =? 10) with false by (symmetry; apply N.eqb_neq; lia).
  replace (c =? 13) with false by (symmetry; apply N.eqb_neq; lia).
  replace (c =? 9) with false by (symmetry; apply N.eqb_neq; lia).
  now replace (c <? 65536) with true by (symmetry; apply N.ltb_lt; lia).
Qed.

(** An escaped high surrogate is kept as it is unless the escape of a low
    surrogate follows. *)
Lemma scanstring_high_alone h1 h2 h3 h4 uni r :
  hex4 h1 h2 h3 h4 = Some uni ->
  (forall g1 g2 g3 g4 r3,
      r = 92 :: 117 :: g1 :: g2 :: g3 :: g4 :: r3 ->
      exists lo, hex4 g1 g2 g3 g4 = Some lo /\ is_low_surrogate lo = false) ->
  scanstring (92 :: 117 :: h1 :: h2 :: h3 :: h4 :: r) = scan_cons uni (scanstring r).
Proof.
  intros A H. cbn [scanstring]. cbn [N.eqb Pos.eqb]. rewrite A.
  destruct (is_high_surrogate uni); [|reflexivity].
  remember (scanstring r) as K eqn:EK.
  destruct r as [|b [|u [|g1 [|g2 [|g3 [|g4 r3]]]]]]; try reflexivity.
  destruct (b =? 92) eqn:Eb; [|reflexivity].
  destruct (u =? 117) eqn:Eu; [|reflexivity].
  apply N.eqb_eq in Eb, Eu. subst b u.
  destruct (H _ _ _ _ _ eq_refl) as [lo [Hx Hl]].
  cbn [andb]. now rewrite Hx, Hl.
Qed.

Lemma cons6_inj {A} (a b c1 c2 c3 c4 a' b' g1 g2 g3 g4 : A) (t t' : list A) :
  a :: b :: c1 :: c2 :: c3 :: c4 :: t = a' :: b' :: g1 :: g2 :: g3 :: g4 :: t' ->
  c1 = g1 /\ c2 = g2 /\ c3 = g3 /\ c4 = g4.
Proof. intros H. injection H as _ _ -> -> -> -> _. auto. Qed.

(** What the encoder writes for a code point that is no low surrogate does
    not start with the escape of a low surrogate. *)
Lemma escape_char_head (c : N) (rest : pystr) :
  c < 1114112 -> is_low_surrogate c = false ->
  forall g1 g2 g3 g4 r3,
    escape_char c ++ rest = 92 :: 117 :: g1 :: g2 :: g3 :: g4 :: r3 ->
    exists lo, hex4 g1 g2 g3 g4 = Some lo /\ is_low_surrogate lo = false.
Proof.
  intros Hlt Hlow g1 g2 g3 g4 r3. unfold escape_char.
  destruct (c =? 92) eqn:E92; [discriminate|].
  destruct (c =? 34) eqn:E34; [discriminate|].
  destruct ((32 <=? c) && (c <=? 126)) eqn:Ep.
  { intros H. injection H as -> _. discriminate E92. }
  destruct (c =? 8); [discriminate|].
  destruct (c =? 12); [discriminate|].
  destruct (c =? 10); [discriminate|].
  destruct (c =? 13); [discriminate|].
  destruct (c =? 9); [discriminate|].
  destruct (c <? 65536) eqn:Eb.
  - apply N.ltb_lt in Eb. unfold u_escape. cbn [app].
    intros H. apply cons6_inj in H. destruct H as (<- & <- & <- & <-).
    exists c. split; [now apply hex4_digits | exact Hlow].
  - apply N.ltb_ge in Eb.
    destruct (surrogate_pair_of c Eb Hlt) as (Hh & _ & Hhs & _).
    cbv zeta in Hh, Hhs |- *.
    set (hi := N.lor 55296 (N.land (N.shiftr (c - 65536) 10) 1023)) in *.
    unfold u_escape. cbn [app].
    intros H. apply cons6_inj in H. destruct H as (<- & <- & <- & <-).
    exists hi. split; [now apply hex4_digits|].
    apply high_surrogate_bounds in Hhs. apply not_low_surrogate. lia.
Qed.

Lemma rereadable_tail (c : N) (s : pystr) : rereadable (c :: s) -> rereadable s.
Proof.
  intros [F P]. split; [now inversion F | exact (proj2 P)].
Qed.

Lemma scalar_rereadable (s : pystr) : scalar_str s -> rereadable s.
Proof.
  intros H. split.
  - eapply Forall_impl; [|exact H]. intros c Hc.
    unfold is_scalar in Hc. apply andb_true_iff in Hc.
    now apply N.ltb_lt.
  - induction H as [|c s Hc Hs IH]; [exact I|]. split; [|exact IH].
    destruct s as [|d s']; [exact I|].
    unfold is_scalar, is_surrogate in Hc.
    apply andb_true_iff in Hc. destruct Hc as [_ Hc].
    apply negb_true_iff, andb_false_iff in Hc.
    apply andb_false_iff. left. unfold is_high_surrogate. apply andb_false_iff.
    destruct Hc as [Hc | Hc]; [now left|].
    right. apply N.leb_gt in Hc. apply N.leb_gt. lia.
Qed.

(** The decoder reads back what the encoder wrote for a string. *)
Lemma scanstring_encoded (s r : pystr) :
  rereadable s ->
  scanstring (flat_map escape_char s ++ 34 :: r) = Some (s, r).
Proof.
  induction s as [|c s IH]; intros Hs; [reflexivity|].
  pose proof (rereadable_tail _ _ Hs) as Hs'.
  cbn [flat_map]. rewrite <- app_assoc.
  assert (scanstring (escape_char c ++ flat_map escape_char s ++ 34 :: r)
          = scan_cons c (scanstring (flat_map escape_char s ++ 34 :: r))) as ->;
    [|now rewrite (IH Hs')].
  destruct (is_scalar c) eqn:Ec; [now apply scanstring_escape_char|].
  destruct Hs as [F P]. inversion F as [|? ? Hlt _]; subst.
  assert (is_surrogate c = true) as Hsur.
  { unfold is_scalar in Ec. apply andb_false_iff in Ec.
    destruct Ec as [Ec | Ec]; [apply N.ltb_ge in Ec; lia|].
    now apply negb_false_iff in Ec. }
  rewrite (escape_char_surrogate c Hsur). unfold u_escape. cbn [app].
  apply surrogate_bounds in Hsur.
  destruct (is_high_surrogate c) eqn:Eh.
  - apply scanstring_high_alone; [apply hex4_digits; lia|].
    destruct s as [|d s'].
    + intros g1 g2 g3 g4 r3 H. discriminate H.
    + destruct P as [P _]. rewrite Eh in P. cbn [andb] in P.
      destruct Hs' as [F' _]. inversion F' as [|? ? Hd _]; subst.
      cbn [flat_map]. rewrite <- app_assoc.
      now apply escape_char_head.
  - apply scanstring_u; [apply hex4_digits; lia | exact Eh].
Qed.

Lemma scan_once_encoded d fuel depth (s r : pystr) :
  rereadable s ->
  scan_once d (S fuel) depth (encode_basestring_ascii s ++ r) = Ok (PStr s, r).
Proof.
  intros Hs. unfold encode_basestring_ascii.
  cbn [app scan_once N.eqb Pos.eqb].
  rewrite <- app_assoc. cbn [app]. now rewrite scanstring_encoded.
Qed.

Lemma join_encoded_head (s : pystr) (l : list pystr) :
  exists J,
    join item_separator (List.map encode_basestring_ascii (s :: l)) = 34 :: J.
Proof.
  destruct l as [|s2 l]; cbn [List.map join]; unfold encode_basestring_ascii;
    cbn [app]; eauto.
Qed.

Lemma array_items_step d fuel depth (s rest : pystr) :
  rereadable s -> (0 < fuel)%nat ->
  array_items d (S fuel) depth (encode_basestring_ascii s ++ rest) =
  match skip_ws rest with
  | c :: r' =>
      if c =? 93 then Ok ([PStr s], r')
      else if c =? 44 then
        match array_items d fuel depth (skip_ws r') with
        | Ok (vs, rest') => Ok (PStr s :: vs, rest')
        | Raise e => Raise e
        end
      else Raise JSONDecodeError
  | [] => Raise JSONDecodeError
  end.
Proof.
  intros Hs Hf. cbn [array_items].
  destruct fuel as [|fuel]; [inversion Hf|].
  now rewrite scan_once_encoded.
Qed.

Lemma array_items_encoded d depth (l : list pystr) :
  forall fuel r,
    Forall rereadable l -> l <> [] -> (List.length l < fuel)%nat ->
    array_items d fuel depth
      (join item_separator (List.map encode_basestring_ascii l) ++ 10 :: 93 :: r)
    = Ok (List.map PStr l, r).
Proof.
  induction l as [|s l IH]; intros fuel r Hs Hne Hf; [congruence|].
  inversion Hs as [|? ? Hs1 Hs2]; subst.
  destruct fuel as [|fuel]; [inversion Hf|].
  assert (0 < fuel)%nat as Hpos by (simpl in Hf; lia).
  destruct l as [|s2 l].
  - cbn [List.map join]. now rewrite array_items_step.
  - change (join item_separator
              (List.map encode_basestring_ascii (s :: s2 :: l)))
      with (encode_basestring_ascii s ++ item_separator ++
            join item_separator (List.map encode_basestring_ascii (s2 :: l))).
    rewrite <- !app_assoc. rewrite array_items_step by assumption.
    unfold item_separator at 1. cbn [app skip_ws is_json_ws N.eqb Pos.eqb orb].
    destruct (join_encoded_head s2 l) as [J HJ].
    assert (skip_ws (join item_separator
                       (List.map encode_basestring_ascii (s2 :: l)) ++ 10 :: 93 :: r)
            = join item_separator
                (List.map encode_basestring_ascii (s2 :: l)) ++ 10 :: 93 :: r) as Hsk
      by (rewrite HJ; reflexivity).
    rewrite Hsk, IH; [reflexivity | exact Hs2 | discriminate |].
    simpl in Hf |- *. lia.
Qed.

Lemma length_join_encoded (l : list pystr) :
  (List.length l <=
   List.length (join item_separator (List.map encode_basestring_ascii l)))%nat.
Proof.
  induction l as [|s [|s2 l] IH].
  - apply Nat.le_refl.
  - simpl. lia.
  - change (join item_separator
              (List.map encode_basestring_ascii (s :: s2 :: l)))
      with (encode_basestring_ascii s ++ item_separator ++
            join item_separator (List.map encode_basestring_ascii (s2 :: l))).
    rewrite !length_app. simpl List.length in IH |- *. lia.
Qed.

(** The text [json.dump] writes for a list of strings. *)
Lemma json_dumps_strings nr (l : list pystr) :
  json_dumps nr (PList (List.map PStr l)) =
  match l with
  | [] => [91; 93]
  | _ :: _ =>
      91 :: 10 :: 32 :: 32 ::
      join item_separator (List.map encode_basestring_ascii l) ++ [10; 93]
  end.
Proof.
  destruct l as [|s l]; [reflexivity|].
  unfold json_dumps. cbn [List.map iterencode].
  rewrite map_map. cbn [iterencode]. reflexivity.
Qed.

(** Reading back what was written gives the same list of strings, within
    any limits. *)
Lemma json_loads_dumps_rereadable lim nr (l : list pystr) :
  Forall rereadable l ->
  json_loads lim (json_dumps nr (PList (List.map PStr l)))
  = Ok (PList (List.map PStr l)).
Proof.
  intros Hs. rewrite json_dumps_strings. destruct l as [|s l]; [reflexivity|].
  rewrite json_loads_scan.
  set (J := join item_separator (List.map encode_basestring_ascii (s :: l))).
  assert (exists fuel, json_fuel (91 :: 10 :: 32 :: 32 :: J ++ [10; 93]) = S fuel /\
                       (List.length (s :: l) < fuel)%nat) as [fuel [-> Hf]].
  { exists (Nat.add (Nat.mul 2 (List.length (91 :: 10 :: 32 :: 32 :: J ++ [10; 93]))) 1).
    split; [unfold json_fuel; lia|].
    pose proof (length_join_encoded (s :: l)) as HL. fold J in HL.
    cbn [List.length]. rewrite length_app. cbn [List.length] in HL |- *. lia. }
  destruct (join_encoded_head s l) as [J' HJ]. fold J in HJ.
  cbn [scan_once N.eqb Pos.eqb skip_ws is_json_ws orb].
  rewrite HJ. cbn [app skip_ws is_json_ws N.eqb Pos.eqb orb].
  replace (34 :: J' ++ [10; 93]) with (J ++ 10 :: 93 :: [])
    by (rewrite HJ; reflexivity).
  unfold J. rewrite array_items_encoded; [reflexivity | exact Hs | discriminate | exact Hf].
Qed.

Lemma json_loads_dumps_strings lim nr (l : list pystr) :
  Forall scalar_str l ->
  json_loads lim (json_dumps nr (PList (List.map PStr l)))
  = Ok (PList (List.map PStr l)).
Proof.
  intros Hs. apply json_loads_dumps_rereadable.
  eapply Forall_impl; [|exact Hs]. apply scalar_rereadable.
Qed.

(** ** What the decoder returns for a decoded text *)

Lemma hexval_bound (c v : N) : hexval c = Some v -> v < 16.
Proof.
  unfold hexval.
  destruct ((48 <=? c) && (c <=? 57)) eqn:E1.
  { apply andb_true_iff in E1. destruct E1 as [A B].
    apply N.leb_le in A. apply N.leb_le in B.
    intros H. injection H as <-. lia. }
  destruct ((97 <=? c) && (c <=? 102)) eqn:E2.
  { apply andb_true_iff in E2. destruct E2 as [A B].
    apply N.leb_le in A. apply N.leb_le in B.
    intros H. injection H as <-. lia. }
  destruct ((65 <=? c) && (c <=? 70)) eqn:E3; [|discriminate].
  apply andb_true_iff in E3. destruct E3 as [A B].
  apply N.leb_le in A. apply N.leb_le in B.
  intros H. injection H as <-. lia.
Qed.

Lemma hex4_bound (a b c d n : N) : hex4 a b c d = Some n -> n < 65536.
Proof.
  unfold hex4.
  destruct (hexval a) as [x|] eqn:Ea; [|discriminate].
  destruct (hexval b) as [y|] eqn:Eb; [|discriminate].
  destruct (hexval c) as [z|] eqn:Ec; [|discriminate].
  destruct (hexval d) as [t|] eqn:Ed; [|discriminate].
  apply hexval_bound in Ea, Eb, Ec, Ed.
  intros H. injection H as <-. lia.
Qed.

Lemma backslash_bound (e v : N) : backslash e = Some v -> v < 128.
Proof.
  unfold backslash.
  repeat match goal with
         | |- (if ?b then _ else _) = _ -> _ => destruct b
         end; intros H; try discriminate H; injection H as <-; lia.
Qed.

Lemma join_surrogates_bounds (hi lo : N) :
  is_high_surrogate hi = true -> is_low_surrogate lo = true ->
  65536 <= join_surrogates hi lo < 1114112.
Proof.
  intros Hh Hl. apply high_surrogate_bounds in Hh. apply low_surrogate_bounds in Hl.
  unfold join_surrogates. rewrite N.shiftl_mul_pow2. change (2 ^ 10) with 1024.
  rewrite lor_low_bits by lia. lia.
Qed.

Lemma scalar_not_surrogate (c : N) :
  is_scalar c = true -> c < 1114112 /\ is_surrogate c = false.
Proof.
  unfold is_scalar. intros H. apply andb_true_iff in H. destruct H as [A B].
  split; [now apply N.ltb_lt | now apply negb_true_iff].
Qed.

(** One step of the decoder on a string literal: the literal ends, or one
    code point is read from a non-empty piece of the text.  A surrogate comes
    from an escape only, and a high surrogate is not followed by the escape
    of a low one. *)
Lemma scanstring_step (s x rest : pystr) :
  scalar_str s -> scanstring s = Some (x, rest) ->
  (x = [] /\ s = 34 :: rest) \/
  exists c x' pre r',
    x = c :: x' /\ s = pre ++ r' /\ pre <> [] /\
    scanstring r' = Some (x', rest) /\ c < 1114112 /\
    (is_surrogate c = true ->
     exists h1 h2 h3 h4,
       pre = [92; 117; h1; h2; h3; h4] /\ hex4 h1 h2 h3 h4 = Some c /\
       (is_high_surrogate c = true ->
        forall g1 g2 g3 g4 r3 lo,
          r' = 92 :: 117 :: g1 :: g2 :: g3 :: g4 :: r3 ->
          hex4 g1 g2 g3 g4 = Some lo -> is_low_surrogate lo = false)).
Proof.
  intros Hs. destruct s as [|c r]; [discriminate|].
  inversion Hs as [|? ? Hc Hr]; subst.
  apply scalar_not_surrogate in Hc. destruct Hc as [Hc1 Hc2].
  cbn [scanstring].
  destruct (c =? 34) eqn:E34.
  { apply N.eqb_eq in E34. subst c. intros H. injection H as <- <-. now left. }
  destruct (c =? 92) eqn:E92.
  2:{ destruct (c <? 32); [discriminate|].
      destruct (scanstring r) as [[x' rest']|] eqn:ES; [|discriminate].
      intros H. injection H as <- <-. right.
      exists c, x', [c], r.
      repeat split; auto; try discriminate. congruence. }
  apply N.eqb_eq in E92. subst c.
  destruct r as [|e r1]; [discriminate|].
  destruct (e =? 117) eqn:E117.
  2:{ destruct (backslash e) as [v|] eqn:EB; [|discriminate].
      destruct (scanstring r1) as [[x' rest']|] eqn:ES; [|discriminate].
      intros H. injection H as <- <-. right.
      exists v, x', [92; e], r1.
      apply backslash_bound in EB.
      repeat split; auto; try discriminate; [lia|].
      intros Hsur. apply surrogate_bounds in Hsur. lia. }
  apply N.eqb_eq in E117. subst e.
  destruct r1 as [|h1 [|h2 [|h3 [|h4 r2]]]]; try discriminate.
  destruct (hex4 h1 h2 h3 h4) as [uni|] eqn:EH; [|discriminate].
  pose proof (hex4_bound _ _ _ _ _ EH) as Hb.
  assert (forall x' rest',
             scanstring r2 = Some (x', rest') ->
             (is_high_surrogate uni = true ->
              forall g1 g2 g3 g4 r3 lo,
                r2 = 92 :: 117 :: g1 :: g2 :: g3 :: g4 :: r3 ->
                hex4 g1 g2 g3 g4 = Some lo -> is_low_surrogate lo = false) ->
             Some (uni :: x', rest') = Some (x, rest) ->
             (x = [] /\ 92 :: 117 :: h1 :: h2 :: h3 :: h4 :: r2 = 34 :: rest) \/
             exists c x0 pre r',
               x = c :: x0 /\
               92 :: 117 :: h1 :: h2 :: h3 :: h4 :: r2 = pre ++ r' /\ pre <> [] /\
               scanstring r' = Some (x0, rest) /\ c < 1114112 /\
               (is_surrogate c = true ->
                exists k1 k2 k3 k4,
                  pre = [92; 117; k1; k2; k3; k4] /\ hex4 k1 k2 k3 k4 = Some c /\
                  (is_high_surrogate c = true ->
                   forall g1 g2 g3 g4 r3 lo,
                     r' = 92 :: 117 :: g1 :: g2 :: g3 :: g4 :: r3 ->
                     hex4 g1 g2 g3 g4 = Some lo -> is_low_surrogate lo = false)))
    as Alone.
  { intros x' rest' ES Hhigh H. injection H as <- <-. right.
    exists uni, x', [92; 117; h1; h2; h3; h4], r2.
    repeat split; auto; try discriminate; [lia|].
    intros _. exists h1, h2, h3, h4. repeat split; auto. }
  destruct (is_high_surrogate uni) eqn:EHi.
  2:{ destruct (scanstring r2) as [[x' rest']|] eqn:ES; [|discriminate].
      apply (Alone x' rest' eq_refl). discriminate. }
  remember (scanstring r2) as K eqn:EK.
  assert (forall x' rest',
             K = Some (x', rest') ->
             (forall g1 g2 g3 g4 r3 lo,
                r2 = 92 :: 117 :: g1 :: g2 :: g3 :: g4 :: r3 ->
                hex4 g1 g2 g3 g4 = Some lo -> is_low_surrogate lo = false) ->
             Some (uni :: x', rest') = Some (x, rest) -> _) as Alone'
    by (intros x' rest' E H; apply (Alone x' rest' E); intros _; exact H).
  clear Alone.
  destruct r2 as [|b [|u [|g1 [|g2 [|g3 [|g4 r3]]]]]];
    try (destruct K as [[x' rest']|]; [|discriminate];
         apply (Alone' x' rest' eq_refl); intros; discriminate).
  destruct ((b =? 92) && (u =? 117)) eqn:Ebu.
  2:{ destruct K as [[x' rest']|]; [|discriminate].
      apply (Alone' x' rest' eq_refl).
      intros k1 k2 k3 k4 r3' lo H. injection H as -> -> _.
      discriminate Ebu. }
  destruct (hex4 g1 g2 g3 g4) as [uni2|] eqn:EG; [|discriminate].
  destruct (is_low_surrogate uni2) eqn:ELo.
  2:{ destruct K as [[x' rest']|]; [|discriminate].
      apply (Alone' x' rest' eq_refl).
      intros k1 k2 k3 k4 r3' lo H. apply cons6_inj in H.
      destruct H as (<- & <- & <- & <-). congruence. }
  clear Alone' EK K.
  destruct (scanstring r3) as [[x' rest']|] eqn:ES; [|discriminate].
  intros H. injection H as <- <-. right.
  apply andb_true_iff in Ebu. destruct Ebu as [Eb Eu].
  apply N.eqb_eq in Eb, Eu. subst b u.
  destruct (join_surrogates_bounds uni uni2 EHi ELo) as [J1 J2].
  exists (join_surrogates uni uni2), x',
    [92; 117; h1; h2; h3; h4; 92; 117; g1; g2; g3; g4], r3.
  repeat split; auto; try discriminate.
  intros Hsur. apply surrogate_bounds in Hsur. lia.
Qed.

Lemma scalar_str_forallb (s : pystr) : forallb is_scalar s = true -> scalar_str s.
Proof.
  intros H. apply Forall_forall. intros c Hc.
  rewrite forallb_forall in H. now apply H.
Qed.

Lemma scalar_str_app (a b : pystr) : scalar_str (a ++ b) -> scalar_str b.
Proof. unfold scalar_str. rewrite Forall_app. tauto. Qed.

Lemma skip_ws_scalar (s : pystr) : scalar_str s -> scalar_str (skip_ws s).
Proof.
  induction 1 as [|c s Hc Hs IH]; [constructor|].
  cbn [skip_ws]. destruct (is_json_ws c); [exact IH | now constructor].
Qed.

(** Every string the decoder reads from a decoded text is read back as it
    was written: it holds no split pair.  A low surrogate at its head comes
    from an escape at the head of the text. *)
Lemma scanstring_loaded (n : nat) :
  forall s x rest,
    (List.length s <= n)%nat -> scalar_str s -> scanstring s = Some (x, rest) ->
    scalar_str rest /\ rereadable x /\
    (forall c x', x = c :: x' -> is_low_surrogate c = true ->
       exists g1 g2 g3 g4 r3,
         s = 92 :: 117 :: g1 :: g2 :: g3 :: g4 :: r3 /\ hex4 g1 g2 g3 g4 = Some c).
Proof.
  induction n as [|n IH]; intros s x rest Hn Hs E.
  - destruct s; [discriminate E | inversion Hn].
  - destruct (scanstring_step s x rest Hs E)
      as [[-> ->] | (c & x' & pre & r' & -> & -> & Hpre & E' & Hc & Hsur)].
    + split; [now inversion Hs|]. split; [now split|].
      intros c x' H. discriminate H.
    + assert (List.length r' <= n)%nat as Hn'.
      { rewrite length_app in Hn. destruct pre; [congruence|].
        cbn [List.length] in Hn. lia. }
      pose proof (scalar_str_app _ _ Hs) as Hs'.
      destruct (IH r' x' rest Hn' Hs' E') as (Hrest & [F P] & Hhead).
      split; [exact Hrest|]. split; [split|].
      * now constructor.
      * split; [|exact P].
        destruct x' as [|d x'']; [exact I|].
        destruct (is_high_surrogate c) eqn:Eh; [|reflexivity].
        destruct (is_low_surrogate d) eqn:El; [|reflexivity].
        exfalso.
        assert (is_surrogate c = true) as Hs1.
        { apply high_surrogate_bounds in Eh. apply surrogate_bounds. lia. }
        destruct (Hsur Hs1) as (h1 & h2 & h3 & h4 & _ & _ & Hhigh).
        destruct (Hhead d x'' eq_refl El) as (g1 & g2 & g3 & g4 & r3 & -> & Hg).
        rewrite (Hhigh eq_refl _ _ _ _ _ _ eq_refl Hg) in El. discriminate El.
      * intros c0 x0 H Hl. injection H as <- <-.
        assert (is_surrogate c = true) as Hs1.
        { apply low_surrogate_bounds in Hl. apply surrogate_bounds. lia. }
        destruct (Hsur Hs1) as (h1 & h2 & h3 & h4 & -> & Hh & _).
        now exists h1, h2, h3, h4, r'.
Qed.

(** The decoder returns a string for a string literal only. *)
Lemma scan_once_PStr d fuel depth (s x rest : pystr) :
  scan_once d fuel depth s = Ok (PStr x, rest) ->
  exists r, s = 34 :: r /\ scanstring r = Some (x, rest).
Proof.
  destruct fuel as [|fuel]; [discriminate|].
  destruct s as [|c r]; [discriminate|].
  cbn [scan_once]. destruct (c =? 34) eqn:E.
  - apply N.eqb_eq in E. subst c.
    destruct (scanstring r) as [[x' rest']|] eqn:ES; intros H; [|discriminate H].
    injection H as <- <-. now exists r.
  - decoder_cases; intros H; discriminate H.
Qed.

(** The decoder returns a list for an array only. *)
Lemma scan_once_PList d fuel depth (s : pystr) (vs : list pyval) (rest : pystr) :
  scan_once d fuel depth s = Ok (PList vs, rest) ->
  vs = [] \/
  exists fuel' depth' r c' r',
    fuel = S fuel' /\ s = 91 :: r /\ skip_ws r = c' :: r' /\
    array_items d fuel' depth' (c' :: r') = Ok (vs, rest).
Proof.
  destruct fuel as [|fuel]; [discriminate|].
  destruct s as [|c r]; [discriminate|].
  cbn [scan_once].
  destruct (c =? 34); [decoder_cases; intros H; discriminate H|].
  destruct (c =? 123); [decoder_cases; intros H; discriminate H|].
  destruct (c =? 91) eqn:E; [|decoder_cases; intros H; discriminate H].
  apply N.eqb_eq in E. subst c.
  destruct depth as [|depth']; [discriminate|].
  destruct (skip_ws r) as [|c' r'] eqn:Er; [discriminate|].
  destruct (c' =? 93).
  - intros H. injection H as <- _. now left.
  - destruct (array_items d fuel depth' (c' :: r')) as [[vs' rest']|] eqn:EA;
      intros H; [|discriminate H].
    injection H as <- <-. right. now exists fuel, depth', r, c', r'.
Qed.

Lemma array_items_loaded d depth (fuel : nat) :
  forall s (l : list pystr) rest,
    scalar_str s ->
    array_items d fuel depth s = Ok (List.map PStr l, rest) ->
    Forall rereadable l.
Proof.
  induction fuel as [|fuel IH]; intros s l rest Hs E; [discriminate E|].
  cbn [array_items] in E.
  destruct (scan_once d fuel depth s) as [[v r]|] eqn:E1; [|discriminate E].
  destruct (skip_ws r) as [|c r'] eqn:Er; [discriminate E|].
  assert (forall x, v = PStr x -> rereadable x /\ scalar_str r') as Hv.
  { intros x ->. apply scan_once_PStr in E1. destruct E1 as (r0 & -> & E1).
    assert (scalar_str r0) as Hr0 by (now inversion Hs).
    destruct (scanstring_loaded _ r0 x r (Nat.le_refl _) Hr0 E1) as (Hr & Hx & _).
    split; [exact Hx|].
    apply skip_ws_scalar in Hr. rewrite Er in Hr. now inversion Hr. }
  destruct (c =? 93).
  - injection E as E _. destruct l as [|x [|y l]]; try discriminate E.
    injection E as ->. constructor; [|constructor]. now apply Hv.
  - destruct (c =? 44); [|discriminate E].
    destruct (array_items d fuel depth (skip_ws r')) as [[vs rest']|] eqn:E2;
      [|discriminate E].
    injection E as E _. destruct l as [|x l]; [discriminate E|].
    injection E as -> ->.
    destruct (Hv x eq_refl) as [Hx Hr'].
    constructor; [exact Hx|].
    apply (IH (skip_ws r') l rest'); [now apply skip_ws_scalar | exact E2].
Qed.

(** The strings of a list loaded from a decoded text. *)
Lemma json_loads_strings_rereadable lim (t : pystr) (l : list pystr) :
  scalar_str t ->
  json_loads lim t = Ok (PList (List.map PStr l)) ->
  Forall rereadable l.
Proof.
  intros Ht E.
  destruct t as [|c t'].
  { discriminate E. }
  rewrite json_loads_scan in E.
  destruct (scan_once _ _ _ _) as [[v rest]|] eqn:E1; [|discriminate E].
  destruct (skip_ws rest); [|discriminate E].
  injection E as ->.
  apply scan_once_PList in E1.
  destruct E1 as [E1 | (fuel' & depth' & r & c' & r' & _ & Es & Er & EA)].
  - destruct l; [constructor | discriminate E1].
  - apply (array_items_loaded _ _ _ _ _ _) with (2 := EA).
    apply skip_ws_scalar in Ht. rewrite Es in Ht.
    assert (scalar_str r) as Hr by (now inversion Ht).
    apply skip_ws_scalar in Hr. now rewrite Er in Hr.
Qed.




(** ** The final step *)

Lemma count_app p (a b : list event) : count p (a ++ b) = (count p a + count p b)%nat.
Proof. unfold count. now rewrite filter_app, length_app. Qed.

Lemma count_none p (evs : list event) :
  Forall (fun ev => p ev = false) evs -> count p evs = 0%nat.
Proof.
  unfold count. induction 1 as [|ev evs H _ IH]; [reflexivity|].
  simpl. now rewrite H.
Qed.



(** C2, as stated, fails: the state file holds a JSON object, the run
    accepts two links, and the final step raises [TypeError]: the saver is
    never called, the file is as it was, and no status notification is sent
    either. *)
Lemma accepted_links_are_not_persisted_after_an_object :
  fst (search_and_process Examples.lib0 Examples.world_yes Examples.key0
         Examples.topic0 (start Examples.file_object))
  = Ok (PDict [], [Examples.job1; Examples.job2]) /\
  fst (main Examples.lib0 Examples.world_yes Examples.env0
         (start Examples.file_object)) = Raise TypeError /\
  file (snd (main Examples.lib0 Examples.world_yes Examples.env0
               (start Examples.file_object))) = Examples.file_object /\
  count is_save
    (trace (snd (main Examples.lib0 Examples.world_yes Examples.env0
                   (start Examples.file_object)))) = 0%nat /\
  count is_status_notification
    (trace (snd (main Examples.lib0 Examples.world_yes Examples.env0
                   (start Examples.file_object)))) = 0%nat.
Proof. vm_compute. repeat split. Qed.

(** * Further properties of the script *)

(** ** Runs that stop early *)

Lemma truthy_unset (o : option pystr) : unset o -> truthy o = None.
Proof. intros [-> | ->]; reflexivity. Qed.

(** X1.  When [GEMINI_API_KEY] or [NTFY_TOPIC] is missing or empty, [main]
    returns at once: no file is read, no request is sent, nothing is saved. *)
Theorem main_returns_without_credentials lib w env st :
  unset (GEMINI_API_KEY env) \/ unset (NTFY_TOPIC env) ->
  main lib w env st = (Ok tt, st).
Proof.
  intros [H | H]; apply truthy_unset in H; apply main_without_credentials; auto.
Qed.

Lemma main_returns_without_credentials_witness :
  main Examples.lib0 Examples.world_yes Examples.env_no_topic (start FileDenied)
  = (Ok tt, start FileDenied).
Proof.
  apply main_returns_without_credentials. right. left. reflexivity.
Defined.

Lemma search_and_process_stops_at_load lib w k topic st e :
  fst (get_processed_jobs lib st) = Raise e \/
  (exists v, fst (get_processed_jobs lib st) = Ok v /\ py_len v = Raise e) ->
  search_and_process lib w k topic st = (Raise e, st).
Proof.
  intros H. unfold search_and_process, bind at 1.
  pose proof (get_processed_jobs_state lib st) as S.
  destruct (get_processed_jobs lib st) as [r st0]; simpl in H, S; subst st0.
  destruct H as [-> | [v [-> Hl]]]; [reflexivity|].
  unfold bind at 1, lift at 1. now rewrite Hl.
Qed.

(** X2.  When the state file cannot be loaded (an error other than a missing
    file or invalid JSON) or holds a JSON value that has no length (null, a
    boolean, a number), the run ends with that error before the search: no
    request is sent and the file is left as it was. *)
Theorem run_stops_when_state_unusable lib w env f0 k topic e :
  truthy (GEMINI_API_KEY env) = Some k ->
  truthy (NTFY_TOPIC env) = Some topic ->
  fst (get_processed_jobs lib (start f0)) = Raise e \/
  (exists v, fst (get_processed_jobs lib (start f0)) = Ok v /\ py_len v = Raise e) ->
  main lib w env (start f0) = (Raise e, start f0).
Proof.
  intros K T H. rewrite (main_run _ _ _ _ _ _ K T).
  now rewrite (search_and_process_stops_at_load _ _ _ _ _ _ H).
Qed.

Lemma run_stops_when_state_unusable_witness :
  main Examples.lib0 Examples.world_yes Examples.env0 (start FileDenied)
  = (Raise PermissionError, start FileDenied) /\
  main Examples.lib0 Examples.world_yes Examples.env0 (start Examples.file_null)
  = (Raise TypeError, start Examples.file_null).
Proof.
  split.
  - apply (run_stops_when_state_unusable _ _ _ _ Examples.key0 Examples.topic0);
      [reflexivity | reflexivity |]. left. reflexivity.
  - apply (run_stops_when_state_unusable _ _ _ _ Examples.key0 Examples.topic0);
      [reflexivity | reflexivity |]. right. exists PNone. split; reflexivity.
Defined.

(** X3.  The search request is not guarded: when it raises, [main] raises the
    same exception right after it; no page is fetched, nothing is notified and
    nothing is saved. *)
Theorem run_stops_when_search_fails lib w env f0 k topic v n e :
  truthy (GEMINI_API_KEY env) = Some k ->
  truthy (NTFY_TOPIC env) = Some topic ->
  fst (get_processed_jobs lib (start f0)) = Ok v ->
  py_len v = Ok n ->
  search_hrefs w google_url = Raise e ->
  main lib w env (start f0) = (Raise e, after (start f0) [EvSearch google_url]).
Proof.
  intros K T L Hn Hs. rewrite (main_run _ _ _ _ _ _ K T).
  unfold search_and_process, bind at 1.
  pose proof (get_processed_jobs_state lib (start f0)) as S.
  destruct (get_processed_jobs lib (start f0)) as [r st0]; simpl in L, S; subst r st0.
  unfold bind at 1, lift at 1. rewrite Hn.
  unfold bind at 1, emit. unfold bind at 1, lift at 1. now rewrite Hs.
Qed.

Lemma run_stops_when_search_fails_witness :
  main Examples.lib0 Examples.world_search_down Examples.env0 (start Examples.file1)
  = (Raise (RequestException ConnectionError),
     after (start Examples.file1) [EvSearch google_url]).
Proof.
  apply (run_stops_when_search_fails _ _ _ _ Examples.key0 Examples.topic0
           (PList [PStr Examples.job1]) 1%nat).
  - reflexivity.
  - reflexivity.
  - vm_compute. reflexivity.
  - reflexivity.
  - reflexivity.
Defined.

(** X4.  When the state file holds JSON that is not a list (an object or a
    string, which have a length) and the run accepts a link, the final
    [processed_jobs + new_jobs_found] raises [TypeError]: the run ends with
    that error after its notifications were sent, [save_processed_jobs] is
    not called and the file stays as it was, so the accepted links are not
    recorded. *)
Theorem accepted_links_lost_when_state_is_not_a_list
    lib w env f0 k topic processed new st1 :
  truthy (GEMINI_API_KEY env) = Some k ->
  truthy (NTFY_TOPIC env) = Some topic ->
  search_and_process lib w k topic (start f0) = (Ok (processed, new), st1) ->
  new <> [] ->
  (forall items, processed <> PList items) ->
  main lib w env (start f0) = (Raise TypeError, st1) /\
  file st1 = f0 /\
  count is_save (trace st1) = 0%nat.
Proof.
  intros K T E Hne Hnl.
  destruct (emits_search_and_process lib w k topic (start f0)) as [evs [S F]].
  rewrite E in S; simpl in S.
  split; [|split].
  - rewrite (main_run _ _ _ _ _ _ K T), E. cbn [fst snd].
    destruct new as [|u new]; [congruence|].
    unfold finalize, bind, lift.
    destruct processed; try reflexivity. now destruct (Hnl items).
  - now subst st1.
  - subst st1. simpl. apply count_none.
    eapply Forall_impl; [|exact F]. now intros ev [H _].
Qed.

Lemma accepted_links_lost_when_state_is_not_a_list_witness :
  fst (main Examples.lib0 Examples.world_yes Examples.env0
         (start Examples.file_object)) = Raise TypeError /\
  file (snd (search_and_process Examples.lib0 Examples.world_yes Examples.key0
               Examples.topic0 (start Examples.file_object)))
  = Examples.file_object.
Proof.
  pose (st1 := snd (search_and_process Examples.lib0 Examples.world_yes
                      Examples.key0 Examples.topic0 (start Examples.file_object))).
  assert (search_and_process Examples.lib0 Examples.world_yes
            Examples.key0 Examples.topic0 (start Examples.file_object)
          = (Ok (PDict [], [Examples.job1; Examples.job2]), st1)) as E
    by (vm_compute; reflexivity).
  destruct (accepted_links_lost_when_state_is_not_a_list
              Examples.lib0 Examples.world_yes Examples.env0 Examples.file_object
              Examples.key0 Examples.topic0 _ _ st1 eq_refl eq_refl E)
    as [A [B _]].
  - discriminate.
  - intros items. discriminate.
  - split; [now rewrite A | exact B].
Defined.

(** ** The candidate links, once more *)

Lemma collect_links_cons lib items href rest :
  collect_links lib (PList items) (href :: rest) =
  match collect_links lib (PList items) rest with
  | Ok links =>
      if startswith href lit_url_q then
        match truthy (query_q lib href) with
        | Some url =>
            if negb (str_contains lit_google_com url)
               && negb (existsb (is_str url) items)
            then Ok (url :: links) else Ok links
        | None => Ok links
        end
      else Ok links
  | Raise e => Raise e
  end.
Proof.
  destruct (collect_links_list lib items rest) as [links [E _]].
  cbn [collect_links]. rewrite E.
  destruct (startswith href lit_url_q); [|reflexivity].
  destruct (truthy (query_q lib href)) as [url|]; [|reflexivity].
  destruct (str_contains lit_google_com url); cbn [negb andb]; [reflexivity|].
  cbn [py_in]. now destruct (existsb (is_str url) items).
Qed.

Lemma collect_links_app lib items h1 h2 l1 l2 :
  collect_links lib (PList items) h1 = Ok l1 ->
  collect_links lib (PList items) h2 = Ok l2 ->
  collect_links lib (PList items) (h1 ++ h2) = Ok (l1 ++ l2).
Proof.
  revert l1. induction h1 as [|href h1 IH]; intros l1 E1 E2.
  - injection E1 as <-. exact E2.
  - cbn [app]. rewrite collect_links_cons in E1 |- *.
    destruct (collect_links_list lib items h1) as [l1' [E1' _]].
    rewrite E1' in E1. rewrite (IH l1' E1' E2).
    destruct (startswith href lit_url_q); [|now injection E1 as <-].
    destruct (truthy (query_q lib href)) as [url|]; [|now injection E1 as <-].
    destruct (negb (str_contains lit_google_com url)
              && negb (existsb (is_str url) items));
      now injection E1 as <-.
Qed.

(** An eligible anchor is put in front of the candidates that follow it. *)
Lemma collect_links_eligible lib items href post behind u :
  startswith href lit_url_q = true ->
  query_q lib href = Some u ->
  u <> [] ->
  str_contains lit_google_com u = false ->
  ~ In (PStr u) items ->
  collect_links lib (PList items) post = Ok behind ->
  collect_links lib (PList items) (href :: post) = Ok (u :: behind).
Proof.
  intros Hs Hq Hne Hg Hin E2.
  rewrite collect_links_cons, E2, Hs, Hq.
  assert (truthy (Some u) = Some u) as -> by (destruct u; [congruence | reflexivity]).
  rewrite Hg. cbn [negb andb].
  destruct (existsb (is_str u) items) eqn:Ex; [|reflexivity].
  apply existsb_is_str in Ex. contradiction.
Qed.

(** X5.  The filter drops nothing it should keep and keeps the order of the
    page: an anchor whose [href] starts with [/url?q=] and whose decoded
    target is not empty, does not contain [google.com] and is not in the
    loaded list gives a candidate, placed between the candidates of the
    anchors before it and those of the anchors after it. *)
Theorem eligible_anchor_becomes_candidate lib items pre href post u :
  startswith href lit_url_q = true ->
  query_q lib href = Some u ->
  u <> [] ->
  str_contains lit_google_com u = false ->
  ~ In (PStr u) items ->
  exists before behind,
    collect_links lib (PList items) pre = Ok before /\
    collect_links lib (PList items) post = Ok behind /\
    collect_links lib (PList items) (pre ++ href :: post) = Ok (before ++ u :: behind).
Proof.
  intros Hs Hq Hne Hg Hin.
  destruct (collect_links_list lib items pre) as [before [E1 _]].
  destruct (collect_links_list lib items post) as [behind [E2 _]].
  exists before, behind. split; [exact E1|]. split; [exact E2|].
  apply collect_links_app; [exact E1|].
  now apply collect_links_eligible.
Qed.

Lemma eligible_anchor_becomes_candidate_witness :
  exists before behind,
    collect_links Examples.lib0 (PList [PStr Examples.job1])
      [Examples.href_of Examples.job1] = Ok before /\
    collect_links Examples.lib0 (PList [PStr Examples.job1])
      [Examples.href_of Examples.job3] = Ok behind /\
    collect_links Examples.lib0 (PList [PStr Examples.job1])
      ([Examples.href_of Examples.job1] ++ Examples.href_of Examples.job2 ::
       [Examples.href_of Examples.job3])
    = Ok (before ++ Examples.job2 :: behind).
Proof.
  apply eligible_anchor_becomes_candidate.
  - reflexivity.
  - vm_compute. reflexivity.
  - discriminate.
  - reflexivity.
  - intros [H | []]. discriminate H.
Defined.

(** ** The calls of a run, in order *)

(** One attempt: a pause, the fetch, then only calls of the classifier and
    of the notifier. *)
Lemma try_link_events lib w k topic u st :
  exists evs,
    snd (try_link lib w k topic u st) = after st (EvSleep :: EvFetch u :: evs) /\
    Forall follows_fetch evs.
Proof.
  rewrite try_link_run.
  pose proof (fetch_job_details_state lib w u st) as S.
  destruct (fetch_job_details lib w u st) as [[j|e] st1] eqn:F;
    simpl in S; subst st1.
  - rewrite (process_link_run _ _ _ _ _ _ _ _ F), analyze_with_gemini_run.
    cbn [fst].
    destruct (match fst (classifier_reply lib w j k _) with
              | Ok _ => _ | Raise _ => _ end) as [[|]|e].
    + destruct (send_ntfy_notification_state w j topic false
                  (after st [EvSleep; EvFetch u; EvClassify j])) as [evs [E Fp]].
      exists (EvClassify j :: EvNotify j false :: evs). split.
      * unfold bind.
        destruct (send_ntfy_notification w j topic false _) as [[[]|x] st3];
          simpl in E |- *; rewrite E, after_after; reflexivity.
      * constructor; [exact I|]. constructor; [exact I|].
        eapply Forall_impl; [|exact Fp]. intros ev. now destruct ev.
    + exists [EvClassify j]. split; [reflexivity | now repeat constructor].
    + exists [EvClassify j]. split; [reflexivity | now repeat constructor].
  - unfold process_link, bind. rewrite F. exists []. split; [reflexivity | constructor].
Qed.

Lemma fetched_urls_app a b : fetched_urls (a ++ b) = fetched_urls a ++ fetched_urls b.
Proof. apply flat_map_app. Qed.

Lemma fetched_urls_follows evs : Forall follows_fetch evs -> fetched_urls evs = [].
Proof.
  induction 1 as [|ev evs H _ IH]; [reflexivity|].
  destruct ev; simpl in H |- *; try contradiction; exact IH.
Qed.

Lemma count_follows evs : Forall follows_fetch evs -> count is_sleep evs = 0%nat.
Proof.
  intros F. apply count_none. eapply Forall_impl; [|exact F].
  intros ev. now destruct ev.
Qed.

Lemma paused_app a : forall slept b,
  paused slept (a ++ b) = paused slept a && paused (slept_after slept a) b.
Proof.
  induction a as [|ev a IH]; intros slept b; [reflexivity|].
  destruct ev; cbn [app paused]; unfold slept_after; cbn [fold_left is_sleep];
    rewrite IH; fold (slept_after false a); fold (slept_after true a);
    try reflexivity.
  now rewrite andb_assoc.
Qed.

Lemma slept_after_app slept a b :
  slept_after slept (a ++ b) = slept_after (slept_after slept a) b.
Proof. unfold slept_after. apply fold_left_app. Qed.

Lemma paused_follows evs :
  Forall follows_fetch evs ->
  forall slept, paused slept evs = true /\
                (evs <> [] -> slept_after slept evs = false).
Proof.
  induction 1 as [|ev evs H _ IH]; intros slept; [split; [reflexivity | congruence]|].
  destruct ev; simpl in H; try contradiction.
  - destruct (IH false) as [A B]. split; [exact A|]. intros _.
    unfold slept_after; cbn [fold_left is_sleep]. fold (slept_after false evs).
    destruct evs; [reflexivity | apply B; discriminate].
  - destruct (IH false) as [A B]. split; [exact A|]. intros _.
    unfold slept_after; cbn [fold_left is_sleep]. fold (slept_after false evs).
    destruct evs; [reflexivity | apply B; discriminate].
  - destruct (IH false) as [A B]. split; [exact A|]. intros _.
    unfold slept_after; cbn [fold_left is_sleep]. fold (slept_after false evs).
    destruct evs; [reflexivity | apply B; discriminate].
Qed.

(** What the loop adds to the trace. *)
Lemma for_each_link_calls lib w k topic links :
  forall acc st,
  exists evs,
    snd (for_each_link lib w k topic links acc st) = after st evs /\
    fetched_urls evs = links /\
    count is_sleep evs = List.length links /\
    (forall slept, paused slept evs = true) /\
    (forall slept, evs <> [] -> slept_after slept evs = false).
Proof.
  induction links as [|u rest IH]; intros acc st.
  - exists []. simpl. rewrite after_nil. repeat split; congruence.
  - cbn [for_each_link]. unfold bind.
    destruct (try_link_events lib w k topic u st) as [evs [S F]].
    destruct (try_link_ok lib w k topic u st) as [a Ha].
    destruct (try_link lib w k topic u st) as [r st1]; simpl in S, Ha; subst r st1.
    destruct (IH (if a then acc ++ [u] else acc)
                (after st (EvSleep :: EvFetch u :: evs)))
      as (evs' & S' & Hf & Hc & Hp & Hs).
    exists ((EvSleep :: EvFetch u :: evs) ++ evs').
    destruct (paused_follows evs F false) as [Pe Se].
    assert (slept_after false (EvSleep :: EvFetch u :: evs) = false) as Sblk.
    { unfold slept_after; cbn [fold_left is_sleep]. fold (slept_after false evs).
      destruct evs; [reflexivity | apply Se; discriminate]. }
    split; [rewrite S', after_after; reflexivity|].
    split; [|split; [|split]].
    + rewrite fetched_urls_app. cbn [fetched_urls flat_map app].
      fold (fetched_urls evs). rewrite (fetched_urls_follows _ F), Hf. reflexivity.
    + rewrite count_app, Hc.
      change (EvSleep :: EvFetch u :: evs) with ([EvSleep; EvFetch u] ++ evs).
      rewrite count_app, (count_follows _ F). reflexivity.
    + intros slept. rewrite paused_app. apply andb_true_iff. split.
      * cbn [paused andb]. exact Pe.
      * apply Hp.
    + intros slept _. rewrite slept_after_app.
      assert (slept_after slept (EvSleep :: EvFetch u :: evs) = false) as ->.
      { unfold slept_after; cbn [fold_left is_sleep]. exact Sblk. }
      destruct evs' as [|e evs']; [reflexivity | apply Hs; discriminate].
Qed.

(** The trace of a run that loaded a list and got a search page: the search,
    the calls of the loop, the calls of the final step. *)
Lemma main_calls lib w env f0 k topic items hrefs links :
  truthy (GEMINI_API_KEY env) = Some k ->
  truthy (NTFY_TOPIC env) = Some topic ->
  fst (get_processed_jobs lib (start f0)) = Ok (PList items) ->
  search_hrefs w google_url = Ok hrefs ->
  collect_links lib (PList items) hrefs = Ok links ->
  exists evs fin,
    trace (snd (main lib w env (start f0))) = EvSearch google_url :: evs ++ fin /\
    snd (for_each_link lib w k topic links []
           (after (start f0) [EvSearch google_url]))
    = after (after (start f0) [EvSearch google_url]) evs /\
    Forall (fun ev => match ev with
                      | EvSave _ | EvNotify _ true | EvNtfyPost _ => True
                      | _ => False
                      end) fin.
Proof.
  intros K T L Hs Hc.
  rewrite (main_run _ _ _ _ _ _ K T).
  rewrite (search_and_process_run _ _ _ _ _ _ L), Hs, Hc.
  destruct (trace_grows_for_each_link lib w k topic links []
              (after (start f0) [EvSearch google_url])) as [evs S].
  destruct (for_each_link_total lib w k topic links []
              (after (start f0) [EvSearch google_url])) as [new [st1 E]].
  rewrite E in S |- *. simpl in S. subst st1. cbn [fst snd].
  destruct (finalize_trace lib w topic
              (lit_github ++ match GITHUB_REPOSITORY env with
                             | Some r => r | None => [] end)
              (PList items) new
              (after (after (start f0) [EvSearch google_url]) evs))
    as [fin [Ef Ff]].
  exists evs, fin. split; [|split; [reflexivity | exact Ff]].
  rewrite Ef. reflexivity.
Qed.

(** The events of a run: the search, those of the loop, those of the final
    step. *)
Lemma main_loop_events lib w env f0 k topic items hrefs links :
  truthy (GEMINI_API_KEY env) = Some k ->
  truthy (NTFY_TOPIC env) = Some topic ->
  fst (get_processed_jobs lib (start f0)) = Ok (PList items) ->
  search_hrefs w google_url = Ok hrefs ->
  collect_links lib (PList items) hrefs = Ok links ->
  exists evs fin,
    trace (snd (main lib w env (start f0))) = [EvSearch google_url] ++ evs ++ fin /\
    fetched_urls evs = links /\
    count is_sleep evs = List.length links /\
    fetched_urls fin = [] /\
    count is_sleep fin = 0%nat.
Proof.
  intros K T L Hs Hc.
  destruct (main_calls _ _ _ _ _ _ _ _ _ K T L Hs Hc) as (evs & fin & E & S & F).
  destruct (for_each_link_calls lib w k topic links []
              (after (start f0) [EvSearch google_url]))
    as (evs' & S' & Hf & Hn & _).
  rewrite S in S'. apply after_inj in S'. subst evs'.
  exists evs, fin. split; [exact E|]. split; [exact Hf|]. split; [exact Hn|].
  split.
  - clear -F. induction F as [|ev fin H _ IH]; [reflexivity|].
    destruct ev; simpl in H |- *; try contradiction; exact IH.
  - apply count_none. eapply Forall_impl; [|exact F]. intros ev. now destruct ev.
Qed.

(** X6.  A run that loaded a list and got a search page fetches exactly its
    candidate links: each once for every time it occurs among them, in the
    order of the page, whatever fails on the way; and it pauses once per
    fetch. *)
Theorem run_fetches_each_candidate_once lib w env f0 k topic items hrefs links :
  truthy (GEMINI_API_KEY env) = Some k ->
  truthy (NTFY_TOPIC env) = Some topic ->
  fst (get_processed_jobs lib (start f0)) = Ok (PList items) ->
  search_hrefs w google_url = Ok hrefs ->
  collect_links lib (PList items) hrefs = Ok links ->
  fetched_urls (trace (snd (main lib w env (start f0)))) = links /\
  count is_sleep (trace (snd (main lib w env (start f0)))) = List.length links.
Proof.
  intros K T L Hs Hc.
  destruct (main_loop_events _ _ _ _ _ _ _ _ _ K T L Hs Hc)
    as (evs & fin & E & Hf & Hn & Ff & Cf).
  rewrite E. split.
  - rewrite !fetched_urls_app, Hf, Ff. cbn. now rewrite app_nil_r.
  - rewrite !count_app, Hn, Cf. cbn. lia.
Qed.

Lemma run_fetches_each_candidate_once_witness :
  fetched_urls (trace (snd (main Examples.lib0 Examples.world_job2_down
                              Examples.env0 (start Examples.file1))))
  = [Examples.job2; Examples.job3] /\
  count is_sleep (trace (snd (main Examples.lib0 Examples.world_job2_down
                                Examples.env0 (start Examples.file1))))
  = List.length [Examples.job2; Examples.job3].
Proof.
  apply (run_fetches_each_candidate_once Examples.lib0 Examples.world_job2_down
           Examples.env0 Examples.file1 Examples.key0 Examples.topic0
           [PStr Examples.job1]
           [Examples.href_of Examples.job2; Examples.href_of Examples.job3]).
  - reflexivity.
  - reflexivity.
  - vm_compute. reflexivity.
  - reflexivity.
  - vm_compute. reflexivity.
Defined.

(** X7.  In such a run every page fetch comes directly after a pause
    ([time.sleep(1)]): no two fetches follow each other without one. *)
Theorem run_pauses_before_each_fetch lib w env f0 k topic items hrefs links :
  truthy (GEMINI_API_KEY env) = Some k ->
  truthy (NTFY_TOPIC env) = Some topic ->
  fst (get_processed_jobs lib (start f0)) = Ok (PList items) ->
  search_hrefs w google_url = Ok hrefs ->
  collect_links lib (PList items) hrefs = Ok links ->
  pause_before_each_fetch (trace (snd (main lib w env (start f0)))).
Proof.
  intros K T L Hs Hc.
  destruct (main_calls _ _ _ _ _ _ _ _ _ K T L Hs Hc) as (evs & fin & E & S & F).
  destruct (for_each_link_calls lib w k topic links []
              (after (start f0) [EvSearch google_url]))
    as (evs' & S' & _ & _ & Hp & _).
  rewrite S in S'. apply after_inj in S'. subst evs'.
  unfold pause_before_each_fetch. rewrite E. cbn [paused].
  rewrite paused_app, Hp. cbn [andb].
  generalize (slept_after false evs). clear -F.
  induction F as [|ev fin H _ IH]; intros b; [reflexivity|].
  destruct ev; simpl in H |- *; try contradiction; try apply IH.
Qed.

Lemma run_pauses_before_each_fetch_witness :
  pause_before_each_fetch
    (trace (snd (main Examples.lib0 Examples.world_yes Examples.env0
                   (start Examples.file1)))).
Proof.
  apply (run_pauses_before_each_fetch Examples.lib0 Examples.world_yes
           Examples.env0 Examples.file1 Examples.key0 Examples.topic0
           [PStr Examples.job1]
           [Examples.href_of Examples.job1; Examples.href_of Examples.job2]
           [Examples.job2]).
  - reflexivity.
  - reflexivity.
  - vm_compute. reflexivity.
  - reflexivity.
  - vm_compute. reflexivity.
Defined.

(** ** Classifying and notifying one link *)

(** X8.  The job notification is called for a link only after its page was
    fetched and the classifier answered with a text whose upper-case form
    contains YES: an error of the fetch or of the classifier, or any other
    answer, leads to no notification. *)
Theorem notification_only_after_yes lib w k topic u st j :
  In (EvNotify j false) (trace (snd (process_link lib w k topic u st))) ->
  ~ In (EvNotify j false) (trace st) ->
  exists st1 reply,
    fetch_job_details lib w u st = (Ok j, st1) /\
    fst (classifier_reply lib w j k (after st1 [EvClassify j])) = Ok reply /\
    exists pre post, upper lib reply = pre ++ YES ++ post.
Proof.
  intros Hin Hnot.
  pose proof (fetch_job_details_state lib w u st) as S.
  destruct (fetch_job_details lib w u st) as [[j'|e] st1] eqn:F;
    simpl in S; subst st1.
  - rewrite (process_link_run _ _ _ _ _ _ _ _ F), analyze_with_gemini_run in Hin.
    cbn [fst] in Hin.
    assert (forall evs, In (EvNotify j false)
                          (trace (after st ([EvSleep; EvFetch u; EvClassify j'] ++ evs))) ->
                        In (EvNotify j false) evs) as Hevs.
    { intros evs H. unfold after in H; cbn [trace] in H.
      rewrite in_app_iff in H. destruct H as [H | H]; [contradiction|].
      destruct H as [H | [H | [H | H]]]; try discriminate. exact H. }
    destruct (fst (classifier_reply lib w j' k
                     (after (after st [EvSleep; EvFetch u]) [EvClassify j'])))
      as [reply | e] eqn:R.
    + destruct (stdout_encodes lib (analysis_line j' reply));
        [|exfalso; apply (Hevs []) in Hin; destruct Hin].
      destruct (str_contains YES (upper lib reply)) eqn:V.
      * destruct (send_ntfy_notification_state w j' topic false
                    (after st [EvSleep; EvFetch u; EvClassify j'])) as [evs [E Fp]].
        assert (snd ((send_ntfy_notification w j' topic false ;; ret true)
                       (after st [EvSleep; EvFetch u; EvClassify j']))
                = after st ([EvSleep; EvFetch u; EvClassify j']
                            ++ EvNotify j' false :: evs)) as E'.
        { unfold bind.
          destruct (send_ntfy_notification w j' topic false _) as [[[]|x] st3];
            simpl in E |- *; rewrite E, after_after; reflexivity. }
        rewrite E' in Hin. apply Hevs in Hin.
        destruct Hin as [Hin | Hin].
        -- injection Hin as ->. exists (after st [EvSleep; EvFetch u]), reply.
           split; [reflexivity|]. split; [exact R|].
           now apply str_contains_spec.
        -- rewrite Forall_forall in Fp. specialize (Fp _ Hin). discriminate.
      * exfalso. apply (Hevs []) in Hin. destruct Hin.
    + exfalso. destruct (is_RequestException e);
        apply (Hevs []) in Hin; destruct Hin.
  - exfalso. unfold process_link, bind in Hin. rewrite F in Hin.
    simpl in Hin. rewrite in_app_iff in Hin.
    destruct Hin as [H | [H | [H | []]]]; [contradiction | discriminate | discriminate].
Qed.

Lemma notification_only_after_yes_witness :
  exists st1 reply,
    fetch_job_details Examples.lib0 Examples.world_yes Examples.job2
      (start FileAbsent) = (Ok Examples.job2_details, st1) /\
    fst (classifier_reply Examples.lib0 Examples.world_yes Examples.job2_details
           Examples.key0 (after st1 [EvClassify Examples.job2_details]))
    = Ok reply /\
    exists pre post, upper Examples.lib0 reply = pre ++ YES ++ post.
Proof.
  apply (notification_only_after_yes Examples.lib0 Examples.world_yes
           Examples.key0 Examples.topic0 Examples.job2 (start FileAbsent)).
  - vm_compute. do 3 right. left. reflexivity.
  - intros [].
Defined.

Lemma text_of_result_missing res :
  text_key_missing res -> text_of_result res = Ok (PStr []).
Proof.
  unfold text_key_missing, dict_without, text_of_result.
  intros [[d [-> H]] | (d & c & more & -> & Hc & H)]; cbn [py_get].
  - now rewrite H.
  - rewrite Hc. cbn [py_item0].
    destruct H as [[dc [-> H]] | (dc & content & -> & Hco & H)]; cbn [py_get].
    + now rewrite H.
    + rewrite Hco.
      destruct H as [[dp [-> H]] | (dp & p & more' & -> & Hp & [dt [-> H]])];
        cbn [py_get].
      * now rewrite H.
      * rewrite Hp. cbn [py_item0 py_get]. now rewrite H.
Qed.



(** ** The notifier *)

Lemma send_job_notification_run w j topic st t body :
  title j = Some t ->
  encode_utf8 t = Ok body ->
  send_ntfy_notification w j topic false st =
  (match post_ntfy w (List.length (trace st) + 2) (job_notification topic j body) with
   | Ok _ => Ok tt
   | Raise e => if is_RequestException e then Ok tt else Raise e
   end,
   after st [EvNotify j false; EvNtfyPost (job_notification topic j body)]).
Proof.
  intros Ht He. unfold send_ntfy_notification, bind at 1, emit at 1.
  rewrite Ht. unfold bind at 1, bind at 1, lift at 1. rewrite He.
  unfold ret at 1. unfold try_except, bind, emit, now, lift.
  cbn [trace file]. fold (job_notification topic j body).
  rewrite !length_app. cbn [List.length].
  replace (List.length (trace st) + 1 + 1)%nat with (List.length (trace st) + 2)%nat
    by lia.
  unfold after. rewrite <- app_assoc. cbn [app].
  destruct (post_ntfy w _ _) as [[]|e]; [reflexivity|].
  now destruct (is_RequestException e).
Qed.

(** X10.  Whenever [send_ntfy_notification] raises, either it was called for
    a job whose title is [None] or cannot be encoded as UTF-8 (before any
    request was sent), or the request itself raised something that is not a
    [RequestException].  An error of the delivery that [requests] reports is
    never passed on. *)
Theorem send_ntfy_notification_raises_only w j topic b st e st' :
  send_ntfy_notification w j topic b st = (Raise e, st') ->
  (b = false /\ title j = None /\ e = AttributeError) \/
  (b = false /\ exists t, title j = Some t /\ encode_utf8 t = Raise e) \/
  (is_RequestException e = false /\ exists n r, post_ntfy w n r = Raise e).
Proof.
  unfold send_ntfy_notification, bind at 1, emit at 1.
  destruct b.
  - unfold bind at 1, ret at 1. unfold try_except, bind, emit, now, lift.
    cbn [trace file].
    match goal with
    | |- context [post_ntfy w ?n ?r] => destruct (post_ntfy w n r) as [[]|x] eqn:P
    end; [discriminate|].
    destruct (is_RequestException x) eqn:Rx; [discriminate|].
    intros H. injection H as <- _. right. right. split; [exact Rx|]. eauto.
  - destruct (title j) as [t|]; cbn.
    + unfold bind at 1, bind at 1, lift at 1.
      destruct (encode_utf8 t) as [body|x] eqn:En.
      * unfold ret at 1. unfold try_except, bind, emit, now, lift.
        cbn [trace file].
        match goal with
        | |- context [post_ntfy w ?n ?r] => destruct (post_ntfy w n r) as [[]|y] eqn:P
        end; [discriminate|].
        destruct (is_RequestException y) eqn:Ry; [discriminate|].
        intros H. injection H as <- _. right. right. split; [exact Ry|]. eauto.
      * intros H. injection H as <- _. right. left. split; [reflexivity|].
        exists t. now split.
    + unfold bind, raise. intros H. injection H as <- _. left. auto.
Qed.

Lemma send_ntfy_notification_raises_only_witness :
  (false = false /\ title Examples.job2_untitled = None /\
   AttributeError = AttributeError) \/
  (false = false /\
   exists t, title Examples.job2_untitled = Some t /\
             encode_utf8 t = Raise AttributeError) \/
  (is_RequestException AttributeError = false /\
   exists n r, post_ntfy Examples.world_yes n r = Raise AttributeError).
Proof.
  apply (send_ntfy_notification_raises_only Examples.world_yes
           Examples.job2_untitled Examples.topic0 false (start FileAbsent)
           AttributeError
           (after (start FileAbsent) [EvNotify Examples.job2_untitled false])).
  reflexivity.
Defined.

(** X11.  A job whose page has a title element without a single string gets
    the title [None]; when the classifier accepts it (its reply is printed
    and holds YES), the notifier fails on [job['title'].encode] before any
    request is sent, the handler around the link takes the [AttributeError],
    and the link is not added to [new_jobs_found]: the job is neither
    notified nor recorded. *)
Theorem untitled_job_is_neither_notified_nor_recorded
    lib w k topic u st j st1 reply st2 :
  fetch_job_details lib w u st = (Ok j, st1) ->
  title j = None ->
  classifier_reply lib w j k (after st1 [EvClassify j]) = (Ok reply, st2) ->
  stdout_encodes lib (analysis_line j reply) = true ->
  str_contains YES (upper lib reply) = true ->
  try_link lib w k topic u st
  = (Ok false, after st [EvSleep; EvFetch u; EvClassify j; EvNotify j false]).
Proof.
  intros F Ht R Pr V.
  pose proof (fetch_job_details_state lib w u st) as S.
  rewrite F in S; simpl in S; subst st1.
  rewrite try_link_run, (process_link_run _ _ _ _ _ _ _ _ F).
  rewrite analyze_with_gemini_run, R. cbn [fst]. rewrite Pr, V.
  unfold send_ntfy_notification, bind, emit. rewrite Ht. unfold raise.
  unfold after. cbn [trace file]. rewrite <- app_assoc. reflexivity.
Qed.

Lemma untitled_job_is_neither_notified_nor_recorded_witness :
  try_link Examples.lib0 Examples.world_untitled Examples.key0 Examples.topic0
    Examples.job2 (start FileAbsent)
  = (Ok false,
     after (start FileAbsent)
       [EvSleep; EvFetch Examples.job2; EvClassify Examples.job2_untitled;
        EvNotify Examples.job2_untitled false]).
Proof.
  eapply (untitled_job_is_neither_notified_nor_recorded Examples.lib0
            Examples.world_untitled Examples.key0 Examples.topic0 Examples.job2
            (start FileAbsent) Examples.job2_untitled _ Examples.lit_yes_matches).
  - vm_compute. reflexivity.
  - reflexivity.
  - vm_compute. reflexivity.
  - vm_compute. reflexivity.
  - vm_compute. reflexivity.
Defined.

(** X12.  For a job that the classifier accepts (its reply is printed and
    holds YES) and whose title can be encoded, the request of the job
    notification is sent and the link is added to [new_jobs_found] whether
    the request succeeded or [requests] reported a failure: a notification
    that could not be delivered is not tried again in a later run. *)
Theorem link_is_recorded_even_if_undelivered
    lib w k topic u st j st1 reply st2 t body :
  fetch_job_details lib w u st = (Ok j, st1) ->
  title j = Some t ->
  encode_utf8 t = Ok body ->
  classifier_reply lib w j k (after st1 [EvClassify j]) = (Ok reply, st2) ->
  stdout_encodes lib (analysis_line j reply) = true ->
  str_contains YES (upper lib reply) = true ->
  (post_ntfy w (List.length (trace st) + 5) (job_notification topic j body) = Ok tt \/
   exists e, post_ntfy w (List.length (trace st) + 5) (job_notification topic j body)
             = Raise (RequestException e)) ->
  try_link lib w k topic u st
  = (Ok true,
     after st [EvSleep; EvFetch u; EvClassify j; EvNotify j false;
               EvNtfyPost (job_notification topic j body)]).
Proof.
  intros F Ht He R Pr V P.
  pose proof (fetch_job_details_state lib w u st) as S.
  rewrite F in S; simpl in S; subst st1.
  rewrite try_link_run, (process_link_run _ _ _ _ _ _ _ _ F).
  rewrite analyze_with_gemini_run, R. cbn [fst]. rewrite Pr, V.
  unfold bind at 1. rewrite (send_job_notification_run _ _ _ _ _ _ Ht He).
  rewrite after_after. cbn [app].
  replace (List.length (trace (after st [EvSleep; EvFetch u; EvClassify j])) + 2)%nat
    with (List.length (trace st) + 5)%nat
    by (unfold after; cbn [trace]; rewrite length_app; cbn [List.length]; lia).
  destruct P as [-> | [e ->]]; reflexivity.
Qed.

Lemma link_is_recorded_even_if_undelivered_witness :
  try_link Examples.lib0 Examples.world_ntfy_down Examples.key0 Examples.topic0
    Examples.job2 (start FileAbsent)
  = (Ok true,
     after (start FileAbsent)
       [EvSleep; EvFetch Examples.job2; EvClassify Examples.job2_details;
        EvNotify Examples.job2_details false;
        EvNtfyPost (job_notification Examples.topic0 Examples.job2_details
                      (str "Walk-in for freshers"))]).
Proof.
  eapply (link_is_recorded_even_if_undelivered Examples.lib0
            Examples.world_ntfy_down Examples.key0 Examples.topic0 Examples.job2
            (start FileAbsent) Examples.job2_details _ Examples.lit_yes_matches
            _ (str "Walk-in for freshers")).
  - vm_compute. reflexivity.
  - reflexivity.
  - vm_compute. reflexivity.
  - vm_compute. reflexivity.
  - vm_compute. reflexivity.
  - vm_compute. reflexivity.
  - right. exists ConnectionError. reflexivity.
Defined.

(** ** From one run to the next *)

(** A run that reached the final step with a loaded list and at least one
    accepted link: the outcome of the final step follows that of opening the
    file for writing. *)
Lemma main_saving_run lib w env f0 k topic items new st1 :
  truthy (GEMINI_API_KEY env) = Some k ->
  truthy (NTFY_TOPIC env) = Some topic ->
  search_and_process lib w k topic (start f0) = (Ok (PList items, new), st1) ->
  new <> [] ->
  file st1 = f0 /\
  main lib w env (start f0) =
  match open_write w (List.length (trace st1) + 1) with
  | Ok _ =>
      (Ok tt,
       {| trace := trace st1 ++ [EvSave (PList (items ++ List.map PStr new))];
          file := FileText (json_dumps (number_repr lib)
                              (PList (items ++ List.map PStr new))) |})
  | Raise e => (Raise e, after st1 [EvSave (PList (items ++ List.map PStr new))])
  end.
Proof.
  intros K T E Hne.
  pose proof (search_and_process_loaded _ _ _ _ _ _ _ _ E) as L.
  destruct (emits_search_and_process lib w k topic (start f0)) as [evs [S _]].
  rewrite E in S; simpl in S.
  assert (file st1 = f0) as Hfile by (now subst st1).
  split; [exact Hfile|].
  rewrite (main_run _ _ _ _ _ _ K T), E. cbn [fst snd].
  destruct new as [|u new]; [congruence|].
  unfold finalize, bind, lift. cbn [py_add].
  rewrite save_processed_jobs_run, Hfile.
  rewrite get_processed_jobs_run in L. cbn [fst file start] in L.
  destruct f0; try discriminate L; reflexivity.
Qed.

(** The file after such a run that ended without an error. *)
Lemma file_after_saving_run lib w env f0 k topic items new st1 :
  truthy (GEMINI_API_KEY env) = Some k ->
  truthy (NTFY_TOPIC env) = Some topic ->
  search_and_process lib w k topic (start f0) = (Ok (PList items, new), st1) ->
  new <> [] ->
  fst (main lib w env (start f0)) = Ok tt ->
  file (snd (main lib w env (start f0)))
  = FileText (json_dumps (number_repr lib) (PList (items ++ List.map PStr new))).
Proof.
  intros K T E Hne.
  destruct (main_saving_run _ _ _ _ _ _ _ _ _ K T E Hne) as [_ ->].
  destruct (open_write w _); [reflexivity | discriminate].
Qed.



(** ** Recorded links *)

(** An attempt that adds its link has sent the notification request. *)
Lemma try_link_true lib w k topic u st st1 :
  try_link lib w k topic u st = (Ok true, st1) ->
  exists j t body,
    link j = u /\ title j = Some t /\ encode_utf8 t = Ok body /\
    st1 = after st [EvSleep; EvFetch u; EvClassify j; EvNotify j false;
                    EvNtfyPost (job_notification topic j body)].
Proof.
  rewrite try_link_run.
  pose proof (fetch_job_details_state lib w u st) as S.
  destruct (fetch_job_details lib w u st) as [[j|e] st0] eqn:F;
    simpl in S; subst st0.
  - pose proof (fetch_job_details_link _ _ _ _ _ _ F) as Hl.
    rewrite (process_link_run _ _ _ _ _ _ _ _ F), analyze_with_gemini_run.
    cbn [fst].
    destruct (match fst (classifier_reply lib w j k _) with
              | Ok _ => _ | Raise _ => _ end) as [[|]|e];
      [|discriminate|discriminate].
    unfold bind at 1.
    destruct (title j) as [t|] eqn:Ht.
    + destruct (encode_utf8 t) as [body|x] eqn:He.
      * rewrite (send_job_notification_run _ _ _ _ _ _ Ht He), after_after.
        cbn [app].
        destruct (match post_ntfy w _ _ with Ok _ => _ | Raise _ => _ end) as [[]|y];
          [|discriminate].
        intros H. injection H as <-. exists j, t, body. auto.
      * unfold send_ntfy_notification, bind, emit, lift. rewrite Ht, He.
        discriminate.
    + unfold send_ntfy_notification, bind, emit, raise. rewrite Ht. discriminate.
  - unfold process_link, bind. rewrite F. discriminate.
Qed.

Lemma for_each_link_recorded lib w k topic links :
  forall acc st new st',
    for_each_link lib w k topic links acc st = (Ok new, st') ->
    exists sub evs,
      new = acc ++ sub /\ st' = after st evs /\
      forall u, In u sub ->
        exists j t body,
          link j = u /\ title j = Some t /\ encode_utf8 t = Ok body /\
          In (EvNtfyPost (job_notification topic j body)) evs.
Proof.
  induction links as [|u rest IH]; intros acc st new st' E; simpl in E.
  - unfold ret in E. injection E as <- <-. exists [], [].
    rewrite app_nil_r, after_nil. repeat split; auto. intros ? [].
  - unfold bind in E.
    destruct (try_link lib w k topic u st) as [[a|e] st1] eqn:Tl; [|discriminate].
    destruct (IH _ _ _ _ E) as (sub & evs & -> & -> & Hsub).
    destruct a.
    + destruct (try_link_true _ _ _ _ _ _ _ Tl) as (j & t & body & Hl & Ht & He & ->).
      exists (u :: sub), ([EvSleep; EvFetch u; EvClassify j; EvNotify j false;
                           EvNtfyPost (job_notification topic j body)] ++ evs).
      rewrite <- app_assoc, after_after. split; [reflexivity|].
      split; [reflexivity|].
      intros x [<- | Hx].
      * exists j, t, body. repeat split; auto.
        apply in_or_app. left. simpl. auto 6.
      * destruct (Hsub x Hx) as (j' & t' & body' & A & B & C & D).
        exists j', t', body'. repeat split; auto.
        apply in_or_app. now right.
    + destruct (emits_try_link lib w k topic u st) as [evs0 [S _]].
      rewrite Tl in S; simpl in S; subst st1.
      exists sub, (evs0 ++ evs). rewrite after_after.
      split; [reflexivity|]. split; [reflexivity|].
      intros x Hx. destruct (Hsub x Hx) as (j' & t' & body' & A & B & C & D).
      exists j', t', body'. repeat split; auto.
      apply in_or_app. now right.
Qed.

(** X14.  A link reaches [new_jobs_found], and so the saved list, only after
    the request of its notification was sent: to [NTFY_TOPIC], with the
    UTF-8 form of the job title as body and the link itself as click
    target. *)
Theorem recorded_link_was_notified lib w k topic st processed new st1 u :
  search_and_process lib w k topic st = (Ok (processed, new), st1) ->
  In u new ->
  exists j t body,
    link j = u /\ title j = Some t /\ encode_utf8 t = Ok body /\
    In (EvNtfyPost (job_notification topic j body)) (trace st1).
Proof.
  unfold search_and_process, bind at 1.
  destruct (get_processed_jobs lib st) as [[p|e] st0]; [|discriminate].
  unfold bind, lift, emit, ret.
  destruct (py_len p); [|discriminate].
  destruct (search_hrefs w google_url) as [hrefs|]; [|discriminate].
  destruct (collect_links lib p hrefs) as [links|]; [|discriminate].
  destruct (for_each_link lib w k topic links [] _) as [[n|e] st2] eqn:E;
    [|discriminate].
  intros H Hu. injection H as _ -> ->.
  destruct (for_each_link_recorded _ _ _ _ _ _ _ _ _ E) as (sub & evs & -> & -> & Hsub).
  destruct (Hsub u Hu) as (j & t & body & A & B & C & D).
  exists j, t, body. repeat split; auto.
  unfold after. cbn [trace]. apply in_or_app. now right.
Qed.

Lemma recorded_link_was_notified_witness :
  exists j t body,
    link j = Examples.job2 /\ title j = Some t /\ encode_utf8 t = Ok body /\
    In (EvNtfyPost (job_notification Examples.topic0 j body))
       (trace (snd (search_and_process Examples.lib0 Examples.world_ntfy_down
                      Examples.key0 Examples.topic0 (start FileAbsent)))).
Proof.
  apply (recorded_link_was_notified Examples.lib0 Examples.world_ntfy_down
           Examples.key0 Examples.topic0 (start FileAbsent)
           (PList []) [Examples.job2]).
  - vm_compute. reflexivity.
  - left. reflexivity.
Defined.

(** ** The text given to the classifier *)

Lemma split_ws_words (s : pystr) :
  forall cur, Forall (fun c => is_space c = false) cur ->
              Forall is_word (split_ws s cur).
Proof.
  induction s as [|c s IH]; intros cur Hc; cbn [split_ws].
  - destruct cur as [|x cur]; constructor; [|constructor].
    split; [discriminate | exact Hc].
  - destruct (is_space c) eqn:Sp.
    + destruct cur as [|x cur]; [apply IH; constructor|].
      constructor; [split; [discriminate | exact Hc] | apply IH; constructor].
    + apply IH. apply Forall_app. split; [exact Hc|]. now constructor.
Qed.

Lemma split_ws_word (w : pystr) :
  Forall (fun c => is_space c = false) w ->
  forall rest cur, split_ws (w ++ rest) cur = split_ws rest (cur ++ w).
Proof.
  induction 1 as [|c w Hc _ IH]; intros rest cur; cbn [app split_ws].
  - now rewrite app_nil_r.
  - rewrite Hc, IH, <- app_assoc. reflexivity.
Qed.

Lemma split_ws_join (words : list pystr) :
  Forall is_word words -> split_ws (join [32] words) [] = words.
Proof.
  induction 1 as [|w words [Hne Hw] Hws IH]; [reflexivity|].
  destruct words as [|w2 words].
  - cbn [join]. rewrite <- (app_nil_r w) at 1.
    rewrite (split_ws_word w Hw). cbn [app split_ws].
    destruct w; [congruence | reflexivity].
  - change (join [32] (w :: w2 :: words))
      with (w ++ 32 :: join [32] (w2 :: words)).
    rewrite (split_ws_word w Hw). cbn [app split_ws].
    change (is_space 32) with true. cbn iota.
    rewrite IH. destruct w; [congruence | reflexivity].
Qed.

Lemma in_join sep (words : list pystr) c :
  In c (join sep words) -> In c sep \/ exists w, In w words /\ In c w.
Proof.
  induction words as [|w [|w2 words] IH]; cbn [join].
  - intros [].
  - intros H. right. exists w. split; [now left | exact H].
  - rewrite !in_app_iff. intros [H | [H | H]].
    + right. exists w. split; [now left | exact H].
    + now left.
    + destruct (IH H) as [A | [x [Hx Hc]]]; [now left|].
      right. exists x. split; [now right | exact Hc].
Qed.

Lemma normalize_ws_spec (txt : pystr) :
  (forall c, In c (normalize_ws txt) -> is_space c = true -> c = 32) /\
  split_ws (normalize_ws txt) [] = split_ws txt [] /\
  normalize_ws (normalize_ws txt) = normalize_ws txt.
Proof.
  pose proof (split_ws_words txt [] (Forall_nil _)) as Hw.
  assert (split_ws (normalize_ws txt) [] = split_ws txt []) as E
    by (apply split_ws_join; exact Hw).
  split; [|split; [exact E|]].
  - intros c Hc Sp. apply in_join in Hc.
    destruct Hc as [[<- | []] | [w [Hin Hcw]]]; [reflexivity|].
    rewrite Forall_forall in Hw. destruct (Hw w Hin) as [_ Hns].
    rewrite Forall_forall in Hns. rewrite (Hns c Hcw) in Sp. discriminate.
  - unfold normalize_ws at 1. now rewrite E.
Qed.

(** The job record of a fetched page carries the normalised text. *)
Lemma fetch_job_details_text lib w u st j st1 :
  fetch_job_details lib w u st = (Ok j, st1) ->
  exists pg txt,
    get_page w (List.length (trace st) + 2) u = Ok pg /\
    page_body_text pg = Some txt /\ details j = normalize_ws txt.
Proof.
  unfold fetch_job_details, bind, emit, now, lift, ret, raise; simpl.
  rewrite !length_app. cbn [List.length].
  replace (List.length (trace st) + 1 + 1)%nat with (List.length (trace st) + 2)%nat
    by lia.
  destruct (get_page w _ u) as [pg|]; [|discriminate].
  destruct (urlparse_hostname lib u); [|discriminate].
  destruct (page_body_text pg) as [txt|] eqn:B; [|discriminate].
  intros H; injection H as <- _. exists pg, txt. auto.
Qed.

(** X15.  The [details] of a job record, [" ".join(text.split())] of the
    page text, are whitespace-normalised: the only whitespace left is the
    single space between two words, the words are those of the page text, in
    order, and normalising again changes nothing. *)
Theorem details_are_whitespace_normalised lib w u st j st1 :
  fetch_job_details lib w u st = (Ok j, st1) ->
  (forall c, In c (details j) -> is_space c = true -> c = 32) /\
  normalize_ws (details j) = details j /\
  exists pg txt,
    get_page w (List.length (trace st) + 2) u = Ok pg /\
    page_body_text pg = Some txt /\
    split_ws (details j) [] = split_ws txt [].
Proof.
  intros F. destruct (fetch_job_details_text _ _ _ _ _ _ F) as (pg & txt & G & B & ->).
  destruct (normalize_ws_spec txt) as (A & W & N).
  split; [exact A|]. split; [exact N|]. exists pg, txt. auto.
Qed.

Lemma details_are_whitespace_normalised_witness :
  (forall c, In c (details Examples.job2_details) -> is_space c = true -> c = 32) /\
  normalize_ws (details Examples.job2_details) = details Examples.job2_details /\
  exists pg txt,
    get_page Examples.world_yes (List.length (trace (start FileAbsent)) + 2)
      Examples.job2 = Ok pg /\
    page_body_text pg = Some txt /\
    split_ws (details Examples.job2_details) [] = split_ws txt [].
Proof.
  apply (details_are_whitespace_normalised Examples.lib0 Examples.world_yes
           Examples.job2 (start FileAbsent) Examples.job2_details
           (after (start FileAbsent) [EvSleep; EvFetch Examples.job2])).
  vm_compute. reflexivity.
Defined.

(** ** What a run does at most *)

Lemma finalize_outcome lib w topic url processed new st :
  file st <> FileIsDirectory ->
  (exists v,
      finalize lib w topic url processed new st
      = (Ok tt, {| trace := trace st ++ [EvSave v];
                   file := FileText (json_dumps (number_repr lib) v) |}) \/
      exists e, finalize lib w topic url processed new st
                = (Raise e, after st [EvSave v])) \/
  (exists evs, snd (finalize lib w topic url processed new st) = after st evs /\
               count is_save evs = 0%nat /\
               (count is_status_notification evs <= 1)%nat).
Proof.
  intros H2. unfold finalize. destruct new as [|u new].
  - right.
    match goal with
    | |- context [send_ntfy_notification ?w ?j ?t ?b ?s] =>
        destruct (send_ntfy_notification_state w j t b s) as [evs [E F]]
    end.
    rewrite E.
    eexists. split; [reflexivity|].
    change (EvNotify ?j true :: evs) with ([EvNotify j true] ++ evs).
    rewrite !count_app, !(count_none _ evs);
      try (eapply Forall_impl; [|exact F]; intros ev; now destruct ev).
    split; [reflexivity | cbn; lia].
  - unfold bind, lift. destruct (py_add processed (u :: new)) as [v|e].
    + left. exists v. rewrite save_processed_jobs_run.
      destruct (open_write w (List.length (trace st) + 1)) as [[]|e] eqn:O.
      * left. destruct (file st); try reflexivity; congruence.
      * right. exists e. destruct (file st); try reflexivity; congruence.
    + right. exists []. rewrite after_nil. cbn. auto.
Qed.



(** ** The requests to the notification service *)

Lemma emits_job_notification w j topic env :
  emits (posts_only topic env) (send_ntfy_notification w j topic false).
Proof.
  unfold send_ntfy_notification.
  apply emits_bind; [apply emits_emit; exact I | intros _].
  destruct (title j) as [t|] eqn:Ht.
  - unfold bind at 1, bind at 1, lift at 1.
    destruct (encode_utf8 t) as [body|x] eqn:He.
    + unfold ret at 1.
      assert (emits (posts_only topic env)
                (try_except
                   (emit (EvNtfyPost (job_notification topic j body)) ;;
                    t0 <- now ;; lift (post_ntfy w t0 (job_notification topic j body)))
                   is_RequestException (fun _ => ret tt))) as H.
      { repeat emits_step. left. exists j, t, body. auto. }
      exact H.
    + intros st. exists []. cbn. now rewrite after_nil.
  - intros st. exists []. unfold bind, raise. cbn. now rewrite after_nil.
Qed.

Lemma emits_status_notification w topic env :
  emits (posts_only topic env)
    (send_ntfy_notification w
       {| title := Some lit_job_search_complete; company := None; details := [];
          link := (lit_github ++ match GITHUB_REPOSITORY env with
                                 | Some r => r | None => [] end) ++ lit_actions |}
       topic true).
Proof.
  unfold send_ntfy_notification.
  apply emits_bind; [apply emits_emit; exact I | intros _].
  unfold bind at 1, ret at 1.
  repeat emits_step. right. unfold status_notification, actions_url.
  cbn [title link]. now rewrite <- app_assoc.
Qed.

Lemma emits_for_each_link_posts lib w k topic env links :
  forall acc, emits (posts_only topic env) (for_each_link lib w k topic links acc).
Proof.
  induction links as [|u rest IH]; intros acc; cbn [for_each_link].
  - apply emits_ret.
  - apply emits_bind; [|intros a; apply IH].
    unfold try_link. apply emits_try_except; [|intros e; apply emits_ret].
    unfold process_link.
    apply emits_bind.
    { unfold fetch_job_details. repeat emits_step; try exact I.
      destruct (page_body_text _); auto with emits. }
    intros j. apply emits_bind.
    { unfold analyze_with_gemini, classifier_reply. repeat emits_step. exact I. }
    intros [|]; [|apply emits_ret].
    apply emits_bind; [apply emits_job_notification | intros _; apply emits_ret].
Qed.

(** X17.  Every request a run sends to the notification service is one of
    two: the notification of a job, whose body is the UTF-8 form of the job
    title and whose click target is the job link, or the status notification,
    whose click target is the actions page of [GITHUB_REPOSITORY]; both go to
    [NTFY_TOPIC]. *)
Theorem run_posts_only_script_requests lib w env f0 k topic r :
  truthy (GEMINI_API_KEY env) = Some k ->
  truthy (NTFY_TOPIC env) = Some topic ->
  In (EvNtfyPost r) (trace (snd (main lib w env (start f0)))) ->
  script_request topic env r /\ ntfy_topic r = topic.
Proof.
  intros K T Hin.
  assert (script_request topic env r) as Hr.
  { rewrite (main_run _ _ _ _ _ _ K T) in Hin.
    assert (emits (posts_only topic env) (search_and_process lib w k topic)) as Hsp.
    { unfold search_and_process.
      apply emits_bind; [apply emits_get_processed_jobs | intros p].
      apply emits_bind; [apply emits_lift | intros _].
      apply emits_bind; [apply emits_emit; exact I | intros _].
      apply emits_bind; [apply emits_lift | intros hrefs].
      apply emits_bind; [apply emits_lift | intros links].
      apply emits_bind; [apply emits_for_each_link_posts | intros new].
      apply emits_ret. }
    destruct (Hsp (start f0)) as [evs [S F]].
    destruct (search_and_process lib w k topic (start f0)) as [[[p new]|e] st1];
      simpl in S; subst st1.
    - cbn [fst snd] in Hin. unfold finalize in Hin.
      destruct new as [|u new].
      + destruct (emits_status_notification w topic env (after (start f0) evs))
          as [fin [Ef Ff]].
        rewrite Ef in Hin. cbn in Hin. apply in_app_or in Hin.
        rewrite Forall_forall in F, Ff.
        destruct Hin as [H | H]; [exact (F _ H) | exact (Ff _ H)].
      + unfold bind, lift in Hin. destruct (py_add p (u :: new)) as [v|e].
        * rewrite save_processed_jobs_trace in Hin.
          assert (In (EvNtfyPost r) (evs ++ [EvSave v])) as H by exact Hin.
          apply in_app_or in H. rewrite Forall_forall in F.
          destruct H as [H | [H | []]]; [exact (F _ H) | discriminate].
        * cbn in Hin. rewrite Forall_forall in F. exact (F _ Hin).
    - cbn in Hin. rewrite Forall_forall in F. exact (F _ Hin). }
  split; [exact Hr|].
  destruct Hr as [(j & t & body & _ & _ & ->) | ->]; reflexivity.
Qed.

Lemma run_posts_only_script_requests_witness :
  script_request Examples.topic0 Examples.env0
    (status_notification Examples.topic0 Examples.env0) /\
  ntfy_topic (status_notification Examples.topic0 Examples.env0) = Examples.topic0.
Proof.
  apply (run_posts_only_script_requests Examples.lib0 Examples.world_no
           Examples.env0 Examples.file1 Examples.key0 Examples.topic0).
  - reflexivity.
  - reflexivity.
  - vm_compute. repeat (first [left; reflexivity | right]).
Defined.

(** ** Links that were not accepted *)

Lemma in_fetched_urls u tr : In u (fetched_urls tr) <-> In (EvFetch u) tr.
Proof.
  unfold fetched_urls. rewrite in_flat_map. split.
  - intros [ev [Hin H]]. destruct ev; simpl in H; try contradiction.
    destruct H as [<- | []]. exact Hin.
  - intros H. exists (EvFetch u). split; [exact H | now left].
Qed.

Lemma file_after_reporting_run lib w env f0 k topic processed st1 :
  truthy (GEMINI_API_KEY env) = Some k ->
  truthy (NTFY_TOPIC env) = Some topic ->
  search_and_process lib w k topic (start f0) = (Ok (processed, []), st1) ->
  file (snd (main lib w env (start f0))) = f0.
Proof.
  intros K T E.
  destruct (emits_search_and_process lib w k topic (start f0)) as [evs [S _]].
  rewrite E in S; simpl in S.
  rewrite (main_run _ _ _ _ _ _ K T), E. cbn [fst snd]. unfold finalize.
  match goal with
  | |- context [send_ntfy_notification ?w ?j ?t ?b ?s] =>
      destruct (send_ntfy_notification_state w j t b s) as [evs' [E' _]];
      rewrite E'
  end.
  now subst st1.
Qed.

(** What the next run loads, whether this run saved or not: a list of
    strings, each of which this run loaded or accepted. *)
Lemma next_run_loads lib w env f0 k topic l new st1 :
  truthy (GEMINI_API_KEY env) = Some k ->
  truthy (NTFY_TOPIC env) = Some topic ->
  search_and_process lib w k topic (start f0)
  = (Ok (PList (List.map PStr l), new), st1) ->
  Forall scalar_str (l ++ new) ->
  exists l2,
    fst (get_processed_jobs lib (start (file (snd (main lib w env (start f0))))))
    = Ok (PList (List.map PStr l2)) /\
    forall x, In x l2 -> In x (l ++ new).
Proof.
  intros K T E Hs.
  pose proof (search_and_process_loaded _ _ _ _ _ _ _ _ E) as L.
  destruct new as [|u new].
  - exists l. rewrite (file_after_reporting_run _ _ _ _ _ _ _ _ K T E).
    split; [exact L|]. intros x Hx. apply in_or_app. now left.
  - destruct (main_saving_run _ _ _ _ _ _ _ _ _ K T E) as [Hfile ->];
      [discriminate|].
    destruct (open_write w _) as [[]|e]; cbn [snd file after].
    + exists (l ++ u :: new). split; [|auto].
      rewrite <- map_app, get_processed_jobs_run. cbn [file start fst].
      now rewrite json_loads_dumps_strings.
    + exists l. rewrite Hfile. split; [exact L|].
      intros x Hx. apply in_or_app. now left.
Qed.

(** X18.  Only acceptance stops a link from being tried again: a candidate of
    one run that was not accepted is not in what the next run loads, so when
    the next search page names it again the next run fetches it again.
    (Strings are lists of Unicode scalar values.) *)
Theorem unaccepted_link_is_fetched_again
    lib w1 w2 env f0 k topic l new st1 hrefs1 links1 u hrefs2 href :
  truthy (GEMINI_API_KEY env) = Some k ->
  truthy (NTFY_TOPIC env) = Some topic ->
  search_and_process lib w1 k topic (start f0)
  = (Ok (PList (List.map PStr l), new), st1) ->
  Forall scalar_str (l ++ new) ->
  search_hrefs w1 google_url = Ok hrefs1 ->
  collect_links lib (PList (List.map PStr l)) hrefs1 = Ok links1 ->
  In u links1 ->
  ~ In u new ->
  search_hrefs w2 google_url = Ok hrefs2 ->
  In href hrefs2 ->
  startswith href lit_url_q = true ->
  query_q lib href = Some u ->
  In (EvFetch u)
     (trace (snd (main lib w2 env (start (file (snd (main lib w1 env (start f0)))))))).
Proof.
  intros K T E Hs S1 C1 Hu Hnew S2 Hh Hsw Hq.
  destruct (next_run_loads _ _ _ _ _ _ _ _ _ K T E Hs) as (l2 & L2 & Hl2).
  set (f1 := file (snd (main lib w1 env (start f0)))) in *.
  destruct (collect_links_list lib (List.map PStr l) hrefs1) as [links' [C1' H1]].
  rewrite C1 in C1'. injection C1' as <-.
  destruct (H1 u Hu) as (Hne & Hg & Hnl & _).
  assert (~ In (PStr u) (List.map PStr l2)) as Hfresh.
  { intros H. apply in_map_iff in H. destruct H as [x [Ex Hx]]. injection Ex as ->.
    apply Hl2, in_app_or in Hx. destruct Hx as [Hx | Hx]; [|contradiction].
    apply Hnl. now apply in_map. }
  apply in_split in Hh. destruct Hh as [pre [post ->]].
  destruct (collect_links_list lib (List.map PStr l2) pre) as [before [B _]].
  destruct (collect_links_list lib (List.map PStr l2) post) as [behind [B' _]].
  pose proof (collect_links_app _ _ _ _ _ _ B
                (collect_links_eligible _ _ _ _ _ _ Hsw Hq Hne Hg Hfresh B')) as C2.
  destruct (main_loop_events lib w2 env f1 k topic _ _ _ K T L2 S2 C2)
    as (evs & fin & Etr & Hf & _).
  rewrite Etr. apply in_or_app. right. apply in_or_app. left.
  apply in_fetched_urls. rewrite Hf. apply in_or_app. right. now left.
Qed.

Lemma unaccepted_link_is_fetched_again_witness :
  In (EvFetch Examples.job2)
     (trace (snd (main Examples.lib0 Examples.world_yes Examples.env0
                    (start (file (snd (main Examples.lib0 Examples.world_no
                                         Examples.env0 (start Examples.file1)))))))).
Proof.
  pose (st1 := snd (search_and_process Examples.lib0 Examples.world_no
                      Examples.key0 Examples.topic0 (start Examples.file1))).
  assert (search_and_process Examples.lib0 Examples.world_no
            Examples.key0 Examples.topic0 (start Examples.file1)
          = (Ok (PList (List.map PStr [Examples.job1]), []), st1)) as E
    by (vm_compute; reflexivity).
  apply (unaccepted_link_is_fetched_again Examples.lib0 Examples.world_no
           Examples.world_yes Examples.env0 Examples.file1 Examples.key0
           Examples.topic0 [Examples.job1] [] st1
           [Examples.href_of Examples.job1; Examples.href_of Examples.job2]
           [Examples.job2] Examples.job2
           [Examples.href_of Examples.job1; Examples.href_of Examples.job2]
           (Examples.href_of Examples.job2) eq_refl eq_refl E).
  - repeat constructor; apply scalar_str_forallb; reflexivity.
  - reflexivity.
  - vm_compute. reflexivity.
  - left. reflexivity.
  - intros [].
  - reflexivity.
  - right. left. reflexivity.
  - reflexivity.
  - vm_compute. reflexivity.
Defined.
